(** * RAMSES domain files: reader, octree population, selection cache, chunking

    A shallow embedding of [yt/frontends/ramses/data_structures.py]:
    [RAMSESDomainFile] ([_read_amr_header], [_read_amr], [select], [count])
    and [RAMSESGeometryHandler] ([_initialize_oct_handler], [_chunk_all],
    [_chunk_spatial], [_chunk_io]).

    Python integers are [Z], doubles are the kernel's binary64 floats, a file
    is the list of its bytes together with an explicit read cursor, and a
    Python exception is the [Raise] case of [result]. *)

From Stdlib Require Import ZArith List Lia Bool.
From Stdlib Require String.
From Stdlib Require Import Strings.Byte.
From Stdlib Require Import PrimFloat SpecFloat FloatOps.
Import ListNotations.
Import String.StringSyntax.
Abbreviation string := String.string.
Close Scope float_scope.
Open Scope string_scope.
Open Scope list_scope.
Open Scope Z_scope.

(** ** Exceptions and the error monad *)

Inductive pyerr : Type :=
| StructError          (* struct.error: fewer bytes than the format needs *)
| CorruptRecord        (* a record marker disagrees with the declared sizes *)
| AssertionError
| NameError
| KeyError
| IndexError
| TypeError
| ValueError
| NotImplementedError.

Inductive result (A : Type) : Type :=
| Ok (a : A)
| Raise (e : pyerr).

Arguments Ok {A} a.
Arguments Raise {A} e.

Definition bind {A B} (r : result A) (k : A -> result B) : result B :=
  match r with
  | Ok a => k a
  | Raise e => Raise e
  end.

Declare Scope py_scope.
Delimit Scope py_scope with py.
Notation "x <- c ;; k" := (bind c (fun x => k))
  (at level 61, c at next level, right associativity) : py_scope.
Notation "' p <- c ;; k" := (bind c (fun x => match x with p => k end))
  (at level 61, p pattern, c at next level, right associativity) : py_scope.
Open Scope py_scope.

Definition is_ok {A} (r : result A) : bool :=
  match r with Ok _ => true | Raise _ => false end.

Definition assert (b : bool) : result unit :=
  if b then Ok tt else Raise AssertionError.

(** ** Files and the read cursor *)

Definition file := list byte.

Definition file_size (f : file) : Z := Z.of_nat (length f).

(** [f.read(n)] at cursor [cur]: the bytes that are there, at most [n]. *)
Definition f_read (f : file) (cur n : Z) : list byte :=
  firstn (Z.to_nat n) (skipn (Z.to_nat cur) f).

(** ** Binary values *)

Definition u8 (b : byte) : Z := Z.of_N (Byte.to_N b).

Definition byte_of_Z (z : Z) : byte :=
  match Byte.of_N (Z.to_N (z mod 256)) with
  | Some b => b
  | None => x00
  end.

(** Little-endian unsigned value of a byte string, and its inverse on
    [n] bytes. *)
Fixpoint le_decode (bs : list byte) : Z :=
  match bs with
  | [] => 0
  | b :: rest => u8 b + 256 * le_decode rest
  end.

Fixpoint le_encode (n : nat) (z : Z) : list byte :=
  match n with
  | O => []
  | S k => byte_of_Z z :: le_encode k (z / 256)
  end.

Definition decode_u32 (bs : list byte) : Z := le_decode bs.

Definition decode_i32 (bs : list byte) : Z :=
  let u := le_decode bs in
  if u <? 2 ^ 31 then u else u - 2 ^ 32.

(** IEEE 754 binary64 from its 64-bit pattern. *)
Definition float_of_bits (w : Z) : float :=
  (let s := Z.testbit w 63 in
   let e := Z.land (Z.shiftr w 52) 2047 in
   let m := Z.land w (2 ^ 52 - 1) in
   if e =? 0 then
     match m with
     | Zpos p => SF2Prim (S754_finite s p (-1074))
     | _ => SF2Prim (S754_zero s)
     end
   else if e =? 2047 then
     (if m =? 0 then SF2Prim (S754_infinity s) else SF2Prim S754_nan)
   else
     match m + 2 ^ 52 with
     | Zpos p => SF2Prim (S754_finite s p (e - 1075))
     | _ => SF2Prim S754_nan
     end)%Z.

Definition decode_f64 (bs : list byte) : float := float_of_bits (le_decode bs).

Definition decode_char (bs : list byte) : byte := hd x00 bs.

(** The element types of the [struct] format characters the reader uses. *)
Record dtype (A : Type) : Type := mk_dtype {
  itemsize : Z;
  decode : list byte -> A
}.

Arguments mk_dtype {A} itemsize decode.
Arguments itemsize {A} d.
Arguments decode {A} d bs.

Definition dt_i : dtype Z := mk_dtype 4 decode_i32.       (* 'i' *)
Definition dt_I : dtype Z := mk_dtype 4 decode_u32.       (* 'I' *)
Definition dt_d : dtype float := mk_dtype 8 decode_f64.   (* 'd' *)
Definition dt_c : dtype byte := mk_dtype 1 decode_char.   (* 'c' *)

(** ** Python values and dictionaries *)

Inductive pyval : Type :=
| PInt (z : Z)
| PFloat (x : float)
| PChar (b : byte)
| PInts (l : list Z)
| PFloats (l : list float)
| PChars (l : list byte)
| PArray2 (rows cols : Z) (flat : list Z).   (* a 2-d integer array, row-major *)

Definition dict := list (string * pyval).

(** [d[k] = v]: the newest binding of a key is the one in front. *)
Definition dict_set (d : dict) (k : string) (v : pyval) : dict := (k, v) :: d.

Fixpoint dict_get (d : dict) (k : string) : result pyval :=
  match d with
  | [] => Raise KeyError
  | (k', v) :: rest => if String.eqb k' k then Ok v else dict_get rest k
  end.

(** [d.update(new)], [new] listed oldest binding first. *)
Definition dict_update (d : dict) (new : list (string * pyval)) : dict :=
  fold_left (fun acc kv => dict_set acc (fst kv) (snd kv)) new d.

(** An integer-valued header field; the header fields the reader computes with
    are declared as single integers by the schema. *)
Definition get_int (d : dict) (k : string) : result Z :=
  v <- dict_get d k ;;
  match v with
  | PInt z => Ok z
  | _ => Raise TypeError
  end.

(** ** The header schema and [read_attrs] *)

Inductive fmt : Type := Fi | FI | Fd | Fc.

Definition fmt_size (t : fmt) : Z :=
  match t with Fi => 4 | FI => 4 | Fd => 8 | Fc => 1 end.

(** The value stored for an attribute of [n] items of type [t] whose items
    are the byte strings [cs]: the bare item when [n] is one, else the list. *)
Definition attr_value (t : fmt) (n : Z) (cs : list (list byte)) : pyval :=
  match t with
  | Fi => if n =? 1 then PInt (decode_i32 (hd [] cs)) else PInts (map decode_i32 cs)
  | FI => if n =? 1 then PInt (decode_u32 (hd [] cs)) else PInts (map decode_u32 cs)
  | Fd => if n =? 1 then PFloat (decode_f64 (hd [] cs)) else PFloats (map decode_f64 cs)
  | Fc => if n =? 1 then PChar (decode_char (hd [] cs)) else PChars (map decode_char cs)
  end.

(** One attribute of a header group: [(name, count, primitive type)]. *)
Definition attr := (string * Z * fmt)%type.

(** The header schema [ramses_header(hvals)] ([definitions.py], not among the
    sources) is a generator of attribute groups, each computed from the
    values read so far.  It is a parameter of the reader. *)
Definition header_schema := list (dict -> list attr).

(** ** Framed records ([yt.utilities.fortran_utils]) *)

Module fpu.

(** Modelled from the spec: [yt.utilities.fortran_utils] is not among the
    sources.  Section 6 of the specification fixes the framing: every field
    group is wrapped in a length-prefixed and length-suffixed record marker
    that is validated; a read that meets end-of-file early is fatal.  A marker
    is a 4-byte unsigned count of payload bytes, in the byte order of the
    writing machine (little-endian here). *)
Definition read_marker (f : file) (cur : Z) : result Z :=
  let bs := f_read f cur 4 in
  if Z.of_nat (length bs) =? 4 then Ok (decode_u32 bs) else Raise StructError.

(** Modelled from the spec: one framed record at [cur]: leading marker,
    payload of that many bytes, trailing marker equal to the leading one.
    Returns the payload and the cursor behind the record. *)
Definition read_record (f : file) (cur : Z) : result (list byte * Z) :=
  ss <- read_marker f cur ;;
  let payload := f_read f (cur + 4) ss in
  if negb (Z.of_nat (length payload) =? ss) then Raise StructError else
  ss2 <- read_marker f (cur + 4 + ss) ;;
  if negb (ss2 =? ss) then Raise CorruptRecord else
  Ok (payload, cur + 4 + ss + 4).

(** Modelled from the spec: [fpu.skip(f, n)] steps over [n] framed records. *)
Fixpoint skip (f : file) (cur : Z) (n : nat) : result Z :=
  match n with
  | O => Ok cur
  | S k =>
      '(_, cur1) <- read_record f cur ;;
      skip f cur1 k
  end.

Fixpoint chunks (size : nat) (count : nat) (bs : list byte) : list (list byte) :=
  match count with
  | O => []
  | S k => firstn size bs :: chunks size k (skipn size bs)
  end.

(** Modelled from the spec: [fpu.read_vector(f, t)] reads one framed record
    as a vector of [t]; the byte count must be a multiple of the item size. *)
Definition read_vector {A} (f : file) (cur : Z) (t : dtype A)
  : result (list A * Z) :=
  '(payload, cur1) <- read_record f cur ;;
  let ss := Z.of_nat (length payload) in
  if negb (ss mod itemsize t =? 0) then Raise CorruptRecord else
  let count := Z.to_nat (ss / itemsize t) in
  Ok (map (decode t) (chunks (Z.to_nat (itemsize t)) count payload), cur1).

(** Modelled from the spec: [fpu.read_attrs(f, attrs)] reads one framed
    record per attribute, whose length marker must agree with the declared
    count and type; a count of one yields the bare value, any other count a
    list.  The values are returned oldest first. *)
Fixpoint read_attrs (f : file) (cur : Z) (attrs : list attr)
  : result (list (string * pyval) * Z) :=
  match attrs with
  | [] => Ok ([], cur)
  | (a, n, t) :: rest =>
      '(payload, cur1) <- read_record f cur ;;
      let count := Z.to_nat n in
      if negb (Z.of_nat (length payload) =? Z.of_nat count * fmt_size t)
      then Raise CorruptRecord else
      let val := attr_value t n
                   (chunks (Z.to_nat (fmt_size t)) count payload) in
      '(vv, cur2) <- read_attrs f cur1 rest ;;
      Ok ((a, val) :: vv, cur2)
  end.

End fpu.


(** ** Small pieces of numpy *)

Module na.

(** [na.array(v)] for an integer scalar or a list of integers. *)
Definition array (v : pyval) : result (list Z) :=
  match v with
  | PInt z => Ok [z]
  | PInts l => Ok l
  | _ => Raise TypeError
  end.

(** [a.reshape((rows, cols))] of a flat array.  The counts of a RAMSES header
    are not negative; numpy's [-1] wildcard dimension is outside the model and
    a negative dimension is rejected. *)
Definition reshape (flat : list Z) (rows cols : Z) : result pyval :=
  if (0 <=? rows) && (0 <=? cols) && (rows * cols =? Z.of_nat (length flat))
  then Ok (PArray2 rows cols flat)
  else Raise ValueError.

(** An index into an axis of length [n]; a negative index counts from the
    end. *)
Definition norm_index (n k : Z) : result Z :=
  if (0 <=? k) && (k <? n) then Ok k
  else if (- n <=? k) && (k <? 0) then Ok (k + n)
  else Raise IndexError.

Definition nthZ (l : list Z) (i : Z) : Z := nth (Z.to_nat i) l 0.

(** [a[l, c]] *)
Definition index2 (a : pyval) (l c : Z) : result Z :=
  match a with
  | PArray2 rows cols flat =>
      l' <- norm_index rows l ;;
      c' <- norm_index cols c ;;
      Ok (nthZ flat (l' * cols + c'))
  | _ => Raise TypeError
  end.

(** [a[:, c]] *)
Definition column (a : pyval) (c : Z) : result (list Z) :=
  match a with
  | PArray2 rows cols flat =>
      c' <- norm_index cols c ;;
      Ok (map (fun r => nthZ flat (Z.of_nat r * cols + c'))
              (seq 0 (Z.to_nat rows)))
  | _ => Raise TypeError
  end.

Definition sum (l : list Z) : Z := fold_right Z.add 0 l.

End na.

(** ** [RAMSESDomainFile] *)

(** A mask is a flat boolean array, or [None]. *)
Definition mask := option (list bool).

Record RAMSESDomainFile : Type := mk_domain {
  domain_id : Z;
  amr_fn : file;                       (* the contents of the file at [amr_fn] *)
  amr_header : dict;
  amr_offset : Z;
  local_oct_count : Z;
  _last_mask : mask;
  _last_selector_id : option Z
}.

(** [for header in ramses_header(hvals): hvals.update(read_attrs(f, header))] *)
Fixpoint read_schema (f : file) (cur : Z) (schema : header_schema) (hvals : dict)
  : result (dict * Z) :=
  match schema with
  | [] => Ok (hvals, cur)
  | header :: rest =>
      '(vv, cur1) <- fpu.read_attrs f cur (header hvals) ;;
      read_schema f cur1 rest (dict_update hvals vv)
  end.

Definition _read_amr_header (schema : header_schema) (f : file) (domain_id : Z)
  : result RAMSESDomainFile :=
  '(hvals, cur0) <- read_schema f 0 schema [] ;;
  (* That's the header, now we skip a few. *)
  numbl0 <- dict_get hvals "numbl" ;;
  flat <- na.array numbl0 ;;
  nlevelmax <- get_int hvals "nlevelmax" ;;
  ncpu <- get_int hvals "ncpu" ;;
  numbl <- na.reshape flat nlevelmax ncpu ;;
  let hvals := dict_set hvals "numbl" numbl in
  cur1 <- fpu.skip f cur0 1 ;;
  nboundary <- get_int hvals "nboundary" ;;
  cur2 <- (if 0 <? nboundary then
             cur <- fpu.skip f cur1 2 ;;
             '(ngridbound, cur) <- fpu.read_vector f cur dt_i ;;
             Ok cur
           else Ok cur1) ;;
  '(free_mem, cur3) <- fpu.read_attrs f cur2 [("free_mem", 5, Fi)] ;;
  '(ordering, cur4) <- fpu.read_vector f cur3 dt_c ;;
  cur5 <- fpu.skip f cur4 4 ;;
  (* Now we're at the tree itself *)
  col <- na.column numbl (domain_id - 1) ;;
  Ok {| domain_id := domain_id;
        amr_fn := f;
        amr_header := hvals;
        amr_offset := cur5;
        local_oct_count := na.sum col;
        _last_mask := None;
        _last_selector_id := None |}.

(** ** The snapshot, the octree container and the outside world *)

Definition vec3 := (float * float * float)%type.

(** [RAMSESStaticOutput]: what the reader and the geometry handler use of it. *)
Record StaticOutput : Type := mk_pf {
  pf_ncpu : Z;                         (* [pf['ncpu']] *)
  domain_left_edge : vec3;
  domain_right_edge : vec3;
  domain_width : vec3;
  amr_file_of : Z -> file              (* the amr file of a domain id *)
}.

(** One call [oct_handler.add(owner, level, ng, pos, ind, cpu_map)].  [pos] is
    listed by rows, [cpu_map] by its eight columns. *)
Record add_call : Type := mk_add {
  add_owner : Z;
  add_level : Z;
  add_ng : Z;
  add_pos : list vec3;
  add_ind : list Z;
  add_cpu_map : list (list Z)
}.

(** [RAMSESOctreeContainer] (external): the model keeps what it was given. *)
Record RAMSESOctreeContainer : Type := mk_oct {
  oct_nx : pyval;
  oct_edges : vec3 * vec3;
  oct_allocated : list Z;              (* [allocate_domains] *)
  oct_added : list add_call            (* the [add] calls, oldest first *)
}.

Definition oct_add (oct : RAMSESOctreeContainer) (c : add_call)
  : RAMSESOctreeContainer :=
  {| oct_nx := oct_nx oct;
     oct_edges := oct_edges oct;
     oct_allocated := oct_allocated oct;
     oct_added := oct_added oct ++ [c] |}.

Inductive loglevel : Type := Debug | Info | Warning | Error.

(** What the user sees: lines of [mylog] and of [print].  [PrintRatio] is the
    line [print "TOTAL", total_octs / float(nocts)]: the quotient of a numpy
    integer by a float, which raises nothing, not even for a zero count. *)
Inductive event : Type :=
| Log (lvl : loglevel) (msg : string) (args : list Z)
| Print (label : string) (args : list Z)
| PrintRatio (label : string) (num den : Z).

(** ** [_read_amr]: streaming the grid records into the container *)

Definition range (n : Z) : list Z := map Z.of_nat (seq 0 (Z.to_nat n)).

(** [_ng(c, l)].  [ngridbound] is a local variable of [_read_amr_header]; in
    [_read_amr] the name is bound nowhere, so looking it up raises
    [NameError] before the subscript is computed. *)
Definition _ng (dom : RAMSESDomainFile) (c l : Z) : result Z :=
  ncpu <- get_int (amr_header dom) "ncpu" ;;
  if c <? ncpu then
    numbl <- dict_get (amr_header dom) "numbl" ;;
    na.index2 numbl l c
  else
    Raise NameError.

(** [na.empty((ng, k))] *)
Definition na_empty (ng : Z) : result unit :=
  if ng <? 0 then Raise ValueError else Ok tt.

(** [m[:, j] = v] into a matrix of [ng] rows: the shapes agree, or a
    one-element [v] is broadcast. *)
Definition assign_column {A} (ng : Z) (v : list A) : result (list A) :=
  if Z.of_nat (length v) =? ng then Ok v
  else match v with
       | [x] => Ok (repeat x (Z.to_nat ng))
       | _ => Raise ValueError
       end.

(** [for i in range(n): m[:, i] = fpu.read_vector(f, "I")] *)
Fixpoint read_columns (f : file) (cur : Z) (ng : Z) (n : nat)
  : result (list (list Z) * Z) :=
  match n with
  | O => Ok ([], cur)
  | S k =>
      '(v, cur1) <- fpu.read_vector f cur dt_I ;;
      col <- assign_column ng v ;;
      '(cols, cur2) <- read_columns f cur1 ng k ;;
      Ok (col :: cols, cur2)
  end.

(** [pos *= self.pf.domain_width], on the rows made of three columns. *)
Definition scale_rows (w : vec3) (x y z : list float) : list vec3 :=
  let '(w0, w1, w2) := w in
  map (fun r => let '(a, (b, c)) := r in
                (PrimFloat.mul a w0, PrimFloat.mul b w1, PrimFloat.mul c w2))
      (combine x (combine y z)).

(** What one pass of the loop body reads. *)
Record group : Type := mk_group {
  g_ind : list Z;
  g_pos : list vec3;
  g_cpu_map : list (list Z)
}.

Definition read_group (f : file) (cur : Z) (ng : Z) (w : vec3)
  : result (group * Z) :=
  '(ind, cur) <- fpu.read_vector f cur dt_I ;;
  cur <- fpu.skip f cur 2 ;;
  _ <- na_empty ng ;;
  '(v, cur) <- fpu.read_vector f cur dt_d ;;
  x <- assign_column ng v ;;
  '(v, cur) <- fpu.read_vector f cur dt_d ;;
  y <- assign_column ng v ;;
  '(v, cur) <- fpu.read_vector f cur dt_d ;;
  z <- assign_column ng v ;;
  let pos := scale_rows w x y z in
  '(parents, cur) <- fpu.read_vector f cur dt_I ;;
  cur <- fpu.skip f cur 6 ;;
  '(children, cur) <- read_columns f cur ng 8 ;;
  '(cpu_map, cur) <- read_columns f cur ng 8 ;;
  '(rmap, cur) <- read_columns f cur ng 8 ;;
  Ok ({| g_ind := ind; g_pos := pos; g_cpu_map := cpu_map |}, cur).

(** The body of the inner loop, for the owners [cpus] still to visit.  The
    container is a shared object: what was added before an exception stays
    added. *)
Fixpoint cpu_loop (dom : RAMSESDomainFile) (pf : StaticOutput) (level : Z)
    (cpus : list Z) (cur : Z) (oct : RAMSESOctreeContainer)
  : RAMSESOctreeContainer * result Z :=
  match cpus with
  | [] => (oct, Ok cur)
  | cpu :: rest =>
      match _ng dom cpu level with
      | Raise e => (oct, Raise e)
      | Ok ng =>
          if ng =? 0 then cpu_loop dom pf level rest cur oct else
          match read_group (amr_fn dom) cur ng (domain_width pf) with
          | Raise e => (oct, Raise e)
          | Ok (g, cur1) =>
              (* We don't want duplicate grids. *)
              if domain_id dom <=? cpu + 1 then
                match assert (Z.of_nat (length (g_pos g)) =? ng) with
                | Raise e => (oct, Raise e)
                | Ok _ =>
                    cpu_loop dom pf level rest cur1
                      (oct_add oct (mk_add (cpu + 1) level ng
                                           (g_pos g) (g_ind g) (g_cpu_map g)))
                end
              else cpu_loop dom pf level rest cur1 oct
          end
      end
  end.

Fixpoint level_loop (dom : RAMSESDomainFile) (pf : StaticOutput)
    (levels : list Z) (cur : Z) (oct : RAMSESOctreeContainer)
  : RAMSESOctreeContainer * result Z :=
  match levels with
  | [] => (oct, Ok cur)
  | level :: rest =>
      match (nboundary <- get_int (amr_header dom) "nboundary" ;;
             ncpu <- get_int (amr_header dom) "ncpu" ;;
             Ok (nboundary + ncpu)) with
      | Raise e => (oct, Raise e)
      | Ok n =>
          match cpu_loop dom pf level (range n) cur oct with
          | (oct1, Raise e) => (oct1, Raise e)
          | (oct1, Ok cur1) => level_loop dom pf rest cur1 oct1
          end
      end
  end.

Record world : Type := mk_world {
  oct_handler : RAMSESOctreeContainer;
  output : list event
}.

Definition emit (w : world) (e : event) : world :=
  {| oct_handler := oct_handler w; output := output w ++ [e] |}.

Definition set_oct (w : world) (oct : RAMSESOctreeContainer) : world :=
  {| oct_handler := oct; output := output w |}.

Definition _read_amr (dom : RAMSESDomainFile) (pf : StaticOutput) (w : world)
  : world * result unit :=
  (* f = open(self.amr_fn, "rb"); f.seek(self.amr_offset) *)
  let w := emit w (Log Debug "Reading domain AMR % 4i (%0.3e)"
                       [domain_id dom; local_oct_count dom]) in
  match get_int (amr_header dom) "nlevelmax" with
  | Raise e => (w, Raise e)
  | Ok nlevelmax =>
      match level_loop dom pf (range nlevelmax) (amr_offset dom) (oct_handler w) with
      | (oct1, Raise e) => (set_oct w oct1, Raise e)
      | (oct1, Ok cur) =>
          let end_ := file_size (amr_fn dom) in
          (set_oct w oct1, assert (cur =? end_))
      end
  end.

(** ** [select] and [count]: the single-slot mask cache *)

(** A selector (external): an object with an identity, [id(selector)], and a
    mask computation [fill_mask(domain)], taken to return a mask (or [None])
    and to leave the reader as it is. *)
Record selector : Type := mk_selector {
  sel_id : Z;
  fill_mask : RAMSESDomainFile -> mask
}.

Definition set_cache (dom : RAMSESDomainFile) (m : mask) (i : option Z)
  : RAMSESDomainFile :=
  {| domain_id := domain_id dom;
     amr_fn := amr_fn dom;
     amr_header := amr_header dom;
     amr_offset := amr_offset dom;
     local_oct_count := local_oct_count dom;
     _last_mask := m;
     _last_selector_id := i |}.

(** [id(selector) == self._last_selector_id]; the slot holds [None] or an
    identity. *)
Definition same_id (s : selector) (slot : option Z) : bool :=
  match slot with
  | Some i => sel_id s =? i
  | None => false
  end.

(** The state of a reader under queries: the reader itself and, to observe
    the calls of [fill_mask], the identities of the selectors whose
    [fill_mask] ran, oldest first. *)
Record reader : Type := mk_reader {
  r_dom : RAMSESDomainFile;
  r_filled : list Z
}.

Definition select (s : selector) (st : reader) : mask * reader :=
  if same_id s (_last_selector_id (r_dom st)) then
    (_last_mask (r_dom st), st)
  else
    let m := fill_mask s (r_dom st) in
    let dom1 := set_cache (r_dom st) m (_last_selector_id (r_dom st)) in
    let dom2 := set_cache dom1 (_last_mask dom1) (Some (sel_id s)) in
    (_last_mask dom2, {| r_dom := dom2; r_filled := r_filled st ++ [sel_id s] |}).

(** [mask.sum()] *)
Definition popcount (m : list bool) : Z :=
  fold_right (fun (b : bool) acc => (if b then 1 else 0) + acc) 0 m.

(** The population count of a mask, [None] counting as 0. *)
Definition mask_count (m : mask) : Z :=
  match m with
  | None => 0
  | Some l => popcount l
  end.

(** [count] calls itself; [fuel] bounds the depth of the calls. *)
Fixpoint count (fuel : nat) (s : selector) (st : reader) : option (Z * reader) :=
  match fuel with
  | O => None
  | S k =>
      if same_id s (_last_selector_id (r_dom st)) then
        match _last_mask (r_dom st) with
        | None => Some (0, st)
        | Some m => Some (popcount m, st)
        end
      else
        let '(_, st1) := select s st in
        count k s st1
  end.

(** ** [RAMSESGeometryHandler] *)

Record RAMSESDomainSubset : Type := mk_subset {
  sub_indices : list Z;
  sub_domain : RAMSESDomainFile
}.

(** [YTDataChunk(dobj, chunk_type, objs, data_size)] (external).  [objs] is
    whatever it was given, possibly [None]. *)
Record YTDataChunk : Type := mk_chunk {
  chunk_type : string;
  objs : option (list RAMSESDomainSubset);
  data_size : Z
}.

(** The data object of a query (external): its selector and the attributes
    the handler reads and writes. *)
Record data_object : Type := mk_dobj {
  dobj_selector : Z;
  _chunk_info : option (list RAMSESDomainSubset);
  _current_chunk : option YTDataChunk;
  size : Z
}.

Record RAMSESGeometryHandler : Type := mk_handler {
  domains : list RAMSESDomainFile;
  num_grids : Z;
  h_oct_handler : RAMSESOctreeContainer
}.

(** [[RAMSESDomainFile(pf, i + 1) for i in range(pf['ncpu'])]] *)
Fixpoint build_domains (schema : header_schema) (pf : StaticOutput) (ids : list Z)
  : result (list RAMSESDomainFile) :=
  match ids with
  | [] => Ok []
  | i :: rest =>
      dom <- _read_amr_header schema (amr_file_of pf (i + 1)) (i + 1) ;;
      doms <- build_domains schema pf rest ;;
      Ok (dom :: doms)
  end.

(** [for dom in self.domains: dom._read_amr(self.oct_handler)] *)
Fixpoint read_all (pf : StaticOutput) (doms : list RAMSESDomainFile) (w : world)
  : world * result unit :=
  match doms with
  | [] => (w, Ok tt)
  | dom :: rest =>
      match _read_amr dom pf w with
      | (w1, Raise e) => (w1, Raise e)
      | (w1, Ok _) => read_all pf rest w1
      end
  end.

(** [_initialize_oct_handler].  [nocts] is the oct count the container
    reports (external).  The result carries the lines written so far. *)
Definition _initialize_oct_handler (schema : header_schema)
    (nocts : RAMSESOctreeContainer -> Z) (pf : StaticOutput)
  : list event * result RAMSESGeometryHandler :=
  match build_domains schema pf (range (pf_ncpu pf)) with
  | Raise e => ([], Raise e)
  | Ok doms =>
      let total_octs := na.sum (map local_oct_count doms) in
      match (match doms with
             | [] => Raise IndexError
             | d0 :: _ => dict_get (amr_header d0) "nx"
             end) with
      | Raise e => ([], Raise e)
      | Ok nx =>
          let oct := {| oct_nx := nx;
                        oct_edges := (domain_left_edge pf, domain_right_edge pf);
                        oct_allocated := [];
                        oct_added := [] |} in
          let w := {| oct_handler := oct; output := [] |} in
          let w := emit w (Log Debug "Allocating %s octs" [total_octs]) in
          let oct := {| oct_nx := oct_nx (oct_handler w);
                        oct_edges := oct_edges (oct_handler w);
                        oct_allocated := map local_oct_count doms;
                        oct_added := oct_added (oct_handler w) |} in
          match read_all pf doms (set_oct w oct) with
          | (w1, Raise e) => (output w1, Raise e)
          | (w1, Ok _) =>
              (* assert(total_octs == self.oct_handler.nocts) is commented out *)
              let w2 := emit w1 (Print "TOTAL" [total_octs; nocts (oct_handler w1)]) in
              let w3 := emit w2 (PrintRatio "TOTAL" total_octs (nocts (oct_handler w1))) in
              (output w3,
               Ok {| domains := doms;
                     num_grids := total_octs;
                     h_oct_handler := oct_handler w3 |})
          end
      end
  end.

(** [_chunk_all]: a generator; the list of what it yields. *)
Definition _chunk_all (dobj : data_object) : list YTDataChunk :=
  let oobjs := match _current_chunk dobj with
               | Some c => objs c
               | None => _chunk_info dobj
               end in
  [ {| chunk_type := "all"; objs := oobjs; data_size := size dobj |} ].

Definition _chunk_spatial (dobj : data_object) (ngz : Z)
  : result (option (list YTDataChunk)) :=
  Raise NotImplementedError.

(** [_chunk_io]: the body is [pass]; the call returns [None]. *)
Definition _chunk_io (dobj : data_object) : result (option (list YTDataChunk)) :=
  Ok None.

(** The container's queries (external): [selector.select_octs(oct_handler)],
    [oct_handler.count(mask, split = True)] (one index array per domain) and
    [oct_handler.count_cells(selector, mask)]. *)
Record oct_queries : Type := mk_queries {
  select_octs : Z -> RAMSESOctreeContainer -> list bool;
  count_split : RAMSESOctreeContainer -> list bool -> list (list Z);
  count_cells : RAMSESOctreeContainer -> Z -> list bool -> Z
}.

(** [[RAMSESDomainSubset(dom, indices[dom.domain_id - 1]) for dom in
    self.domains if count[dom.domain_id - 1] > 0]] *)
Fixpoint domain_subsets (doms : list RAMSESDomainFile) (indices : list (list Z))
  : result (list RAMSESDomainSubset) :=
  match doms with
  | [] => Ok []
  | dom :: rest =>
      i <- na.norm_index (Z.of_nat (length indices)) (domain_id dom - 1) ;;
      let ind := nth (Z.to_nat i) indices [] in
      subs <- domain_subsets rest indices ;;
      if 0 <? Z.of_nat (length ind)
      then Ok ({| sub_indices := ind; sub_domain := dom |} :: subs)
      else Ok subs
  end.

Definition _count_selection (q : oct_queries) (h : RAMSESGeometryHandler)
    (dobj : data_object) (mask : list bool) (oct_indices : list (list Z))
  : result Z :=
  _ <- domain_subsets (domains h) oct_indices ;;
  Ok (count_cells q (h_oct_handler h) (dobj_selector dobj) mask).

Definition _identify_base_chunk (q : oct_queries) (h : RAMSESGeometryHandler)
    (dobj : data_object) : result data_object :=
  dobj1 <- match _chunk_info dobj with
           | None =>
               let mask := select_octs q (dobj_selector dobj) (h_oct_handler h) in
               let indices := count_split q (h_oct_handler h) mask in
               doms <- domain_subsets (domains h) indices ;;
               let dobj1 := {| dobj_selector := dobj_selector dobj;
                               _chunk_info := Some doms;
                               _current_chunk := _current_chunk dobj;
                               size := size dobj |} in
               sz <- _count_selection q h dobj1 mask indices ;;
               Ok {| dobj_selector := dobj_selector dobj1;
                     _chunk_info := _chunk_info dobj1;
                     _current_chunk := _current_chunk dobj1;
                     size := sz |}
           | Some _ => Ok dobj
           end ;;
  match _chunk_all dobj1 with
  | c :: _ => Ok {| dobj_selector := dobj_selector dobj1;
                    _chunk_info := _chunk_info dobj1;
                    _current_chunk := Some c;
                    size := size dobj1 |}
  | [] => Raise IndexError
  end.

(** ** The file layout, as a writer produces it *)

Module layout.

(** A framed record: the payload between two equal length markers. *)
Definition frame (payload : list byte) : list byte :=
  le_encode 4 (Z.of_nat (length payload)) ++ payload
    ++ le_encode 4 (Z.of_nat (length payload)).

Definition frames (payloads : list (list byte)) : list byte :=
  concat (map frame payloads).

(** A vector of 32-bit integers, and of doubles given by their bit
    patterns. *)
Definition ints (l : list Z) : list byte := concat (map (le_encode 4) l).
Definition doubles (l : list Z) : list byte := concat (map (le_encode 8) l).

(** The payloads of the records of one [(level, owner)] group, in file
    order. *)
Record raw_group : Type := mk_raw {
  rg_ind : list byte;
  rg_skip2 : list (list byte);
  rg_x : list byte;
  rg_y : list byte;
  rg_z : list byte;
  rg_parents : list byte;
  rg_skip6 : list (list byte);
  rg_children : list (list byte);
  rg_cpu_map : list (list byte);
  rg_rmap : list (list byte)
}.

Definition encode_group (g : raw_group) : list byte :=
  frame (rg_ind g) ++ frames (rg_skip2 g)
    ++ frame (rg_x g) ++ frame (rg_y g) ++ frame (rg_z g)
    ++ frame (rg_parents g) ++ frames (rg_skip6 g)
    ++ frames (rg_children g) ++ frames (rg_cpu_map g) ++ frames (rg_rmap g).

Definition fits (p : list byte) : Prop := Z.of_nat (length p) < 2 ^ 32.

(** The records of a group of [ng] grids have the sizes the format fixes. *)
Record wf_group (ng : Z) (g : raw_group) : Prop := mk_wf_group {
  wf_ng : 0 < ng;
  wf_ind : fits (rg_ind g) /\ Z.of_nat (length (rg_ind g)) mod 4 = 0;
  wf_skip2 : length (rg_skip2 g) = 2%nat /\ Forall fits (rg_skip2 g);
  wf_x : fits (rg_x g) /\ Z.of_nat (length (rg_x g)) = 8 * ng;
  wf_y : fits (rg_y g) /\ Z.of_nat (length (rg_y g)) = 8 * ng;
  wf_z : fits (rg_z g) /\ Z.of_nat (length (rg_z g)) = 8 * ng;
  wf_parents : fits (rg_parents g) /\ Z.of_nat (length (rg_parents g)) mod 4 = 0;
  wf_skip6 : length (rg_skip6 g) = 6%nat /\ Forall fits (rg_skip6 g);
  wf_children : length (rg_children g) = 8%nat /\
                Forall (fun p => fits p /\ Z.of_nat (length p) = 4 * ng) (rg_children g);
  wf_cpu_map : length (rg_cpu_map g) = 8%nat /\
               Forall (fun p => fits p /\ Z.of_nat (length p) = 4 * ng) (rg_cpu_map g);
  wf_rmap : length (rg_rmap g) = 8%nat /\
            Forall (fun p => fits p /\ Z.of_nat (length p) = 4 * ng) (rg_rmap g)
}.

(** The grid records of a file: for every level, for every owner with a
    non-zero grid count, the group of that pair. *)
Definition body (ngrid : Z -> Z -> Z) (G : Z -> Z -> raw_group)
    (levels owners : list Z) : list byte :=
  concat (map (fun l =>
    concat (map (fun c =>
      if ngrid l c =? 0 then [] else encode_group (G l c)) owners)) levels).

End layout.

(** What the reader makes of the payloads of a group. *)
Definition decode_vector {A} (t : dtype A) (payload : list byte) : list A :=
  map (decode t)
      (fpu.chunks (Z.to_nat (itemsize t))
                  (Z.to_nat (Z.of_nat (length payload) / itemsize t)) payload).

Definition decode_group (w : vec3) (g : layout.raw_group) : group :=
  {| g_ind := decode_vector dt_I (layout.rg_ind g);
     g_pos := scale_rows w (decode_vector dt_d (layout.rg_x g))
                           (decode_vector dt_d (layout.rg_y g))
                           (decode_vector dt_d (layout.rg_z g));
     g_cpu_map := map (decode_vector dt_I) (layout.rg_cpu_map g) |}.

(** ** The groups a reader reads, whatever its domain id *)

Record read_rec : Type := mk_read {
  rr_level : Z;
  rr_cpu : Z;
  rr_ng : Z;
  rr_cur : Z;                          (* where the group starts *)
  rr_group : group
}.

Fixpoint scan_cpus (dom : RAMSESDomainFile) (pf : StaticOutput) (level : Z)
    (cpus : list Z) (cur : Z) : list read_rec * result Z :=
  match cpus with
  | [] => ([], Ok cur)
  | cpu :: rest =>
      match _ng dom cpu level with
      | Raise e => ([], Raise e)
      | Ok ng =>
          if ng =? 0 then scan_cpus dom pf level rest cur else
          match read_group (amr_fn dom) cur ng (domain_width pf) with
          | Raise e => ([], Raise e)
          | Ok (g, cur1) =>
              let '(rs, r) := scan_cpus dom pf level rest cur1 in
              (mk_read level cpu ng cur g :: rs, r)
          end
      end
  end.

Fixpoint scan_levels (dom : RAMSESDomainFile) (pf : StaticOutput)
    (levels : list Z) (cur : Z) : list read_rec * result Z :=
  match levels with
  | [] => ([], Ok cur)
  | level :: rest =>
      match (nboundary <- get_int (amr_header dom) "nboundary" ;;
             ncpu <- get_int (amr_header dom) "ncpu" ;;
             Ok (nboundary + ncpu)) with
      | Raise e => ([], Raise e)
      | Ok n =>
          match scan_cpus dom pf level (range n) cur with
          | (rs, Raise e) => (rs, Raise e)
          | (rs, Ok cur1) =>
              let '(rs', r) := scan_levels dom pf rest cur1 in
              (rs ++ rs', r)
          end
      end
  end.

(** The groups [_read_amr] reads from the file of [dom]. *)
Definition groups_read (dom : RAMSESDomainFile) (pf : StaticOutput)
  : list read_rec :=
  match get_int (amr_header dom) "nlevelmax" with
  | Raise _ => []
  | Ok nlevelmax =>
      fst (scan_levels dom pf (range nlevelmax) (amr_offset dom))
  end.

Definition submission (r : read_rec) : add_call :=
  mk_add (rr_cpu r + 1) (rr_level r) (rr_ng r)
         (g_pos (rr_group r)) (g_ind (rr_group r)) (g_cpu_map (rr_group r)).

Definition accepted (d : Z) (r : read_rec) : bool := d <=? rr_cpu r + 1.

(** ** Example files *)

Module examples.

Definition getz (hv : dict) (k : string) : Z :=
  match get_int hv k with Ok z => z | Raise _ => 0 end.

(** A header schema of the shape the specification describes: a first group
    of scalars, then the per-(level, domain) grid counts, whose length
    depends on the scalars. *)
Definition schema : header_schema :=
  [ (fun _ => [("ncpu", 1, Fi); ("ndim", 1, Fi); ("nx", 3, Fi);
               ("nlevelmax", 1, Fi); ("nboundary", 1, Fi);
               ("boxlen", 1, Fd)]);
    (fun hv => [("numbl", getz hv "nlevelmax" * getz hv "ncpu", Fi)]) ].

Definition half : Z := 4602678819172646912.      (* 0.5 *)
Definition quarter : Z := 4598175219545276416.   (* 0.25 *)

(** The bytes of a header: the schema groups, one record to skip, the
    boundary records when there are boundary domains, [free_mem], [ordering],
    four records to skip. *)
Definition header_bytes (ncpu nlevelmax nboundary : Z) (numbl ngridbound : list Z)
  : list byte :=
  layout.frames [layout.ints [ncpu]; layout.ints [3]; layout.ints [1; 1; 1];
                 layout.ints [nlevelmax]; layout.ints [nboundary];
                 layout.doubles [half]; layout.ints numbl]
  ++ layout.frame []
  ++ (if 0 <? nboundary
      then layout.frames [[]; []; layout.ints ngridbound] else [])
  ++ layout.frame (layout.ints [0; 0; 0; 0; 0])
  ++ layout.frame [x68; x69; x6c; x62; x65; x72; x74]
  ++ layout.frames [[]; []; []; []].

(** A group of one grid. *)
Definition one_grid (ind owner : Z) (x y z : Z) : layout.raw_group :=
  {| layout.rg_ind := layout.ints [ind];
     layout.rg_skip2 := [[]; []];
     layout.rg_x := layout.doubles [x];
     layout.rg_y := layout.doubles [y];
     layout.rg_z := layout.doubles [z];
     layout.rg_parents := layout.ints [0];
     layout.rg_skip6 := [[]; []; []; []; []; []];
     layout.rg_children := repeat (layout.ints [0]) 8;
     layout.rg_cpu_map := repeat (layout.ints [owner]) 8;
     layout.rg_rmap := repeat (layout.ints [0]) 8 |}.

(** Two domains, one level, no boundary domain.  Each file holds the grid of
    its own domain and a replica of the other domain's grid. *)
Definition groups2 (l c : Z) : layout.raw_group :=
  if c =? 0 then one_grid 1 1 half half half
  else one_grid 2 2 quarter half quarter.

Definition file2 : file :=
  header_bytes 2 1 0 [1; 1] []
  ++ layout.body (fun _ _ => 1) groups2 [0] [0; 1].

Definition pf2 : StaticOutput :=
  {| pf_ncpu := 2;
     domain_left_edge := (1, 1, 1)%float;
     domain_right_edge := (3, 5, 9)%float;
     domain_width := (2, 4, 8)%float;
     amr_file_of := fun _ => file2 |}.

(** One domain, one level, one boundary domain owning one grid. *)
Definition file_boundary : file :=
  header_bytes 1 1 1 [1] [1]
  ++ layout.body (fun _ _ => 1) groups2 [0] [0; 1].

Definition pf_boundary : StaticOutput :=
  {| pf_ncpu := 1;
     domain_left_edge := (0, 0, 0)%float;
     domain_right_edge := (1, 1, 1)%float;
     domain_width := (1, 1, 1)%float;
     amr_file_of := fun _ => file_boundary |}.

Definition empty_oct : RAMSESOctreeContainer :=
  {| oct_nx := PInts [1; 1; 1];
     oct_edges := ((0, 0, 0)%float, (1, 1, 1)%float);
     oct_allocated := [];
     oct_added := [] |}.

Definition world0 : world := {| oct_handler := empty_oct; output := [] |}.

(** A reader with an empty cache, and two selectors. *)
Definition parsed (f : file) (d : Z) : RAMSESDomainFile :=
  match _read_amr_header schema f d with
  | Ok dom => dom
  | Raise _ => mk_domain d f [] 0 0 None None
  end.

Definition dom2_1 : RAMSESDomainFile := parsed file2 1.
Definition dom2_2 : RAMSESDomainFile := parsed file2 2.
Definition dom_boundary : RAMSESDomainFile := parsed file_boundary 1.

Definition reader0 : reader := {| r_dom := dom2_1; r_filled := [] |}.

Definition sel_a : selector :=
  {| sel_id := 11; fill_mask := fun _ => Some [true; false; true] |}.
Definition sel_b : selector :=
  {| sel_id := 22; fill_mask := fun _ => None |}.

(** A stub container that counts every oct it is given. *)
Definition count_added (oct : RAMSESOctreeContainer) : Z :=
  na.sum (map add_ng (oct_added oct)).

Definition dobj0 : data_object :=
  {| dobj_selector := 11; _chunk_info := None; _current_chunk := None; size := 0 |}.

(** Stub queries: every oct is selected, eight cells per oct. *)
Definition queries0 : oct_queries :=
  {| select_octs := fun _ oct => repeat true (Z.to_nat (count_added oct));
     count_split := fun oct _ => map (fun a => add_ind a) (oct_added oct);
     count_cells := fun _ _ m => 8 * popcount m |}.

(** The initialization of the two-domain snapshot with the counting stub,
    and the handler it builds. *)
Definition run2 : list event * result RAMSESGeometryHandler :=
  _initialize_oct_handler schema count_added pf2.

Definition handler2 : RAMSESGeometryHandler :=
  match snd run2 with
  | Ok h => h
  | Raise _ => mk_handler [] 0 empty_oct
  end.

(** The two-domain snapshot with another left edge and the same width. *)
Definition pf2_shifted : StaticOutput :=
  {| pf_ncpu := 2;
     domain_left_edge := (0, 0, 0)%float;
     domain_right_edge := (2, 4, 8)%float;
     domain_width := (2, 4, 8)%float;
     amr_file_of := fun _ => file2 |}.

(** The two-domain file cut short by one byte, and one byte too long. *)
Definition file2_truncated : file := removelast file2.
Definition file2_extended : file := file2 ++ [x00].

End examples.

(** ** The statements of the specification, for comparison *)

(** The grid count as the specification words it: from [numbl] for a real
    domain, from [ngridbound] at [owner_index - ncpu + nboundary * level] for
    a boundary domain. *)
Definition grid_count_spec (ncpu nboundary : Z) (numbl : pyval)
    (ngridbound : list Z) (owner_index level : Z) : result Z :=
  if owner_index <? ncpu then na.index2 numbl level owner_index
  else Ok (na.nthZ ngridbound (owner_index - ncpu + nboundary * level)).

(** The same count as a number, for laying out a file. *)
Definition ngrid (ncpu nboundary : Z) (flat ngridbound : list Z) (l c : Z) : Z :=
  if c <? ncpu then na.nthZ flat (l * ncpu + c)
  else na.nthZ ngridbound (c - ncpu + nboundary * l).

(** A domain file whose record layout matches its header: behind
    [amr_offset] lie, level by level and owner by owner, the groups of the
    pairs with a non-zero grid count, and nothing else. *)
Record well_formed (dom : RAMSESDomainFile) (ncpu nlevelmax nboundary : Z)
    (flat ngridbound : list Z) (G : Z -> Z -> layout.raw_group) : Prop :=
  mk_well_formed {
  wf_ncpu : get_int (amr_header dom) "ncpu" = Ok ncpu;
  wf_nlevelmax : get_int (amr_header dom) "nlevelmax" = Ok nlevelmax;
  wf_nboundary : get_int (amr_header dom) "nboundary" = Ok nboundary;
  wf_numbl : dict_get (amr_header dom) "numbl" = Ok (PArray2 nlevelmax ncpu flat);
  wf_dims : 0 <= nlevelmax /\ 0 <= ncpu /\ 0 <= nboundary;
  wf_offset : 0 <= amr_offset dom <= file_size (amr_fn dom);
  wf_body :
    skipn (Z.to_nat (amr_offset dom)) (amr_fn dom) =
    layout.body (ngrid ncpu nboundary flat ngridbound) G
                (range nlevelmax) (range (nboundary + ncpu));
  wf_groups : forall l c,
    0 <= l < nlevelmax -> 0 <= c < nboundary + ncpu ->
    ngrid ncpu nboundary flat ngridbound l c <> 0 ->
    layout.wf_group (ngrid ncpu nboundary flat ngridbound l c) (G l c)
}.

Arguments wf_ncpu {dom ncpu nlevelmax nboundary flat ngridbound G} w.
Arguments wf_nlevelmax {dom ncpu nlevelmax nboundary flat ngridbound G} w.
Arguments wf_nboundary {dom ncpu nlevelmax nboundary flat ngridbound G} w.
Arguments wf_numbl {dom ncpu nlevelmax nboundary flat ngridbound G} w.
Arguments wf_dims {dom ncpu nlevelmax nboundary flat ngridbound G} w.
Arguments wf_offset {dom ncpu nlevelmax nboundary flat ngridbound G} w.
Arguments wf_body {dom ncpu nlevelmax nboundary flat ngridbound G} w.
Arguments wf_groups {dom ncpu nlevelmax nboundary flat ngridbound G} w l c.

(** The submissions a well-formed file calls for, read by domain [d]. *)
Definition expected_adds (d : Z) (w : vec3) (n : Z -> Z -> Z)
    (G : Z -> Z -> layout.raw_group) (levels owners : list Z) : list add_call :=
  flat_map (fun l =>
    flat_map (fun c =>
      if n l c =? 0 then []
      else if d <=? c + 1 then
        let g := decode_group w (G l c) in
        [mk_add (c + 1) l (n l c) (g_pos g) (g_ind g) (g_cpu_map g)]
      else []) owners) levels.

(** A line at warning level. *)
Definition is_warning (e : event) : bool :=
  match e with
  | Log Warning _ _ => true
  | _ => false
  end.

Definition is_debug (e : event) : bool :=
  match e with
  | Log Debug _ _ => true
  | _ => false
  end.

(** "Whenever the sum of the local oct counts disagrees with the count the
    container reports, the mismatch is surfaced as a warning." *)
Definition mismatch_is_warned (schema : header_schema)
    (nocts : RAMSESOctreeContainer -> Z) (pf : StaticOutput) : Prop :=
  forall evs h,
    _initialize_oct_handler schema nocts pf = (evs, Ok h) ->
    num_grids h <> nocts (h_oct_handler h) ->
    existsb is_warning evs = true.

(** The [i]-th component of a vector read for a column of [ng] rows; a
    one-element vector is broadcast. *)
Definition component (ng : Z) (v : list float) (i : nat) : float :=
  nth (if Z.of_nat (length v) =? ng then i else O) v 0%float.


(** The bytes of [f] from [cur] on are exactly [bs]. *)
Definition tail_at (f : file) (cur : Z) (bs : list byte) : Prop :=
  0 <= cur <= file_size f /\ skipn (Z.to_nat cur) f = bs.

(** Stepping over [k] framed records by their leading markers alone. *)
Fixpoint after_records (f : file) (cur : Z) (k : nat) : option Z :=
  match k with
  | O => Some cur
  | S k' =>
      match fpu.read_marker f cur with
      | Ok ss => after_records f (cur + 4 + ss + 4) k'
      | Raise _ => None
      end
  end.

(** The size of a framed record with payload [p]. *)
Definition frame_size (p : list byte) : Z := 8 + Z.of_nat (length p).

(** The size of a run of framed records. *)
Definition frames_size (ps : list (list byte)) : Z :=
  fold_right (fun p acc => frame_size p + acc) 0 ps.

(** The size of the records of a group. *)
Definition group_size (g : layout.raw_group) : Z :=
  frame_size (layout.rg_ind g) + frames_size (layout.rg_skip2 g)
  + frame_size (layout.rg_x g) + frame_size (layout.rg_y g)
  + frame_size (layout.rg_z g)
  + frame_size (layout.rg_parents g) + frames_size (layout.rg_skip6 g)
  + frames_size (layout.rg_children g) + frames_size (layout.rg_cpu_map g)
  + frames_size (layout.rg_rmap g).

(** The container after the submissions [l], oldest first. *)
Definition oct_add_all (oct : RAMSESOctreeContainer) (l : list add_call)
  : RAMSESOctreeContainer :=
  {| oct_nx := oct_nx oct;
     oct_edges := oct_edges oct;
     oct_allocated := oct_allocated oct;
     oct_added := oct_added oct ++ l |}.

(** The positions of a group that was read at [rr_cur r] are the three
    double vectors found there, scaled component by component. *)
Definition positions_scaled (f : file) (w : vec3) (r : read_rec) : Prop :=
  exists ind c1 c2 vx c3 vy c4 vz c5,
    fpu.read_vector f (rr_cur r) dt_I = Ok (ind, c1)
    /\ fpu.skip f c1 2 = Ok c2
    /\ fpu.read_vector f c2 dt_d = Ok (vx, c3)
    /\ fpu.read_vector f c3 dt_d = Ok (vy, c4)
    /\ fpu.read_vector f c4 dt_d = Ok (vz, c5)
    /\ Z.of_nat (length (g_pos (rr_group r))) = rr_ng r
    /\ forall i, (i < Z.to_nat (rr_ng r))%nat ->
         nth_error (g_pos (rr_group r)) i =
         Some (PrimFloat.mul (component (rr_ng r) vx i) (fst (fst w)),
               PrimFloat.mul (component (rr_ng r) vy i) (snd (fst w)),
               PrimFloat.mul (component (rr_ng r) vz i) (snd w)).


(** The rows [(x[i] * w0, y[i] * w1, z[i] * w2)], [i < ng], of three
    vectors and a width [w = (w0, w1, w2)]. *)
Definition scaled_rows (w : vec3) (ng : Z) (x y z : list float) : list vec3 :=
  map (fun i => (PrimFloat.mul (nth i x 0%float) (fst (fst w)),
                 PrimFloat.mul (nth i y 0%float) (snd (fst w)),
                 PrimFloat.mul (nth i z 0%float) (snd w)))
      (seq 0 (Z.to_nat ng)).

(** The position matrices a well-formed file calls for, read by domain
    [d]: for every accepted group, in file order, the doubles of its three
    coordinate records scaled by the width. *)
Definition expected_positions (d : Z) (w : vec3) (n : Z -> Z -> Z)
    (G : Z -> Z -> layout.raw_group) (levels owners : list Z)
  : list (list vec3) :=
  flat_map (fun l =>
    flat_map (fun c =>
      if n l c =? 0 then []
      else if d <=? c + 1 then
        [scaled_rows w (n l c)
           (decode_vector dt_d (layout.rg_x (G l c)))
           (decode_vector dt_d (layout.rg_y (G l c)))
           (decode_vector dt_d (layout.rg_z (G l c)))]
      else []) owners) levels.


(** ** Further definitions *)

(** The reader with the same parsed header over another file content. *)
Definition with_file (dom : RAMSESDomainFile) (f : file) : RAMSESDomainFile :=
  {| domain_id := domain_id dom;
     amr_fn := f;
     amr_header := amr_header dom;
     amr_offset := amr_offset dom;
     local_oct_count := local_oct_count dom;
     _last_mask := _last_mask dom;
     _last_selector_id := _last_selector_id dom |}.


(** What holds of every submission of the reader [dom]: a positive count
    taken from [numbl], positions and owner map of that many rows, eight
    owner columns, an owner that is a real domain not below the reader's
    own. *)
Definition submission_ok (dom : RAMSESDomainFile) (a : add_call) : Prop :=
  0 < add_ng a
  /\ Z.of_nat (length (add_pos a)) = add_ng a
  /\ length (add_cpu_map a) = 8%nat
  /\ Forall (fun col => Z.of_nat (length col) = add_ng a) (add_cpu_map a)
  /\ domain_id dom <= add_owner a
  /\ exists ncpu rows cols flat,
       get_int (amr_header dom) "ncpu" = Ok ncpu
       /\ dict_get (amr_header dom) "numbl" = Ok (PArray2 rows cols flat)
       /\ 1 <= add_owner a <= ncpu /\ add_owner a <= cols
       /\ 0 <= add_level a < rows
       /\ add_ng a = na.nthZ flat (add_level a * cols + (add_owner a - 1)).

(** The grid count [_ng] as a number, 0 where the lookup fails. *)
Definition ngz (dom : RAMSESDomainFile) (c l : Z) : Z :=
  match _ng dom c l with
  | Ok n => n
  | Raise _ => 0
  end.


(** A line written with [print]. *)
Definition is_print (e : event) : bool :=
  match e with
  | Print _ _ | PrintRatio _ _ _ => true
  | Log _ _ _ => false
  end.

(** The debug line of [_read_amr] for a reader. *)
Definition reading_line (dom : RAMSESDomainFile) : event :=
  Log Debug "Reading domain AMR % 4i (%0.3e)" [domain_id dom; local_oct_count dom].

(** What the reader [dom] submits: its accepted groups, in reading order. *)
Definition submissions_of (pf : StaticOutput) (dom : RAMSESDomainFile)
  : list add_call :=
  map submission (filter (accepted (domain_id dom)) (groups_read dom pf)).

(** A file that is a header and nothing else: two domains, one level, no
    grid. *)
Definition file_no_grids : file := examples.header_bytes 2 1 0 [0; 0] [].

Definition dom_no_grids : RAMSESDomainFile := examples.parsed file_no_grids 1.


(** The domain subset of a reader for the index arrays [indices], one per
    domain: that of index [domain_id - 1]. *)
Definition subset_of (indices : list (list Z)) (dom : RAMSESDomainFile)
  : RAMSESDomainSubset :=
  {| sub_indices := nth (Z.to_nat (domain_id dom - 1)) indices [];
     sub_domain := dom |}.

Definition selected_in (indices : list (list Z)) (dom : RAMSESDomainFile) : bool :=
  0 <? Z.of_nat (length (nth (Z.to_nat (domain_id dom - 1)) indices [])).


(** A sequence of [select] calls on one reader. *)
Fixpoint run_selects (ss : list selector) (st : reader) : list mask * reader :=
  match ss with
  | [] => ([], st)
  | s :: rest =>
      let '(m, st1) := select s st in
      let '(ms, st2) := run_selects rest st1 in
      (m :: ms, st2)
  end.

(** The identities of a sequence of requests that differ from the identity
    before them, [slot] being the identity before the first. *)
Fixpoint changes (slot : option Z) (ids : list Z) : list Z :=
  match ids with
  | [] => []
  | i :: rest =>
      match slot with
      | Some j => if i =? j then changes (Some i) rest else i :: changes (Some i) rest
      | None => i :: changes (Some i) rest
      end
  end.


(** The records of a header behind the schema groups, by their payloads: one
    record to skip, with boundary domains two records to skip and the vector
    [ngridbound], then [free_mem], [ordering] and four records to skip. *)
Definition header_tail (nboundary : Z) (skip1 b1 b2 ngridbound : list byte)
    (free_mem ordering : list byte) (skip4 : list (list byte)) : list byte :=
  layout.frame skip1
  ++ (if 0 <? nboundary then layout.frames [b1; b2; ngridbound] else [])
  ++ layout.frame free_mem ++ layout.frame ordering ++ layout.frames skip4.


(** The header values read by the schema groups of [examples.file2]. *)
Definition hvals2 : dict :=
  match read_schema examples.file2 0 examples.schema [] with
  | Ok (hv, _) => hv
  | Raise _ => []
  end.


(** ** [RAMSESStaticOutput._parse_parameter_file] *)

(** Text as Python's file object and string methods see it. *)
Module text.

Definition newline : Ascii.ascii := Ascii.ascii_of_nat 10.
Definition equals_sign : Ascii.ascii := Ascii.ascii_of_nat 61.

(** [f.readline()]: the text up to and including the first newline, or all
    of it when there is none, and what is left of the file. *)
Fixpoint readline (s : string) : string * string :=
  match s with
  | String.EmptyString => (String.EmptyString, String.EmptyString)
  | String.String c r =>
      if Ascii.eqb c newline then (String.String c String.EmptyString, r)
      else let '(l, r') := readline r in (String.String c l, r')
  end.

(** [s.split(sep)] for a separator of one character. *)
Fixpoint split_on (sep : Ascii.ascii) (s : string) : list string :=
  match s with
  | String.EmptyString => [String.EmptyString]
  | String.String c r =>
      if Ascii.eqb c sep then String.EmptyString :: split_on sep r
      else match split_on sep r with
           | h :: t => String.String c h :: t
           | [] => [String.String c String.EmptyString]
           end
  end.

(** The characters [str.strip()] and [str.split()] take for blank: space,
    tab, newline, vertical tab, form feed, carriage return. *)
Definition is_space (c : Ascii.ascii) : bool :=
  let n := Ascii.nat_of_ascii c in
  (Nat.eqb n 32 || (Nat.leb 9 n && Nat.leb n 13))%bool.

Fixpoint lstrip (s : string) : string :=
  match s with
  | String.EmptyString => String.EmptyString
  | String.String c r => if is_space c then lstrip r else s
  end.

Fixpoint rstrip (s : string) : string :=
  match s with
  | String.EmptyString => String.EmptyString
  | String.String c r =>
      match rstrip r with
      | String.EmptyString =>
          if is_space c then String.EmptyString
          else String.String c String.EmptyString
      | r' => String.String c r'
      end
  end.

(** [s.strip()] *)
Definition strip (s : string) : string := lstrip (rstrip s).

(** [s.split()]: the words between runs of blanks; [w] is the word being
    read. *)
Fixpoint split_ws_from (w : string) (s : string) : list string :=
  match s with
  | String.EmptyString =>
      match w with String.EmptyString => [] | _ => [w] end
  | String.String c r =>
      if is_space c then
        match w with
        | String.EmptyString => split_ws_from String.EmptyString r
        | _ => w :: split_ws_from String.EmptyString r
        end
      else split_ws_from (String.append w (String.String c String.EmptyString)) r
  end.

Definition split_ws (s : string) : list string :=
  split_ws_from String.EmptyString s.

(** What is left of a text after [n] calls of [readline]. *)
Fixpoint drop_lines (n : nat) (s : string) : string :=
  match n with
  | O => s
  | S k => drop_lines k (snd (readline s))
  end.

(** The last character of a text, if it has one. *)
Fixpoint last_char (s : string) : option Ascii.ascii :=
  match s with
  | String.EmptyString => None
  | String.String c r =>
      match last_char r with
      | Some d => Some d
      | None => Some c
      end
  end.

(** [c in s] *)
Fixpoint mem_char (c : Ascii.ascii) (s : string) : bool :=
  match s with
  | String.EmptyString => false
  | String.String d r => (Ascii.eqb d c || mem_char c r)%bool
  end.

End text.

Module RAMSESStaticOutput.

(** The outcome of a step: a value, or a Python exception by its class
    name. *)
Inductive outcome (A : Type) : Type :=
| Done (a : A)
| Fail (exc : string).

Arguments Done {A} a.
Arguments Fail {A} exc.

Definition and_then {A B} (r : outcome A) (k : A -> outcome B) : outcome B :=
  match r with
  | Done a => k a
  | Fail e => Fail e
  end.

Notation "x <~ c ;; k" := (and_then c (fun x => k))
  (at level 61, c at next level, right associativity).

(** The values of the parameter dictionaries. *)
Inductive param : Type :=
| RInt (z : Z)
| RFloat (x : float)
| RStr (s : string).

(** A dictionary with string keys, the newest binding of a key in front. *)
Definition rdict := list (string * param).

Definition rd_set (d : rdict) (k : string) (v : param) : rdict := (k, v) :: d.

Fixpoint rd_get (d : rdict) (k : string) : outcome param :=
  match d with
  | [] => Fail "KeyError"
  | (k', v) :: rest => if String.eqb k' k then Done v else rd_get rest k
  end.

(** [d.update(new)] *)
Definition rd_update (d new : rdict) : rdict := new ++ d.

(** What the function uses of Python and numpy: the casts [int(s)] and
    [float(s)] of a string, the operators [*], [/] and [-] on values, and
    [na.ones(3, dtype='float64') * v].  They are parameters of the model. *)
Record python : Type := mk_python {
  py_int : string -> outcome Z;
  py_float : string -> outcome float;
  py_mul : param -> param -> outcome param;
  py_div : param -> param -> outcome param;
  py_sub : param -> param -> outcome param;
  np_ones3_mul : param -> outcome vec3
}.

Inductive cast : Type := CInt | CFloat | CStr.

(** [cast(v)] for [cast] one of [int], [float], [str]. *)
Definition apply_cast (py : python) (c : cast) (v : string) : outcome param :=
  match c with
  | CInt => z <~ py_int py v ;; Done (RInt z)
  | CFloat => x <~ py_float py v ;; Done (RFloat x)
  | CStr => Done (RStr v)
  end.

(** [read_rhs(cast)] on the rest of the file and [rheader]. *)
Definition read_rhs (py : python) (c : cast) (st : string * rdict)
  : outcome (string * rdict) :=
  let '(txt, rheader) := st in
  let '(line, rest) := text.readline txt in
  match text.split_on text.equals_sign line with
  | [p; v] =>
      x <~ apply_cast py c v ;;
      Done (rest, rd_set rheader (text.strip p) x)
  | _ => Fail "ValueError"
  end.

(** [for i in range(n): read_rhs(cast)] *)
Fixpoint read_rhs_n (py : python) (c : cast) (n : nat) (st : string * rdict)
  : outcome (string * rdict) :=
  match n with
  | O => Done st
  | S k => st1 <~ read_rhs py c st ;; read_rhs_n py c k st1
  end.

Definition hdict := list (Z * (float * float)).

(** The loop over the lines of the hilbert table, one line per element of
    [ns]. *)
Fixpoint read_hilbert (py : python) (ns : list Z) (txt : string) (hi : hdict)
  : outcome (string * hdict) :=
  match ns with
  | [] => Done (txt, hi)
  | _ :: rest =>
      let '(line, txt1) := text.readline txt in
      match text.split_ws line with
      | [dom; mi; ma] =>
          a <~ py_float py mi ;;
          b <~ py_float py ma ;;
          k <~ py_int py dom ;;
          read_hilbert py rest txt1 ((k, (a, b)) :: hi)
      | _ => Fail "ValueError"
      end
  end.

(** [value == "hilbert"] *)
Definition is_hilbert (v : param) : bool :=
  match v with
  | RStr s => String.eqb s "hilbert"
  | _ => false
  end.

(** The attributes the function sets. *)
Record attrs : Type := mk_attrs {
  dimensionality : Z;
  refine_by : Z;
  parameters : rdict;
  unique_identifier : Z;
  hilbert_indices : hdict;
  current_time : param;
  right_edge : vec3;                   (* [domain_right_edge] *)
  left_edge : vec3;                    (* [domain_left_edge] *)
  domain_dimensions : Z * Z * Z;
  cosmological_simulation : Z;
  current_redshift : param;
  omega_lambda : param;
  omega_matter : param;
  hubble_constant : param
}.

(** The reads of [_parse_parameter_file]: the eighteen [key = value] lines
    and, for a hilbert ordering, the table of the domains. *)
Definition read_info (py : python) (txt : string) : outcome (rdict * hdict) :=
  st <~ read_rhs_n py CInt 6 (txt, []) ;;
  let '(_, t) := text.readline (fst st) in
  st <~ read_rhs_n py CFloat 11 (t, snd st) ;;
  let '(_, t) := text.readline (fst st) in
  st <~ read_rhs py CStr (t, snd st) ;;
  let '(t, rheader) := st in
  (* Now we read the hilber indices *)
  ot <~ rd_get rheader "ordering type" ;;
  hi <~ (if is_hilbert ot then
           let '(_, t) := text.readline t in
           nc <~ rd_get rheader "ncpu" ;;
           match nc with
           | RInt n => r <~ read_hilbert py (range n) t [] ;; Done (snd r)
           | _ => Fail "TypeError"
           end
         else Done []) ;;
  Done (rheader, hi).

(** [_parse_parameter_file], on the text of the parameter file; [params0]
    is [self.parameters] before the call and [ctime] the change time
    [os.stat] reports.  The result carries the lines logged. *)
Definition _parse_parameter_file (py : python) (params0 : rdict) (ctime : Z)
    (txt : string) : list event * outcome attrs :=
  let params := rd_set (rd_set params0 "HydroMethod" (RStr "ramses"))
                       "Time" (RFloat 1) in
  match (r <~ read_info py txt ;;
         let '(rheader, hi) := r in
         let params := rd_update params rheader in
         time <~ rd_get params "time" ;;
         unit_t <~ rd_get params "unit_t" ;;
         now <~ py_mul py time unit_t ;;
         boxlen <~ rd_get rheader "boxlen" ;;
         redge <~ np_ones3_mul py boxlen ;;
         Done (rheader, hi, params, now, redge)) with
  | Fail e => ([], Fail e)
  | Done (rheader, hi, params, now, redge) =>
      let evs := [Log Warning
        "No current mechanism of distinguishing cosmological simulations in RAMSES!"
        []] in
      (evs,
       aexp <~ rd_get rheader "aexp" ;;
       q <~ py_div py (RFloat 1) aexp ;;
       z <~ py_sub py q (RFloat 1) ;;
       ol <~ rd_get rheader "omega_l" ;;
       om <~ rd_get rheader "omega_m" ;;
       h0 <~ rd_get rheader "H0" ;;
       Done {| dimensionality := 3;
               refine_by := 2;
               parameters := params;
               unique_identifier := ctime;
               hilbert_indices := hi;
               current_time := now;
               right_edge := redge;
               left_edge := (0, 0, 0)%float;
               domain_dimensions := (2, 2, 2);
               cosmological_simulation := 1;
               current_redshift := z;
               omega_lambda := ol;
               omega_matter := om;
               hubble_constant := h0 |})
  end.

End RAMSESStaticOutput.


(** An example parameter file and stand-ins for the Python casts and
    operators. *)
Module info_example.

Import RAMSESStaticOutput.

(** The lines of a text, each closed by a newline. *)
Fixpoint unlines (ls : list string) : string :=
  match ls with
  | [] => String.EmptyString
  | l :: rest =>
      String.append l (String.String text.newline (unlines rest))
  end.

Definition info_text : string :=
  unlines
    [ "ncpu        =          2"; "ndim        =          3";
      "levelmin    =          3"; "levelmax    =          5";
      "ngridmax    =     100000"; "nstep_coarse=          1";
      " ";
      "boxlen      =  1"; "time        =  1"; "aexp        =  1";
      "H0          =  1"; "omega_m     =  1"; "omega_l     =  1";
      "omega_k     =  1"; "omega_b     =  1"; "unit_l      =  1";
      "unit_d      =  1"; "unit_t      =  1";
      " ";
      "ordering type=hilbert";
      "   DOMAIN   ind_min   ind_max";
      "       1    0     4";
      "       2    4     8" ].

(** The same file without its last thirteen lines. *)
Definition info_text_short : string :=
  unlines
    [ "ncpu        =          2"; "ndim        =          3";
      "levelmin    =          3"; "levelmax    =          5";
      "ngridmax    =     100000"; "nstep_coarse=          1";
      " ";
      "boxlen      =  1"; "time        =  1"; "aexp        =  1" ].

Fixpoint digits (acc : Z) (s : string) : option Z :=
  match s with
  | String.EmptyString => Some acc
  | String.String c r =>
      let n := Z.of_nat (Ascii.nat_of_ascii c) in
      if (48 <=? n) && (n <=? 57) then digits (10 * acc + (n - 48)) r else None
  end.

(** A stand-in for [int(s)]: blanks around a run of decimal digits. *)
Definition int_of (s : string) : outcome Z :=
  match text.strip s with
  | String.EmptyString => Fail "ValueError"
  | t => match digits 0 t with
         | Some z => Done z
         | None => Fail "ValueError"
         end
  end.

(** A stand-in for [float(s)], on the same texts. *)
Definition float_of (s : string) : outcome float :=
  match int_of s with
  | Done z => Done (float_of_bits (if z =? 0 then 0 else 4607182418800017408))
  | Fail e => Fail e
  end.

(** Stand-ins for the operators, on floats. *)
Definition float_op (op : float -> float -> float) (a b : param) : outcome param :=
  match a, b with
  | RFloat x, RFloat y => Done (RFloat (op x y))
  | _, _ => Fail "TypeError"
  end.

Definition py : python :=
  {| py_int := int_of;
     py_float := float_of;
     py_mul := float_op PrimFloat.mul;
     py_div := float_op PrimFloat.div;
     py_sub := float_op PrimFloat.sub;
     np_ones3_mul := fun v =>
       match v with
       | RFloat x => Done (PrimFloat.mul 1 x, PrimFloat.mul 1 x, PrimFloat.mul 1 x)
       | _ => Fail "TypeError"
       end |}.

End info_example.


(** The layout of a parameter file: lines [key=value], each closed by a
    newline, and what the casts make of them. *)
Module info_file.

Import RAMSESStaticOutput.

(** A key or a value: no equals sign and no newline in it. *)
Definition plain (s : string) : bool :=
  (negb (text.mem_char text.equals_sign s)
   && negb (text.mem_char text.newline s))%bool.

Definition plain_line (kv : string * string) : bool :=
  (plain (fst kv) && plain (snd kv))%bool.

(** The lines of the pairs [kvs], followed by [rest]. *)
Fixpoint lines (kvs : list (string * string)) (rest : string) : string :=
  match kvs with
  | [] => rest
  | (k, v) :: more =>
      String.append k
        (String.String text.equals_sign
           (String.append v (String.String text.newline (lines more rest))))
  end.

(** The value of a line as [read_rhs] hands it to the cast: the text after
    the equals sign, its newline included. *)
Definition rhs (v : string) : string :=
  String.append v (String.String text.newline String.EmptyString).

(** [rheader] after the lines of [kvs] were stored with the cast [c]. *)
Fixpoint cast_lines (py : python) (c : cast) (kvs : list (string * string))
    (rheader : rdict) : outcome rdict :=
  match kvs with
  | [] => Done rheader
  | (k, v) :: more =>
      x <~ apply_cast py c (rhs v) ;;
      cast_lines py c more (rd_set rheader (text.strip k) x)
  end.

(** A whole file: the integer lines, a line [sep1], the float lines, a line
    [sep2], the line of the ordering, and [rest]. *)
Definition render (ints : list (string * string)) (sep1 : string)
    (floats : list (string * string)) (sep2 : string)
    (ordering : string * string) (rest : string) : string :=
  lines ints
    (String.append sep1 (String.String text.newline
       (lines floats
          (String.append sep2 (String.String text.newline
             (lines [ordering] rest)))))).

End info_file.

Module info_example2.

Definition ints : list (string * string) :=
  [ ("ncpu        ", "          2"); ("ndim        ", "          3");
    ("levelmin    ", "          3"); ("levelmax    ", "          5");
    ("ngridmax    ", "     100000"); ("nstep_coarse", "          1") ].

Definition floats : list (string * string) :=
  [ ("boxlen      ", "  1"); ("time        ", "  1"); ("aexp        ", "  1");
    ("H0          ", "  1"); ("omega_m     ", "  1"); ("omega_l     ", "  1");
    ("omega_k     ", "  1"); ("omega_b     ", "  1"); ("unit_l      ", "  1");
    ("unit_d      ", "  1"); ("unit_t      ", "  1") ].

Definition table : string :=
  info_example.unlines
    [ "   DOMAIN   ind_min   ind_max"; "       1    0     4";
      "       2    4     8" ].

End info_example2.

(** * Properties *)

(** ** Bytes and markers *)

Lemma u8_range (b : byte) : 0 <= u8 b < 256.
Proof.
  unfold u8. pose proof (Byte.to_N_bounded b). lia.
Qed.

Lemma u8_byte_of_Z (z : Z) : u8 (byte_of_Z z) = z mod 256.
Proof.
  unfold u8, byte_of_Z.
  pose proof (Z.mod_pos_bound z 256 ltac:(lia)) as Hm.
  destruct (Byte.of_N (Z.to_N (z mod 256))) as [b|] eqn:E.
  - apply Byte.to_of_N in E. rewrite E. lia.
  - apply Byte.of_N_None_iff in E. lia.
Qed.

Lemma le_encode_length (n : nat) (z : Z) : length (le_encode n z) = n.
Proof.
  revert z. induction n as [|n IH]; intros z; simpl; [reflexivity|].
  now rewrite IH.
Qed.

Lemma le_decode_encode (n : nat) (z : Z) :
  0 <= z < 256 ^ Z.of_nat n -> le_decode (le_encode n z) = z.
Proof.
  revert z. induction n as [|n IH]; intros z Hz.
  - simpl in *. lia.
  - cbn [le_encode le_decode]. rewrite u8_byte_of_Z.
    rewrite IH.
    + pose proof (Z.div_mod z 256 ltac:(lia)). lia.
    + rewrite Nat2Z.inj_succ, Z.pow_succ_r in Hz by lia.
      split; [apply Z.div_pos; lia|].
      apply Z.div_lt_upper_bound; lia.
Qed.

Lemma le_decode_range (bs : list byte) :
  0 <= le_decode bs < 256 ^ Z.of_nat (length bs).
Proof.
  induction bs as [|b bs IH].
  - simpl. lia.
  - cbn [le_decode length]. rewrite Nat2Z.inj_succ, Z.pow_succ_r by lia.
    pose proof (u8_range b). lia.
Qed.

(** ** The mask cache of a reader *)

Section Cache.

Variable s : selector.
Variable st : reader.

Lemma same_id_iff (slot : option Z) :
  same_id s slot = true <-> slot = Some (sel_id s).
Proof.
  unfold same_id. destruct slot as [i|].
  - rewrite Z.eqb_eq. split; [intros ->; reflexivity | intros [=]; congruence].
  - split; discriminate.
Qed.

(** After [select(s)] the slot holds the identity of [s] and the mask that
    was returned. *)
Lemma select_slot :
  _last_selector_id (r_dom (snd (select s st))) = Some (sel_id s)
  /\ _last_mask (r_dom (snd (select s st))) = fst (select s st).
Proof.
  unfold select.
  destruct (same_id s (_last_selector_id (r_dom st))) eqn:E; simpl.
  - apply same_id_iff in E. auto.
  - auto.
Qed.

Lemma select_hit :
  same_id s (_last_selector_id (r_dom st)) = true ->
  select s st = (_last_mask (r_dom st), st).
Proof. unfold select. intros ->. reflexivity. Qed.

Lemma select_miss :
  same_id s (_last_selector_id (r_dom st)) = false ->
  select s st =
    (fill_mask s (r_dom st),
     {| r_dom := set_cache (r_dom st) (fill_mask s (r_dom st)) (Some (sel_id s));
        r_filled := r_filled st ++ [sel_id s] |}).
Proof. unfold select. intros ->. reflexivity. Qed.

(** On a hit [count] answers from the slot, without a self-call. *)
Lemma count_hit (k : nat) :
  same_id s (_last_selector_id (r_dom st)) = true ->
  count (S k) s st = Some (mask_count (_last_mask (r_dom st)), st).
Proof.
  intros E. simpl. rewrite E. destruct (_last_mask (r_dom st)); reflexivity.
Qed.

Lemma count_unfold (k : nat) :
  count (S k) s st =
  if same_id s (_last_selector_id (r_dom st)) then
    Some (mask_count (_last_mask (r_dom st)), st)
  else count k s (snd (select s st)).
Proof.
  simpl. destruct (same_id s (_last_selector_id (r_dom st))).
  - destruct (_last_mask (r_dom st)); reflexivity.
  - destruct (select s st). reflexivity.
Qed.

End Cache.

(** One self-call is enough: [count] is the population count of what
    [select] returns, and leaves the reader as [select] does. *)
Lemma count_select (s : selector) (st : reader) (k : nat) :
  count (S (S k)) s st = Some (mask_count (fst (select s st)), snd (select s st)).
Proof.
  rewrite count_unfold.
  destruct (same_id s (_last_selector_id (r_dom st))) eqn:E.
  - rewrite (select_hit s st E). reflexivity.
  - destruct (select_slot s st) as [Hid Hm].
    rewrite count_hit by (apply same_id_iff; exact Hid).
    rewrite Hm. reflexivity.
Qed.

(** C6.  Once [select(s)] has been computed, a call of [select] with a
    selector of the same identity returns the cached mask and leaves the
    reader as it is: no [fill_mask] runs.  A call with a selector of another
    identity runs its [fill_mask] once, returns that mask and puts it, with
    the new identity, in the single slot. *)
Theorem select_cache (s s' : selector) (st : reader) :
  let m1 := fst (select s st) in
  let st1 := snd (select s st) in
  (sel_id s' = sel_id s -> select s' st1 = (m1, st1))
  /\ (sel_id s' <> sel_id s ->
      select s' st1 =
        (fill_mask s' (r_dom st1),
         {| r_dom := set_cache (r_dom st1) (fill_mask s' (r_dom st1))
                               (Some (sel_id s'));
            r_filled := r_filled st1 ++ [sel_id s'] |})).
Proof.
  intros m1 st1.
  destruct (select_slot s st) as [Hid Hm]. fold st1 in Hid, Hm. fold m1 in Hm.
  split; intros H.
  - rewrite select_hit.
    + rewrite Hm. reflexivity.
    + apply same_id_iff. rewrite Hid. congruence.
  - apply select_miss.
    destruct (same_id s' (_last_selector_id (r_dom st1))) eqn:E; [|reflexivity].
    apply same_id_iff in E. rewrite Hid in E. congruence.
Qed.

(** C7.  [count(s)] is the population count of the cached mask when the slot
    holds the identity of [s] (0 when that mask is [None]); otherwise it runs
    [select(s)] and counts the resulting mask.  Either way it is the
    population count of [select(s)] and leaves the reader as [select(s)]
    does. *)
Theorem count_is_popcount_of_select (s : selector) (st : reader) (k : nat) :
  (_last_selector_id (r_dom st) = Some (sel_id s) ->
     count (S k) s st = Some (mask_count (_last_mask (r_dom st)), st))
  /\ (_last_selector_id (r_dom st) <> Some (sel_id s) ->
     count (S (S k)) s st =
       Some (mask_count (fill_mask s (r_dom st)), snd (select s st)))
  /\ count (S (S k)) s st =
       Some (mask_count (fst (select s st)), snd (select s st)).
Proof.
  split; [|split].
  - intros H. apply count_hit. apply same_id_iff. exact H.
  - intros H.
    assert (E : same_id s (_last_selector_id (r_dom st)) = false).
    { destruct (same_id s (_last_selector_id (r_dom st))) eqn:E; [|reflexivity].
      apply same_id_iff in E. contradiction. }
    rewrite count_select, (select_miss s st E). reflexivity.
  - apply count_select.
Qed.

(** C10.  [count(s)] returns: one level of self-call is always enough.  With
    no self-call allowed it returns exactly when the slot already holds the
    identity of [s]; after [select(s)] the slot does hold it, so the
    self-call takes the cached branch and returns at once. *)
Theorem count_terminates (s : selector) (st : reader) :
  (exists r, forall k, count (S (S k)) s st = Some r)
  /\ (count 1 s st = None <-> _last_selector_id (r_dom st) <> Some (sel_id s))
  /\ (exists r, forall k, count (S k) s (snd (select s st)) = Some r).
Proof.
  split; [|split].
  - eexists. intros k. apply count_select.
  - rewrite count_unfold.
    destruct (same_id s (_last_selector_id (r_dom st))) eqn:E.
    + apply same_id_iff in E. split; congruence.
    + simpl. split; [intros _ H|reflexivity].
      apply same_id_iff in H. congruence.
  - eexists. intros k. apply count_hit.
    apply same_id_iff. apply select_slot.
Qed.

Lemma select_cache_witness :
  select examples.sel_a (snd (select examples.sel_a examples.reader0))
  = (Some [true; false; true], snd (select examples.sel_a examples.reader0)).
Proof.
  apply (proj1 (select_cache examples.sel_a examples.sel_a examples.reader0)).
  reflexivity.
Defined.

Lemma count_is_popcount_of_select_witness :
  count 2 examples.sel_a examples.reader0
  = Some (2, snd (select examples.sel_a examples.reader0)).
Proof.
  apply (proj1 (proj2 (count_is_popcount_of_select
                         examples.sel_a examples.reader0 0))).
  vm_compute. discriminate.
Defined.

(** ** Grid counts *)

Section GridCount.

Variable dom : RAMSESDomainFile.
Variables ncpu : Z.
Hypothesis Hncpu : get_int (amr_header dom) "ncpu" = Ok ncpu.

(** For a real domain the count is [numbl[l, c]]. *)
Lemma ng_numbl (numbl : pyval) (c l : Z) :
  dict_get (amr_header dom) "numbl" = Ok numbl ->
  c < ncpu ->
  _ng dom c l = na.index2 numbl l c.
Proof.
  intros Hn Hc. unfold _ng. rewrite Hncpu. simpl.
  destruct (Z.ltb_spec c ncpu); [|lia]. rewrite Hn. reflexivity.
Qed.

(** For a boundary domain the lookup of [ngridbound] fails. *)
Lemma ng_boundary (c l : Z) :
  ncpu <= c -> _ng dom c l = Raise NameError.
Proof.
  intros Hc. unfold _ng. rewrite Hncpu. simpl.
  destruct (Z.ltb_spec c ncpu); [lia|reflexivity].
Qed.

End GridCount.

(** C3.  The header of [examples.file_boundary] has one real domain, one
    boundary domain and [ngridbound = [1]].  For the boundary owner
    (index 1) at level 0 the specification's lookup yields
    [ngridbound[0] = 1]; [_ng] raises [NameError], as it does for every
    owner index at or above [ncpu]. *)
Theorem ng_boundary_lookup_raises :
  get_int (amr_header examples.dom_boundary) "nboundary" = Ok 1
  /\ grid_count_spec 1 1 (PArray2 1 1 [1]) [1] 1 0 = Ok 1
  /\ _ng examples.dom_boundary 1 0 = Raise NameError
  /\ _ng examples.dom_boundary 0 0 = Ok 1.
Proof. vm_compute. auto. Qed.

(** ** Chunking *)

(** [_chunk_all] yields one chunk of type "all" carrying [dobj.size]; its
    objects are those of the current chunk when there is one, else
    [_chunk_info]. *)
Lemma chunk_all_single (dobj : data_object) :
  exists c, _chunk_all dobj = [c]
            /\ chunk_type c = "all"
            /\ data_size c = size dobj
            /\ objs c = match _current_chunk dobj with
                        | Some c0 => objs c0
                        | None => _chunk_info dobj
                        end.
Proof. eexists. repeat split. Qed.

(** After [_identify_base_chunk] on a fresh data object, [_chunk_all] yields
    exactly one chunk, wrapping the domain subsets of [_chunk_info] and the
    selected size. *)
Lemma chunk_all_of_resolved (q : oct_queries) (h : RAMSESGeometryHandler)
    (dobj dobj' : data_object) :
  _chunk_info dobj = None -> _current_chunk dobj = None ->
  _identify_base_chunk q h dobj = Ok dobj' ->
  exists subs,
    _chunk_info dobj' = Some subs
    /\ domain_subsets (domains h)
         (count_split q (h_oct_handler h)
            (select_octs q (dobj_selector dobj) (h_oct_handler h))) = Ok subs
    /\ size dobj' = count_cells q (h_oct_handler h) (dobj_selector dobj)
                      (select_octs q (dobj_selector dobj) (h_oct_handler h))
    /\ _chunk_all dobj' =
         [ {| chunk_type := "all"; objs := Some subs; data_size := size dobj' |} ].
Proof.
  intros Hci Hcc. unfold _identify_base_chunk, _count_selection.
  rewrite Hci.
  destruct (domain_subsets _ _) as [subs|e] eqn:Es; simpl; [|discriminate].
  unfold _chunk_all at 1. simpl. rewrite Hcc.
  intros [= <-]. exists subs. simpl. repeat split; reflexivity.
Qed.

Lemma chunk_spatial_raises (dobj : data_object) (ngz : Z) :
  _chunk_spatial dobj ngz = Raise NotImplementedError.
Proof. reflexivity. Qed.

(** C8.  Asked for I/O chunking, the handler signals nothing: [_chunk_io]
    returns [None] normally, where [_chunk_spatial] raises
    [NotImplementedError]. *)
Theorem chunk_io_returns_none :
  _chunk_io examples.dobj0 = Ok None
  /\ is_ok (_chunk_io examples.dobj0) = true
  /\ _chunk_spatial examples.dobj0 0 = Raise NotImplementedError.
Proof. repeat split. Qed.

(** ** Initialization of the geometry handler *)

Lemma read_amr_output (dom : RAMSESDomainFile) (pf : StaticOutput) (w : world) :
  output (fst (_read_amr dom pf w)) =
  output w ++ [Log Debug "Reading domain AMR % 4i (%0.3e)"
                   [domain_id dom; local_oct_count dom]].
Proof.
  unfold _read_amr.
  destruct (get_int (amr_header dom) "nlevelmax") as [n|e]; [|reflexivity].
  destruct (level_loop _ _ _ _ _) as [oct1 [cur|e]]; reflexivity.
Qed.

Lemma read_all_output (pf : StaticOutput) (doms : list RAMSESDomainFile) :
  forall w, forallb is_debug (output w) = true ->
            forallb is_debug (output (fst (read_all pf doms w))) = true.
Proof.
  induction doms as [|dom rest IH]; intros w Hw; simpl; [exact Hw|].
  pose proof (read_amr_output dom pf w) as Ho.
  destruct (_read_amr dom pf w) as [w1 [u|e]]; simpl in *.
  - apply IH. rewrite Ho, forallb_app, Hw. reflexivity.
  - rewrite Ho, forallb_app, Hw. reflexivity.
Qed.

Lemma debug_not_warning (evs : list event) :
  forallb is_debug evs = true -> existsb is_warning evs = false.
Proof.
  induction evs as [|e evs IH]; simpl; [reflexivity|].
  intros H. apply andb_prop in H as [He Hr]. rewrite (IH Hr).
  destruct e as [[| | |] ? ?| |]; simpl in *; congruence.
Qed.

(** C9, as the code has it.  Whether initialization completes does not
    depend on the count the container reports.  When it completes, the two
    totals and then their ratio are the last lines written, whether the
    totals agree or not; every line before them is a debug line of the log,
    and no line is a warning. *)
Theorem init_prints_totals (schema : header_schema)
    (nocts : RAMSESOctreeContainer -> Z) (pf : StaticOutput) :
  (forall nocts',
     is_ok (snd (_initialize_oct_handler schema nocts' pf)) =
     is_ok (snd (_initialize_oct_handler schema nocts pf)))
  /\ (forall evs h,
        _initialize_oct_handler schema nocts pf = (evs, Ok h) ->
        exists evs0,
          evs = evs0 ++ [Print "TOTAL" [num_grids h; nocts (h_oct_handler h)];
                         PrintRatio "TOTAL" (num_grids h) (nocts (h_oct_handler h))]
          /\ forallb is_debug evs0 = true
          /\ existsb is_warning evs = false
          /\ num_grids h = na.sum (map local_oct_count (domains h))).
Proof.
  split.
  - intros nocts'. unfold _initialize_oct_handler.
    destruct (build_domains schema pf (range (pf_ncpu pf))) as [doms|e];
      [|reflexivity].
    destruct (match doms with [] => _ | _ => _ end) as [nx|e]; [|reflexivity].
    destruct (read_all _ _ _) as [w1 [u|e]]; reflexivity.
  - intros evs h. unfold _initialize_oct_handler.
    destruct (build_domains schema pf (range (pf_ncpu pf))) as [doms|e];
      [|discriminate].
    destruct (match doms with [] => _ | _ => _ end) as [nx|e]; [|discriminate].
    match goal with |- context [read_all pf doms ?w0] =>
      pose proof (read_all_output pf doms w0 eq_refl) as Hd
    end.
    destruct (read_all _ _ _) as [w1 [u|e]]; [|discriminate].
    simpl in Hd. intros [= <- <-]. simpl.
    exists (output w1). repeat split.
    + rewrite <- app_assoc. reflexivity.
    + exact Hd.
    + rewrite <- app_assoc, existsb_app, (debug_not_warning _ Hd). reflexivity.
Qed.

Lemma init_prints_totals_witness :
  exists evs0,
    fst examples.run2 = evs0 ++ [Print "TOTAL" [2; 3]; PrintRatio "TOTAL" 2 3]
    /\ forallb is_debug evs0 = true.
Proof.
  destruct (proj2 (init_prints_totals examples.schema examples.count_added
                     examples.pf2) (fst examples.run2) examples.handler2)
    as [evs0 (H1 & H2 & _)].
  - vm_compute. reflexivity.
  - exists evs0. split; [exact H1 | exact H2].
Defined.

(** C9, as the claim has it, fails.  With the counting stub the two-domain
    snapshot yields 2 local octs and 3 reported octs, and no warning is
    written. *)
Lemma mismatch_not_warned :
  ~ mismatch_is_warned examples.schema examples.count_added examples.pf2.
Proof.
  intros H.
  specialize (H (fst examples.run2) examples.handler2).
  assert (E : existsb is_warning (fst examples.run2) = false)
    by (vm_compute; reflexivity).
  rewrite H in E; [discriminate| |].
  - vm_compute. reflexivity.
  - vm_compute. discriminate.
Qed.

(** ** Reading what a writer wrote *)

Lemma tail_at_app (f : file) (cur : Z) (a b : list byte) :
  tail_at f cur (a ++ b) ->
  f_read f cur (Z.of_nat (length a)) = a
  /\ tail_at f (cur + Z.of_nat (length a)) b.
Proof.
  intros [[H0 H1] Hs]. unfold f_read. rewrite Nat2Z.id, Hs.
  assert (Hl : (length f - Z.to_nat cur = length a + length b)%nat).
  { rewrite <- length_skipn, Hs, length_app. reflexivity. }
  unfold tail_at, file_size in *.
  split.
  - rewrite firstn_app, Nat.sub_diag, firstn_all. simpl. apply app_nil_r.
  - split; [lia|].
    rewrite Z2Nat.inj_add, Nat2Z.id by lia.
    rewrite Nat.add_comm, <- skipn_skipn, Hs.
    rewrite skipn_app, skipn_all, Nat.sub_diag. reflexivity.
Qed.

Lemma tail_at_end (f : file) (cur : Z) :
  tail_at f cur [] -> cur = file_size f.
Proof.
  intros [[H0 H1] Hs]. unfold file_size in *.
  apply (f_equal (@length byte)) in Hs. rewrite length_skipn in Hs.
  simpl in Hs. lia.
Qed.

Lemma read_marker_encoded (f : file) (cur n : Z) (b : list byte) :
  tail_at f cur (le_encode 4 n ++ b) -> 0 <= n < 2 ^ 32 ->
  fpu.read_marker f cur = Ok n /\ tail_at f (cur + 4) b.
Proof.
  intros Ht Hn. apply tail_at_app in Ht as [Hr Ht].
  rewrite le_encode_length in Hr, Ht.
  split; [|exact Ht].
  unfold fpu.read_marker. change (Z.of_nat 4) with 4 in Hr. rewrite Hr.
  rewrite le_encode_length. simpl (Z.of_nat 4 =? 4).
  unfold decode_u32. rewrite le_decode_encode; [reflexivity|].
  change (256 ^ Z.of_nat 4) with (2 ^ 32). exact Hn.
Qed.

Lemma read_record_frame (f : file) (cur : Z) (p b : list byte) :
  tail_at f cur (layout.frame p ++ b) -> layout.fits p ->
  fpu.read_record f cur = Ok (p, cur + frame_size p)
  /\ tail_at f (cur + frame_size p) b.
Proof.
  intros Ht Hp. unfold layout.frame in Ht. unfold layout.fits in Hp.
  rewrite <- !app_assoc in Ht.
  assert (Hn : 0 <= Z.of_nat (length p) < 2 ^ 32) by lia.
  destruct (read_marker_encoded _ _ _ _ Ht Hn) as [Hm Ht1].
  apply tail_at_app in Ht1 as [Hr Ht2].
  destruct (read_marker_encoded _ _ _ _ Ht2 Hn) as [Hm2 Ht3].
  unfold fpu.read_record. rewrite Hm. simpl bind.
  rewrite Hr, Z.eqb_refl. simpl negb. cbv iota.
  rewrite Hm2. simpl bind. rewrite Z.eqb_refl. simpl negb. cbv iota.
  unfold frame_size.
  replace (cur + 4 + Z.of_nat (length p) + 4)
    with (cur + (8 + Z.of_nat (length p))) in * by lia.
  split; [reflexivity|exact Ht3].
Qed.

Lemma frames_cons (p : list byte) (ps : list (list byte)) :
  layout.frames (p :: ps) = layout.frame p ++ layout.frames ps.
Proof. reflexivity. Qed.

Lemma skip_frames (f : file) (ps : list (list byte)) :
  forall (cur : Z) (b : list byte),
    tail_at f cur (layout.frames ps ++ b) -> Forall layout.fits ps ->
    fpu.skip f cur (length ps) = Ok (cur + frames_size ps)
    /\ tail_at f (cur + frames_size ps) b.
Proof.
  induction ps as [|p ps IH]; intros cur b Ht Hf.
  - simpl in *. rewrite Z.add_0_r. auto.
  - rewrite frames_cons, <- app_assoc in Ht.
    inversion Hf as [|? ? Hp Hps]; subst.
    destruct (read_record_frame _ _ _ _ Ht Hp) as [Hr Ht1].
    destruct (IH _ _ Ht1 Hps) as [Hs Ht2].
    cbn [length fpu.skip frames_size]. rewrite Hr. simpl bind.
    rewrite Hs. rewrite <- Z.add_assoc in Ht2. rewrite <- Z.add_assoc.
    auto.
Qed.

Lemma read_vector_frame {A} (t : dtype A) (f : file) (cur : Z) (p b : list byte) :
  tail_at f cur (layout.frame p ++ b) -> layout.fits p ->
  Z.of_nat (length p) mod itemsize t = 0 ->
  fpu.read_vector f cur t = Ok (decode_vector t p, cur + frame_size p)
  /\ tail_at f (cur + frame_size p) b.
Proof.
  intros Ht Hp Hm.
  destruct (read_record_frame _ _ _ _ Ht Hp) as [Hr Ht1].
  unfold fpu.read_vector. rewrite Hr. simpl bind. rewrite Hm. simpl.
  auto.
Qed.

Lemma chunks_length (size count : nat) (bs : list byte) :
  length (fpu.chunks size count bs) = count.
Proof.
  revert bs. induction count as [|n IH]; intros bs; simpl; [reflexivity|].
  now rewrite IH.
Qed.

Lemma decode_vector_length {A} (t : dtype A) (p : list byte) :
  length (decode_vector t p) = Z.to_nat (Z.of_nat (length p) / itemsize t).
Proof. unfold decode_vector. now rewrite length_map, chunks_length. Qed.

Lemma assign_column_same {A} (ng : Z) (v : list A) :
  Z.of_nat (length v) = ng -> assign_column ng v = Ok v.
Proof. intros H. unfold assign_column. now rewrite H, Z.eqb_refl. Qed.

Lemma assign_column_length {A} (ng : Z) (v col : list A) :
  0 <= ng -> assign_column ng v = Ok col -> Z.of_nat (length col) = ng.
Proof.
  intros Hng. unfold assign_column.
  destruct (Z.eqb_spec (Z.of_nat (length v)) ng) as [E|E].
  - intros [= <-]. exact E.
  - destruct v as [|x [|y v]]; try discriminate.
    intros [= <-]. rewrite repeat_length. lia.
Qed.

Lemma decoded_column (ng : Z) (p : list byte) :
  0 <= ng -> Z.of_nat (length p) = 4 * ng ->
  assign_column ng (decode_vector dt_I p) = Ok (decode_vector dt_I p).
Proof.
  intros Hng Hp. apply assign_column_same.
  rewrite decode_vector_length, Hp. simpl itemsize.
  rewrite Z.mul_comm, Z.div_mul by lia. lia.
Qed.

Lemma decoded_doubles (ng : Z) (p : list byte) :
  0 <= ng -> Z.of_nat (length p) = 8 * ng ->
  assign_column ng (decode_vector dt_d p) = Ok (decode_vector dt_d p).
Proof.
  intros Hng Hp. apply assign_column_same.
  rewrite decode_vector_length, Hp. simpl itemsize.
  rewrite Z.mul_comm, Z.div_mul by lia. lia.
Qed.

Lemma read_columns_frames (f : file) (ng : Z) (ps : list (list byte)) :
  0 <= ng ->
  forall (cur : Z) (b : list byte),
    tail_at f cur (layout.frames ps ++ b) ->
    Forall (fun p => layout.fits p /\ Z.of_nat (length p) = 4 * ng) ps ->
    read_columns f cur ng (length ps)
      = Ok (map (decode_vector dt_I) ps, cur + frames_size ps)
    /\ tail_at f (cur + frames_size ps) b.
Proof.
  intros Hng. induction ps as [|p ps IH]; intros cur b Ht Hf.
  - simpl in *. rewrite Z.add_0_r. auto.
  - rewrite frames_cons, <- app_assoc in Ht.
    inversion Hf as [|? ? [Hp Hl] Hps]; subst.
    assert (Hm : Z.of_nat (length p) mod itemsize dt_I = 0).
    { rewrite Hl. simpl itemsize. rewrite Z.mul_comm. apply Z.mod_mul. lia. }
    destruct (read_vector_frame dt_I _ _ _ _ Ht Hp Hm) as [Hr Ht1].
    destruct (IH _ _ Ht1 Hps) as [Hs Ht2].
    cbn [length read_columns frames_size map]. rewrite Hr. cbn [bind].
    rewrite (decoded_column ng p Hng Hl). cbn [bind].
    rewrite Hs. cbn [bind]. rewrite <- Z.add_assoc in Ht2.
    rewrite <- Z.add_assoc. auto.
Qed.

Lemma read_group_encoded (f : file) (cur ng : Z) (w : vec3)
    (g : layout.raw_group) (b : list byte) :
  tail_at f cur (layout.encode_group g ++ b) -> layout.wf_group ng g ->
  read_group f cur ng w = Ok (decode_group w g, cur + group_size g)
  /\ tail_at f (cur + group_size g) b.
Proof.
  intros Ht [Hng [Hi1 Hi2] [Hs2l Hs2] [Hx1 Hx2] [Hy1 Hy2] [Hz1 Hz2]
               [Hp1 Hp2] [Hs6l Hs6] [Hcl Hc] [Hml Hm] [Hrl Hr]].
  unfold layout.encode_group in Ht. rewrite <- !app_assoc in Ht.
  assert (H0 : 0 <= ng) by lia.
  assert (M8 : forall p : list byte, Z.of_nat (length p) = 8 * ng ->
                         Z.of_nat (length p) mod itemsize dt_d = 0).
  { intros p ->. simpl itemsize. rewrite Z.mul_comm. apply Z.mod_mul. lia. }
  destruct (read_vector_frame dt_I _ _ _ _ Ht Hi1 Hi2) as [E1 T1].
  destruct (skip_frames _ _ _ _ T1 Hs2) as [E2 T2]. rewrite Hs2l in E2.
  destruct (read_vector_frame dt_d _ _ _ _ T2 Hx1 (M8 _ Hx2)) as [E3 T3].
  destruct (read_vector_frame dt_d _ _ _ _ T3 Hy1 (M8 _ Hy2)) as [E4 T4].
  destruct (read_vector_frame dt_d _ _ _ _ T4 Hz1 (M8 _ Hz2)) as [E5 T5].
  destruct (read_vector_frame dt_I _ _ _ _ T5 Hp1 Hp2) as [E6 T6].
  destruct (skip_frames _ _ _ _ T6 Hs6) as [E7 T7]. rewrite Hs6l in E7.
  destruct (read_columns_frames f ng _ H0 _ _ T7 Hc) as [E8 T8].
  rewrite Hcl in E8.
  destruct (read_columns_frames f ng _ H0 _ _ T8 Hm) as [E9 T9].
  rewrite Hml in E9.
  destruct (read_columns_frames f ng _ H0 _ _ T9 Hr) as [E10 T10].
  rewrite Hrl in E10.
  unfold read_group.
  rewrite E1. cbn [bind]. rewrite E2. cbn [bind].
  unfold na_empty. destruct (Z.ltb_spec ng 0); [lia|]. cbn [bind].
  rewrite E3. cbn [bind]. rewrite (decoded_doubles ng _ H0 Hx2). cbn [bind].
  rewrite E4. cbn [bind]. rewrite (decoded_doubles ng _ H0 Hy2). cbn [bind].
  rewrite E5. cbn [bind]. rewrite (decoded_doubles ng _ H0 Hz2). cbn [bind].
  rewrite E6. cbn [bind]. rewrite E7. cbn [bind].
  rewrite E8. cbn [bind]. rewrite E9. cbn [bind]. rewrite E10. cbn [bind].
  unfold group_size.
  repeat rewrite Z.add_assoc in *.
  split; [reflexivity|exact T10].
Qed.

(** ** What [_read_amr] submits *)

Lemma bind_ok {A B} (c : result A) (k : A -> result B) (b : B) :
  bind c k = Ok b -> exists a, c = Ok a /\ k a = Ok b.
Proof. destruct c as [a|e]; simpl; [eauto|discriminate]. Qed.

Ltac inv_bind H :=
  let a := fresh "a" in
  let E := fresh "E" in
  apply bind_ok in H as (a & E & H).

Tactic Notation "bind_inv" hyp(H) "as" ident(a) ident(E) :=
  apply bind_ok in H as (a & E & H).

Lemma read_group_inv (f : file) (cur ng : Z) (w : vec3) (g : group) (cur' : Z) :
  read_group f cur ng w = Ok (g, cur') ->
  exists ind c1 c2 vx c3 vy c4 vz c5 x y z,
    fpu.read_vector f cur dt_I = Ok (ind, c1)
    /\ fpu.skip f c1 2 = Ok c2
    /\ 0 <= ng
    /\ fpu.read_vector f c2 dt_d = Ok (vx, c3) /\ assign_column ng vx = Ok x
    /\ fpu.read_vector f c3 dt_d = Ok (vy, c4) /\ assign_column ng vy = Ok y
    /\ fpu.read_vector f c4 dt_d = Ok (vz, c5) /\ assign_column ng vz = Ok z
    /\ g_ind g = ind
    /\ g_pos g = scale_rows w x y z.
Proof.
  unfold read_group. intros H.
  inv_bind H. destruct a as [ind c1].
  inv_bind H. rename a into c2.
  inv_bind H. unfold na_empty in E1.
  destruct (Z.ltb_spec ng 0) as [|Hng]; [discriminate|].
  inv_bind H. destruct a0 as [vx c3]. inv_bind H. rename a0 into x.
  inv_bind H. destruct a0 as [vy c4]. inv_bind H. rename a0 into y.
  inv_bind H. destruct a0 as [vz c5]. inv_bind H. rename a0 into z.
  inv_bind H. destruct a0 as [parents c6].
  inv_bind H. inv_bind H. destruct a1 as [children c8].
  inv_bind H. destruct a1 as [cpu_map c9].
  inv_bind H. destruct a1 as [rmap c10].
  injection H as <- <-.
  exists ind, c1, c2, vx, c3, vy, c4, vz, c5, x, y, z.
  repeat split; assumption || reflexivity.
Qed.

Lemma scale_rows_length (w : vec3) (x y z : list float) (n : nat) :
  length x = n -> length y = n -> length z = n ->
  length (scale_rows w x y z) = n.
Proof.
  intros Hx Hy Hz. destruct w as [[w0 w1] w2]. unfold scale_rows.
  rewrite length_map, !length_combine. lia.
Qed.

Lemma scale_rows_nth (w0 w1 w2 : float) (x : list float) :
  forall (y z : list float) (i : nat),
    length y = length x -> length z = length x -> (i < length x)%nat ->
    nth_error (scale_rows (w0, w1, w2) x y z) i =
    Some (PrimFloat.mul (nth i x 0%float) w0,
          PrimFloat.mul (nth i y 0%float) w1,
          PrimFloat.mul (nth i z 0%float) w2).
Proof.
  induction x as [|a x IH]; intros y z i Hy Hz Hi; simpl in Hi; [lia|].
  destruct y as [|b y]; [discriminate|]. destruct z as [|c z]; [discriminate|].
  destruct i as [|i]; [reflexivity|].
  simpl in Hy, Hz. apply (IH y z i); lia.
Qed.

Lemma assign_column_nth (ng : Z) (v col : list float) (i : nat) :
  0 <= ng -> assign_column ng v = Ok col -> (i < Z.to_nat ng)%nat ->
  nth i col 0%float = component ng v i.
Proof.
  intros Hng. unfold assign_column, component.
  destruct (Z.eqb_spec (Z.of_nat (length v)) ng) as [E|E].
  - intros [= <-] _. reflexivity.
  - destruct v as [|e [|e' v]]; try discriminate.
    intros [= <-] Hi. simpl. apply nth_repeat_lt. exact Hi.
Qed.

Lemma read_group_positions (f : file) (cur ng : Z) (w : vec3) (g : group)
    (cur' : Z) (level cpu : Z) :
  read_group f cur ng w = Ok (g, cur') ->
  positions_scaled f w (mk_read level cpu ng cur g).
Proof.
  intros H. apply read_group_inv in H
    as (ind & c1 & c2 & vx & c3 & vy & c4 & vz & c5 & x & y & z &
        E1 & E2 & Hng & E3 & Ax & E4 & Ay & E5 & Az & Hi & Hp).
  pose proof (assign_column_length ng vx x Hng Ax) as Lx.
  pose proof (assign_column_length ng vy y Hng Ay) as Ly.
  pose proof (assign_column_length ng vz z Hng Az) as Lz.
  exists ind, c1, c2, vx, c3, vy, c4, vz, c5. simpl.
  repeat (split; [assumption|]).
  split.
  - rewrite Hp, (scale_rows_length w x y z (Z.to_nat ng)); lia.
  - intros i Hlt. rewrite Hp. destruct w as [[w0 w1] w2]. cbn [fst snd].
    rewrite scale_rows_nth by lia.
    rewrite (assign_column_nth ng vx x i Hng Ax Hlt).
    rewrite (assign_column_nth ng vy y i Hng Ay Hlt).
    rewrite (assign_column_nth ng vz z i Hng Az Hlt).
    reflexivity.
Qed.

Lemma oct_add_all_nil (oct : RAMSESOctreeContainer) : oct_add_all oct [] = oct.
Proof. destruct oct. unfold oct_add_all. simpl. now rewrite app_nil_r. Qed.

Lemma oct_add_all_cons (oct : RAMSESOctreeContainer) (c : add_call)
    (l : list add_call) :
  oct_add_all (oct_add oct c) l = oct_add_all oct (c :: l).
Proof. unfold oct_add_all, oct_add. simpl. now rewrite <- app_assoc. Qed.

Lemma oct_add_all_app (oct : RAMSESOctreeContainer) (l1 l2 : list add_call) :
  oct_add_all (oct_add_all oct l1) l2 = oct_add_all oct (l1 ++ l2).
Proof. unfold oct_add_all. simpl. now rewrite <- app_assoc. Qed.

Section Submissions.

Variable dom : RAMSESDomainFile.
Variable pf : StaticOutput.

Let d := domain_id dom.
Let keep (rs : list read_rec) : list add_call :=
  map submission (filter (accepted d) rs).

Lemma read_group_pos_length (cur ng : Z) (g : group) (cur' : Z) :
  read_group (amr_fn dom) cur ng (domain_width pf) = Ok (g, cur') ->
  (Z.of_nat (length (g_pos g)) =? ng) = true.
Proof.
  intros H. apply (read_group_positions _ _ _ _ _ _ 0 0) in H.
  destruct H as (? & ? & ? & ? & ? & ? & ? & ? & ? & _ & _ & _ & _ & _ & H & _).
  simpl in H. now apply Z.eqb_eq.
Qed.

Lemma cpu_loop_scan (level : Z) (cpus : list Z) :
  forall (cur : Z) (oct : RAMSESOctreeContainer),
    cpu_loop dom pf level cpus cur oct =
    (oct_add_all oct (keep (fst (scan_cpus dom pf level cpus cur))),
     snd (scan_cpus dom pf level cpus cur)).
Proof.
  induction cpus as [|cpu rest IH]; intros cur oct; cbn [cpu_loop scan_cpus].
  - unfold keep; simpl; now rewrite oct_add_all_nil.
  - destruct (_ng dom cpu level) as [ng|e];
      [|unfold keep; simpl; now rewrite oct_add_all_nil].
    destruct (ng =? 0); [apply IH|].
    destruct (read_group (amr_fn dom) cur ng (domain_width pf))
      as [[g cur1]|e] eqn:Eg; [|unfold keep; simpl; now rewrite oct_add_all_nil].
    rewrite (read_group_pos_length _ _ _ _ Eg). cbn [assert].
    specialize (IH cur1).
    destruct (scan_cpus dom pf level rest cur1) as [rs r] eqn:Es.
    cbn [fst snd] in *. unfold keep. cbn [filter].
    unfold accepted at 1. cbn [rr_cpu]. fold d.
    destruct (d <=? cpu + 1).
    + rewrite IH. rewrite oct_add_all_cons. reflexivity.
    + apply IH.
Qed.

Lemma level_loop_scan (levels : list Z) :
  forall (cur : Z) (oct : RAMSESOctreeContainer),
    level_loop dom pf levels cur oct =
    (oct_add_all oct (keep (fst (scan_levels dom pf levels cur))),
     snd (scan_levels dom pf levels cur)).
Proof.
  induction levels as [|level rest IH]; intros cur oct;
    cbn [level_loop scan_levels].
  - unfold keep; simpl; now rewrite oct_add_all_nil.
  - destruct (bind _ _) as [n|e]; [|unfold keep; simpl; now rewrite oct_add_all_nil].
    rewrite cpu_loop_scan.
    destruct (scan_cpus dom pf level (range n) cur) as [rs [cur1|e]];
      cbn [fst snd]; [|reflexivity].
    rewrite IH.
    destruct (scan_levels dom pf rest cur1) as [rs' r]. cbn [fst snd].
    rewrite oct_add_all_app. unfold keep.
    now rewrite filter_app, map_app.
Qed.

Lemma scan_cpus_positions (level : Z) (cpus : list Z) :
  forall cur : Z,
    Forall (positions_scaled (amr_fn dom) (domain_width pf))
           (fst (scan_cpus dom pf level cpus cur)).
Proof.
  induction cpus as [|cpu rest IH]; intros cur; cbn [scan_cpus].
  - constructor.
  - destruct (_ng dom cpu level) as [ng|e]; [|constructor].
    destruct (ng =? 0); [apply IH|].
    destruct (read_group (amr_fn dom) cur ng (domain_width pf))
      as [[g cur1]|e] eqn:Eg; [|constructor].
    specialize (IH cur1).
    destruct (scan_cpus dom pf level rest cur1) as [rs r]. cbn [fst] in *.
    constructor; [|exact IH].
    exact (read_group_positions _ _ _ _ _ _ level cpu Eg).
Qed.

Lemma scan_levels_positions (levels : list Z) :
  forall cur : Z,
    Forall (positions_scaled (amr_fn dom) (domain_width pf))
           (fst (scan_levels dom pf levels cur)).
Proof.
  induction levels as [|level rest IH]; intros cur; cbn [scan_levels].
  - constructor.
  - destruct (bind _ _) as [n|e]; [|constructor].
    pose proof (scan_cpus_positions level (range n) cur) as Hc.
    destruct (scan_cpus dom pf level (range n) cur) as [rs [cur1|e]];
      cbn [fst] in *; [|exact Hc].
    specialize (IH cur1).
    destruct (scan_levels dom pf rest cur1) as [rs' r]. cbn [fst] in *.
    apply Forall_app. auto.
Qed.

Lemma read_amr_oct (w : world) :
  oct_handler (fst (_read_amr dom pf w)) =
  oct_add_all (oct_handler w) (keep (groups_read dom pf)).
Proof.
  unfold _read_amr, groups_read.
  destruct (get_int (amr_header dom) "nlevelmax") as [n|e].
  - rewrite level_loop_scan.
    destruct (scan_levels dom pf (range n) (amr_offset dom)) as [rs [cur|e]];
      reflexivity.
  - unfold keep; simpl; now rewrite oct_add_all_nil.
Qed.

End Submissions.

(** C1.  The container after [_read_amr] of the file of domain [d] is the
    container before it followed by the submissions
    [add(owner_index + 1, level, ng, positions, indices, owner_matrix)] of
    exactly those groups read whose [owner_index + 1 >= d], in reading
    order; a group read with [owner_index + 1 < d] is dropped.  So no
    submission of this reader has an owner below [d]. *)
Theorem read_amr_submits_iff_owner (dom : RAMSESDomainFile) (pf : StaticOutput)
    (w : world) :
  oct_handler (fst (_read_amr dom pf w)) =
    oct_add_all (oct_handler w)
      (map submission
           (filter (fun r => domain_id dom <=? rr_cpu r + 1) (groups_read dom pf)))
  /\ (forall r, In r (groups_read dom pf) ->
        (In r (filter (fun r => domain_id dom <=? rr_cpu r + 1) (groups_read dom pf))
         <-> rr_cpu r + 1 >= domain_id dom))
  /\ Forall (fun a => domain_id dom <= add_owner a)
       (map submission
            (filter (fun r => domain_id dom <=? rr_cpu r + 1) (groups_read dom pf))).
Proof.
  split; [apply read_amr_oct|split].
  - intros r Hr. rewrite filter_In, Z.leb_le. intuition lia.
  - apply Forall_map, Forall_forall. intros r Hr.
    apply filter_In in Hr as [_ Hr]. apply Z.leb_le in Hr. exact Hr.
Qed.

Lemma read_amr_submits_iff_owner_witness :
  map rr_cpu (groups_read examples.dom2_2 examples.pf2) = [0; 1]
  /\ map add_owner
       (oct_added (oct_handler
          (fst (_read_amr examples.dom2_2 examples.pf2 examples.world0)))) = [2].
Proof.
  split; [vm_compute; reflexivity|].
  rewrite (proj1 (read_amr_submits_iff_owner
                    examples.dom2_2 examples.pf2 examples.world0)).
  vm_compute. reflexivity.
Defined.

(** In the two-domain example the left edge is (1, 1, 1) and the width
    (2, 4, 8): the grid stored at (0.5, 0.5, 0.5) is submitted at
    (1, 2, 4). *)
Example positions_not_translated :
  map add_pos
    (oct_added (oct_handler
       (fst (_read_amr examples.dom2_2 examples.pf2 examples.world0))))
  = [[(0.5, 2, 2)%float]]
  /\ map add_pos
       (oct_added (oct_handler
          (fst (_read_amr examples.dom2_1 examples.pf2 examples.world0))))
     = [[(1, 2, 4)%float]; [(0.5, 2, 2)%float]].
Proof. split; vm_compute; reflexivity. Qed.

(** ** Exact consumption of a well-formed file *)

Lemma range_In (n c : Z) : In c (range n) <-> 0 <= c < n.
Proof.
  unfold range. rewrite in_map_iff. split.
  - intros (k & <- & Hk). apply in_seq in Hk. lia.
  - intros H. exists (Z.to_nat c). split; [lia|]. apply in_seq. lia.
Qed.

Section WellFormed.

Variable dom : RAMSESDomainFile.
Variable pf : StaticOutput.
Variables ncpu nlevelmax : Z.
Variables flat ngridbound : list Z.
Variable G : Z -> Z -> layout.raw_group.

(** No boundary domain. *)
Hypothesis Hwf : well_formed dom ncpu nlevelmax 0 flat ngridbound G.

Let n := ngrid ncpu 0 flat ngridbound.
Let f := amr_fn dom.
Let d := domain_id dom.
Let wd := domain_width pf.

Let adds_of (l c : Z) : list add_call :=
  if n l c =? 0 then []
  else if d <=? c + 1 then
    let g := decode_group wd (G l c) in
    [mk_add (c + 1) l (n l c) (g_pos g) (g_ind g) (g_cpu_map g)]
  else [].

Let bytes_of (l c : Z) : list byte :=
  if n l c =? 0 then [] else layout.encode_group (G l c).

Lemma ng_in_bounds (l c : Z) :
  0 <= l < nlevelmax -> 0 <= c < ncpu -> _ng dom c l = Ok (n l c).
Proof.
  intros Hl Hc. destruct Hwf as [H1 _ _ H4 _ _ _ _].
  rewrite (ng_numbl dom ncpu H1 _ c l H4) by lia.
  unfold na.index2, na.norm_index.
  destruct (Z.leb_spec 0 l); [|lia]. destruct (Z.ltb_spec l nlevelmax); [|lia].
  destruct (Z.leb_spec 0 c); [|lia]. destruct (Z.ltb_spec c ncpu); [|lia].
  simpl. unfold n, ngrid. destruct (Z.ltb_spec c ncpu); [reflexivity|lia].
Qed.

Lemma cpu_loop_wf (l : Z) (cs : list Z) :
  0 <= l < nlevelmax -> Forall (fun c => 0 <= c < ncpu) cs ->
  forall (cur : Z) (oct : RAMSESOctreeContainer) (b : list byte),
    tail_at f cur (concat (map (bytes_of l) cs) ++ b) ->
    exists cur',
      cpu_loop dom pf l cs cur oct
        = (oct_add_all oct (flat_map (adds_of l) cs), Ok cur')
      /\ tail_at f cur' b.
Proof.
  intros Hl. induction cs as [|c cs IH]; intros Hcs cur oct b Ht.
  - exists cur. simpl in *. rewrite oct_add_all_nil. auto.
  - inversion Hcs as [|? ? Hc Hcs']; subst.
    cbn [cpu_loop map concat flat_map] in *.
    rewrite (ng_in_bounds l c Hl Hc).
    unfold bytes_of at 1 in Ht. unfold adds_of at 1.
    destruct (Z.eqb_spec (n l c) 0) as [E|E].
    + simpl in Ht. simpl. apply IH; assumption.
    + rewrite <- app_assoc in Ht.
      assert (Hg : layout.wf_group (n l c) (G l c)).
      { apply (wf_groups Hwf); [lia|lia|exact E]. }
      destruct (read_group_encoded f cur (n l c) wd (G l c) _ Ht Hg) as [Er Ht1].
      fold f. fold wd. rewrite Er.
      rewrite (read_group_pos_length dom pf cur (n l c) _ _ Er). cbn [assert].
      fold d.
      destruct (IH Hcs' (cur + group_size (G l c))
                  (if d <=? c + 1
                   then oct_add oct
                          (mk_add (c + 1) l (n l c)
                             (g_pos (decode_group wd (G l c)))
                             (g_ind (decode_group wd (G l c)))
                             (g_cpu_map (decode_group wd (G l c))))
                   else oct) b Ht1) as (cur' & Ec & Ht2).
      exists cur'. split; [|exact Ht2].
      destruct (d <=? c + 1).
      * rewrite Ec, oct_add_all_cons. reflexivity.
      * rewrite Ec. reflexivity.
Qed.

Lemma level_loop_wf (ls : list Z) :
  Forall (fun l => 0 <= l < nlevelmax) ls ->
  forall (cur : Z) (oct : RAMSESOctreeContainer) (b : list byte),
    tail_at f cur
      (concat (map (fun l => concat (map (bytes_of l) (range (0 + ncpu)))) ls) ++ b) ->
    exists cur',
      level_loop dom pf ls cur oct
        = (oct_add_all oct
             (flat_map (fun l => flat_map (adds_of l) (range (0 + ncpu))) ls),
           Ok cur')
      /\ tail_at f cur' b.
Proof.
  induction ls as [|l ls IH]; intros Hls cur oct b Ht.
  - exists cur. simpl in *. rewrite oct_add_all_nil. auto.
  - inversion Hls as [|? ? Hl Hls']; subst.
    cbn [level_loop map concat flat_map] in *.
    rewrite (wf_nboundary Hwf), (wf_ncpu Hwf). cbn [bind].
    rewrite <- app_assoc in Ht.
    assert (Hr : Forall (fun c => 0 <= c < ncpu) (range (0 + ncpu))).
    { apply Forall_forall. intros c Hc. apply range_In in Hc. lia. }
    destruct (cpu_loop_wf l (range (0 + ncpu)) Hl Hr cur oct _ Ht)
      as (cur1 & Ec & Ht1).
    rewrite Ec.
    destruct (IH Hls' cur1
                (oct_add_all oct (flat_map (adds_of l) (range (0 + ncpu)))) b Ht1)
      as (cur' & El & Ht2).
    exists cur'. split; [|exact Ht2].
    rewrite El, oct_add_all_app. reflexivity.
Qed.

(** On a well-formed file without boundary domains [_read_amr] returns
    normally, having read up to the end of the file, and has submitted, in
    order, the accepted groups the file holds. *)
Lemma read_amr_exact (w : world) :
  exists cur,
    level_loop dom pf (range nlevelmax) (amr_offset dom) (oct_handler w)
      = (oct_add_all (oct_handler w)
           (expected_adds d wd n G (range nlevelmax) (range (0 + ncpu))),
         Ok cur)
    /\ cur = file_size f
    /\ snd (_read_amr dom pf w) = Ok tt
    /\ oct_handler (fst (_read_amr dom pf w))
       = oct_add_all (oct_handler w)
           (expected_adds d wd n G (range nlevelmax) (range (0 + ncpu))).
Proof.
  assert (Hr : Forall (fun l => 0 <= l < nlevelmax) (range nlevelmax)).
  { apply Forall_forall. intros l Hl. apply range_In in Hl. exact Hl. }
  assert (Ht : tail_at f (amr_offset dom)
                 (concat (map (fun l => concat (map (bytes_of l) (range (0 + ncpu))))
                              (range nlevelmax)) ++ [])).
  { rewrite app_nil_r. split; [exact (wf_offset Hwf)|exact (wf_body Hwf)]. }
  destruct (level_loop_wf (range nlevelmax) Hr (amr_offset dom) (oct_handler w) [] Ht)
    as (cur & El & Ht1).
  apply tail_at_end in Ht1.
  exists cur. split; [exact El|]. split; [exact Ht1|].
  unfold _read_amr. rewrite (wf_nlevelmax Hwf). cbn [emit oct_handler].
  rewrite El. cbn [fst snd set_oct oct_handler].
  fold f. rewrite Ht1, Z.eqb_refl. split; reflexivity.
Qed.

End WellFormed.

(** When the loops end anywhere but at the end of the file, [_read_amr]
    fails with [AssertionError]; it returns normally only from the end of
    the file. *)
Lemma read_amr_checks_eof (dom : RAMSESDomainFile) (pf : StaticOutput) (w : world)
    (nlevelmax : Z) (oct1 : RAMSESOctreeContainer) (cur : Z) :
  get_int (amr_header dom) "nlevelmax" = Ok nlevelmax ->
  level_loop dom pf (range nlevelmax) (amr_offset dom) (oct_handler w)
    = (oct1, Ok cur) ->
  (cur <> file_size (amr_fn dom) ->
     snd (_read_amr dom pf w) = Raise AssertionError)
  /\ (cur = file_size (amr_fn dom) -> snd (_read_amr dom pf w) = Ok tt).
Proof.
  intros Hn Hl. unfold _read_amr. rewrite Hn. cbn [emit oct_handler].
  rewrite Hl. cbn [snd].
  destruct (Z.eqb_spec cur (file_size (amr_fn dom))); split; intros;
    try contradiction; reflexivity.
Qed.

(** ** The example files *)

Ltac wf_group_example :=
  constructor;
  repeat match goal with
         | |- _ /\ _ => split
         | |- Forall _ _ => constructor
         end;
  vm_compute; reflexivity.

Lemma file2_well_formed (d : Z) :
  d = 1 \/ d = 2 ->
  well_formed (examples.parsed examples.file2 d) 2 1 0 [1; 1] [] examples.groups2.
Proof.
  intros [-> | ->].
  all: constructor;
    [ vm_compute; reflexivity | vm_compute; reflexivity
    | vm_compute; reflexivity | vm_compute; reflexivity
    | lia
    | split; vm_compute; discriminate
    | vm_compute; reflexivity
    | intros l c Hl Hc _;
      assert (l = 0) by lia; assert (c = 0 \/ c = 1) as [Hc0|Hc1] by lia; subst;
      wf_group_example ].
Qed.

(** Both domain files of the example are read to their end. *)
Example file2_read_to_end (d : Z) (w : world) :
  d = 1 \/ d = 2 ->
  snd (_read_amr (examples.parsed examples.file2 d) examples.pf2 w) = Ok tt.
Proof.
  intros Hd.
  destruct (read_amr_exact _ examples.pf2 _ _ _ _ _ (file2_well_formed d Hd) w)
    as (cur & _ & _ & H & _).
  exact H.
Qed.

(** The file of the second domain is read to its end; the replica of the
    first domain's grid is read and dropped. *)
Example file2_exact :
  _read_amr examples.dom2_2 examples.pf2 examples.world0
  = (set_oct (emit examples.world0
                (Log Debug "Reading domain AMR % 4i (%0.3e)" [2; 1]))
       (oct_add_all examples.empty_oct
          [mk_add 2 0 1 [(0.5, 2, 2)%float] [2] (repeat [2] 8)]),
     Ok tt).
Proof. vm_compute. reflexivity. Qed.

(** One byte short, the last record cannot be read; one byte long, the final
    check of the cursor against the end of the file fails. *)
Example file2_one_byte_off :
  snd (_read_amr (examples.parsed examples.file2_truncated 1)
                 examples.pf2 examples.world0) = Raise StructError
  /\ snd (_read_amr (examples.parsed examples.file2_extended 1)
                    examples.pf2 examples.world0) = Raise AssertionError.
Proof. split; vm_compute; reflexivity. Qed.

(** ** The positions submitted *)

Lemma decode_group_positions (w : vec3) (ng : Z) (g : layout.raw_group) :
  layout.wf_group ng g ->
  g_pos (decode_group w g)
  = scaled_rows w ng (decode_vector dt_d (layout.rg_x g))
                     (decode_vector dt_d (layout.rg_y g))
                     (decode_vector dt_d (layout.rg_z g)).
Proof.
  intros Hg. destruct Hg as [Hng _ _ [_ Hx] [_ Hy] [_ Hz] _ _ _ _ _].
  assert (L : forall p, Z.of_nat (length p) = 8 * ng ->
                        length (decode_vector dt_d p) = Z.to_nat ng).
  { intros p Hp. rewrite decode_vector_length, Hp. simpl itemsize.
    rewrite Z.mul_comm, Z.div_mul by lia. reflexivity. }
  pose proof (L _ Hx) as Lx. pose proof (L _ Hy) as Ly. pose proof (L _ Hz) as Lz.
  destruct w as [[w0 w1] w2]. unfold decode_group, scaled_rows. cbn [g_pos fst snd].
  apply nth_error_ext. intros i.
  destruct (Nat.lt_ge_cases i (Z.to_nat ng)) as [Hi|Hi].
  - rewrite scale_rows_nth by lia.
    rewrite nth_error_map.
    rewrite (nth_error_nth' _ O) by (rewrite length_seq; exact Hi).
    rewrite seq_nth by exact Hi. reflexivity.
  - rewrite (proj2 (nth_error_None _ _))
      by (rewrite (scale_rows_length _ _ _ _ (Z.to_nat ng)); assumption).
    rewrite (proj2 (nth_error_None _ _))
      by (rewrite length_map, length_seq; assumption).
    reflexivity.
Qed.

Lemma expected_adds_positions (d : Z) (w : vec3) (n : Z -> Z -> Z)
    (G : Z -> Z -> layout.raw_group) (levels owners : list Z) :
  (forall l c, In l levels -> In c owners -> n l c <> 0 ->
               layout.wf_group (n l c) (G l c)) ->
  map add_pos (expected_adds d w n G levels owners)
  = expected_positions d w n G levels owners.
Proof.
  unfold expected_adds, expected_positions.
  induction levels as [|l levels IH]; intros Hg; [reflexivity|].
  cbn [flat_map]. rewrite map_app.
  rewrite IH by (intros l' c Hl Hc; apply Hg; [right; exact Hl|exact Hc]).
  f_equal.
  assert (Ho : forall c, In c owners -> n l c <> 0 ->
                         layout.wf_group (n l c) (G l c))
    by (intros c Hc; apply Hg; [left; reflexivity|exact Hc]).
  clear IH Hg. induction owners as [|c owners IHo]; [reflexivity|].
  cbn [flat_map]. rewrite map_app.
  rewrite IHo by (intros c' Hc; apply Ho; right; exact Hc).
  f_equal.
  destruct (Z.eqb_spec (n l c) 0) as [E|E]; [reflexivity|].
  destruct (d <=? c + 1); [|reflexivity].
  cbn [map add_pos].
  rewrite (decode_group_positions w (n l c) (G l c))
    by (apply Ho; [left; reflexivity|exact E]).
  reflexivity.
Qed.

(** C5.  The position matrices [_read_amr] hands to the container are the
    double vectors of the file, scaled by [pf.domain_width] and not
    translated.  The submissions are those of the accepted groups among the
    groups the reader goes through, in order; the positions of every group
    are, row by row, the three double vectors found behind the index vector
    and two records at the offset where this group was read, each component
    multiplied by the matching component of the width.  On a well-formed
    file without boundary domains the matrices submitted are, in file
    order, the doubles of the coordinate records of each accepted group
    times the width.  The call depends on the snapshot through the width
    only: another left edge changes nothing. *)
Theorem read_amr_positions_scaled (dom : RAMSESDomainFile) (pf : StaticOutput)
    (w : world) :
  oct_handler (fst (_read_amr dom pf w)) =
    oct_add_all (oct_handler w)
      (map submission
           (filter (accepted (domain_id dom)) (groups_read dom pf)))
  /\ Forall (positions_scaled (amr_fn dom) (domain_width pf))
            (groups_read dom pf)
  /\ (forall ncpu nlevelmax flat ngridbound G,
        well_formed dom ncpu nlevelmax 0 flat ngridbound G ->
        map add_pos (oct_added (oct_handler (fst (_read_amr dom pf w))))
        = map add_pos (oct_added (oct_handler w))
          ++ expected_positions (domain_id dom) (domain_width pf)
               (ngrid ncpu 0 flat ngridbound) G
               (range nlevelmax) (range ncpu))
  /\ (forall pf', domain_width pf' = domain_width pf ->
        _read_amr dom pf' w = _read_amr dom pf w).
Proof.
  split; [apply read_amr_oct|]. split; [|split].
  - unfold groups_read.
    destruct (get_int (amr_header dom) "nlevelmax") as [n|e]; [|constructor].
    apply scan_levels_positions.
  - intros ncpu nlevelmax flat ngridbound G Hwf.
    destruct (read_amr_exact dom pf ncpu nlevelmax flat ngridbound G Hwf w)
      as (cur & _ & _ & _ & Ho).
    rewrite Ho. cbn [oct_add_all oct_added]. rewrite map_app. f_equal.
    apply expected_adds_positions.
    intros l c Hl Hc E. apply range_In in Hl. apply range_In in Hc.
    apply (wf_groups Hwf); [exact Hl|lia|exact E].
  - intros pf' Hw. unfold _read_amr.
    destruct (get_int (amr_header dom) "nlevelmax") as [n|e]; [|reflexivity].
    assert (Hc : forall level cpus cur oct,
               cpu_loop dom pf' level cpus cur oct = cpu_loop dom pf level cpus cur oct).
    { intros level cpus. induction cpus as [|cpu rest IH]; intros cur oct;
        cbn [cpu_loop]; [reflexivity|].
      rewrite Hw. destruct (_ng dom cpu level) as [ng|e]; [|reflexivity].
      destruct (ng =? 0); [apply IH|].
      destruct (read_group _ _ _ _) as [[g cur1]|e]; [|reflexivity].
      destruct (domain_id dom <=? cpu + 1); [|apply IH].
      destruct (assert _); [apply IH|reflexivity]. }
    assert (Hl : forall levels cur oct,
               level_loop dom pf' levels cur oct = level_loop dom pf levels cur oct).
    { intros levels. induction levels as [|level rest IH]; intros cur oct;
        cbn [level_loop]; [reflexivity|].
      destruct (bind _ _) as [m|e]; [|reflexivity].
      rewrite Hc. destruct (cpu_loop _ _ _ _ _ _) as [oct1 [cur1|e]];
        [apply IH|reflexivity]. }
    rewrite Hl. reflexivity.
Qed.

(** The first domain of the two-domain example: the grids stored at
    (0.5, 0.5, 0.5) and (0.25, 0.5, 0.25) are submitted at (1, 2, 4) and
    (0.5, 2, 2) for the width (2, 4, 8), whatever the left edge. *)
Lemma read_amr_positions_scaled_witness :
  map add_pos
    (oct_added (oct_handler
       (fst (_read_amr examples.dom2_1 examples.pf2 examples.world0))))
  = [[(1, 2, 4)%float]; [(0.5, 2, 2)%float]]
  /\ map rr_cur (groups_read examples.dom2_1 examples.pf2)
     = [Z.of_nat (length (examples.header_bytes 2 1 0 [1; 1] []));
        Z.of_nat (length (examples.header_bytes 2 1 0 [1; 1] []))
        + group_size (examples.groups2 0 0)]
  /\ Forall (positions_scaled (amr_fn examples.dom2_1)
                              (domain_width examples.pf2))
            (groups_read examples.dom2_1 examples.pf2)
  /\ _read_amr examples.dom2_1 examples.pf2_shifted examples.world0
     = _read_amr examples.dom2_1 examples.pf2 examples.world0.
Proof.
  destruct (read_amr_positions_scaled examples.dom2_1 examples.pf2
              examples.world0) as (_ & H2 & H3 & H4).
  split; [|split; [|split]].
  - rewrite (H3 2 1 [1; 1] [] examples.groups2
               (file2_well_formed 1 (or_introl eq_refl))).
    vm_compute. reflexivity.
  - vm_compute. reflexivity.
  - exact H2.
  - apply H4. reflexivity.
Defined.

(** ** Boundary domains *)

Lemma cpu_loop_raises (dom : RAMSESDomainFile) (pf : StaticOutput) (level c : Z)
    (e : pyerr) (cpus : list Z) :
  In c cpus -> _ng dom c level = Raise e ->
  forall (cur : Z) (oct : RAMSESOctreeContainer),
    exists e', snd (cpu_loop dom pf level cpus cur oct) = Raise e'.
Proof.
  intros Hin Hng. induction cpus as [|c0 rest IH]; [contradiction|].
  intros cur oct. cbn [cpu_loop].
  destruct Hin as [->|Hin].
  - rewrite Hng. eexists. reflexivity.
  - destruct (_ng dom c0 level) as [ng|e0]; [|eexists; reflexivity].
    destruct (ng =? 0); [apply IH; exact Hin|].
    destruct (read_group _ _ _ _) as [[g cur1]|e1]; [|eexists; reflexivity].
    destruct (domain_id dom <=? c0 + 1); [|apply IH; exact Hin].
    destruct (assert _); [apply IH; exact Hin|eexists; reflexivity].
Qed.

(** With a boundary domain and at least one level, [_read_amr] never returns
    normally, whatever the file holds. *)
Lemma read_amr_boundary_never_returns (dom : RAMSESDomainFile) (pf : StaticOutput)
    (w : world) (ncpu nlevelmax nboundary : Z) :
  get_int (amr_header dom) "ncpu" = Ok ncpu ->
  get_int (amr_header dom) "nlevelmax" = Ok nlevelmax ->
  get_int (amr_header dom) "nboundary" = Ok nboundary ->
  0 <= ncpu -> 0 < nlevelmax -> 0 < nboundary ->
  exists e, snd (_read_amr dom pf w) = Raise e.
Proof.
  intros Hc Hl Hb H0 H1 H2. unfold _read_amr. rewrite Hl.
  cbn [emit oct_handler].
  assert (Hr : range nlevelmax = 0 :: map Z.of_nat (seq 1 (Z.to_nat nlevelmax - 1))).
  { unfold range. destruct (Z.to_nat nlevelmax) as [|k] eqn:E; [lia|].
    simpl. now rewrite Nat.sub_0_r. }
  rewrite Hr. cbn [level_loop]. rewrite Hb, Hc. cbn [bind].
  assert (Hin : In ncpu (range (nboundary + ncpu))) by (apply range_In; lia).
  match goal with |- context [cpu_loop dom pf 0 ?cs ?cur ?oct] =>
    destruct (cpu_loop_raises dom pf 0 ncpu NameError cs Hin
                (ng_boundary dom ncpu Hc ncpu 0 ltac:(lia)) cur oct) as [e He];
    destruct (cpu_loop dom pf 0 cs cur oct) as [oct1 r]
  end.
  simpl in He. subst r. exists e. reflexivity.
Qed.

(** C2.  [examples.file_boundary] is a well-formed file: one real domain,
    one boundary domain, one level, and behind its header the group of each
    of the two owners, nothing else.  Its header parses.  [_read_amr] does
    not reach the end of the file: after the group of the real domain the
    lookup of the boundary count raises [NameError]. *)
Theorem read_amr_boundary_file_fails :
  _read_amr_header examples.schema examples.file_boundary 1
    = Ok examples.dom_boundary
  /\ well_formed examples.dom_boundary 1 1 1 [1] [1] examples.groups2
  /\ snd (_read_amr examples.dom_boundary examples.pf_boundary examples.world0)
     = Raise NameError.
Proof.
  split; [vm_compute; reflexivity|split].
  - constructor;
      [ vm_compute; reflexivity | vm_compute; reflexivity
      | vm_compute; reflexivity | vm_compute; reflexivity
      | lia
      | split; vm_compute; discriminate
      | vm_compute; reflexivity
      | intros l c Hl Hc _;
        assert (l = 0) by lia; assert (c = 0 \/ c = 1) as [Hc0|Hc1] by lia; subst;
        wf_group_example ].
  - vm_compute. reflexivity.
Qed.

(** ** The header and [amr_offset] *)

Lemma after_records_add (f : file) (a b : nat) :
  forall cur c1 c2,
    after_records f cur a = Some c1 -> after_records f c1 b = Some c2 ->
    after_records f cur (a + b) = Some c2.
Proof.
  induction a as [|a IH]; intros cur c1 c2 Ha Hb; simpl in *.
  - injection Ha as <-. exact Hb.
  - destruct (fpu.read_marker f cur) as [ss|e]; [|discriminate].
    eapply IH; eassumption.
Qed.

Lemma read_record_step (f : file) (cur : Z) (p : list byte) (cur' : Z) :
  fpu.read_record f cur = Ok (p, cur') ->
  after_records f cur 1 = Some cur' /\ cur' = cur + frame_size p.
Proof.
  unfold fpu.read_record. intros H.
  inv_bind H. rename a into ss. simpl. rewrite E.
  destruct (Z.eqb_spec (Z.of_nat (length (f_read f (cur + 4) ss))) ss) as [El|];
    [|discriminate].
  simpl in H. inv_bind H.
  destruct (a =? ss); [|discriminate]. simpl in H.
  injection H as <- <-. unfold frame_size. split; [reflexivity|lia].
Qed.

Lemma skip_steps (f : file) (n : nat) :
  forall cur cur', fpu.skip f cur n = Ok cur' -> after_records f cur n = Some cur'.
Proof.
  induction n as [|n IH]; intros cur cur' H.
  - simpl in *. congruence.
  - cbn [fpu.skip] in H. inv_bind H. destruct a as [p c1].
    apply read_record_step in E as [E _].
    apply IH in H. exact (after_records_add f 1 n cur c1 cur' E H).
Qed.

Lemma read_vector_step {A} (t : dtype A) (f : file) (cur : Z) (v : list A)
    (cur' : Z) :
  fpu.read_vector f cur t = Ok (v, cur') -> after_records f cur 1 = Some cur'.
Proof.
  unfold fpu.read_vector. intros H. inv_bind H. destruct a as [p c1].
  destruct (negb _); [discriminate|]. injection H as _ <-.
  apply read_record_step in E as [E _]. exact E.
Qed.

Lemma read_attrs_steps (f : file) (attrs : list attr) :
  forall cur vv cur',
    fpu.read_attrs f cur attrs = Ok (vv, cur') ->
    after_records f cur (length attrs) = Some cur'.
Proof.
  induction attrs as [|[[a n] t] rest IH]; intros cur vv cur' H.
  - simpl in *. congruence.
  - cbn [fpu.read_attrs] in H. inv_bind H. destruct a0 as [p c1].
    destruct (negb _); [discriminate|].
    inv_bind H. destruct a0 as [vv1 c2]. injection H as _ <-.
    apply read_record_step in E as [E _]. apply IH in E0.
    exact (after_records_add f 1 (length rest) cur c1 c2 E E0).
Qed.

Lemma column_of_ng (dom : RAMSESDomainFile) (nlevelmax ncpu : Z) (flat : list Z)
    (c : Z) (col : list Z) :
  get_int (amr_header dom) "ncpu" = Ok ncpu ->
  dict_get (amr_header dom) "numbl" = Ok (PArray2 nlevelmax ncpu flat) ->
  0 <= c < ncpu ->
  na.column (PArray2 nlevelmax ncpu flat) c = Ok col ->
  Forall2 (fun l v => _ng dom c l = Ok v) (range nlevelmax) col.
Proof.
  intros Hc Hn Hb. unfold na.column, na.norm_index.
  destruct (Z.leb_spec 0 c); [|lia]. destruct (Z.ltb_spec c ncpu); [|lia].
  simpl. intros [= <-]. unfold range.
  assert (Hs : Forall (fun r => (r < Z.to_nat nlevelmax)%nat)
                      (seq 0 (Z.to_nat nlevelmax))).
  { apply Forall_forall. intros r Hr. apply in_seq in Hr. lia. }
  induction Hs as [|r rs Hr Hrs IH]; simpl; constructor; [|exact IH].
  rewrite (ng_numbl dom ncpu Hc _ c (Z.of_nat r) Hn) by lia.
  unfold na.index2, na.norm_index.
  destruct (Z.leb_spec 0 (Z.of_nat r)); [|lia].
  destruct (Z.ltb_spec (Z.of_nat r) nlevelmax); [|lia].
  destruct (Z.leb_spec 0 c); [|lia]. destruct (Z.ltb_spec c ncpu); [|lia].
  reflexivity.
Qed.

(** C4.  When [_read_amr_header] succeeds, [amr_offset] is the offset reached
    from the end of the schema groups by stepping over one record, then,
    when [nboundary > 0], two records and the record of [ngridbound], then
    the record of [free_mem], the record of [ordering] and four more
    records; the cursor stayed within reach of the file.  [local_oct_count]
    is the sum of column [domain_id - 1] of [numbl], that is, for a domain
    id in [1, ncpu], the sum over the levels of the grid counts [_ng] of
    owner [domain_id - 1]. *)
Theorem read_amr_header_offset (schema : header_schema) (f : file) (d : Z)
    (dom : RAMSESDomainFile) :
  _read_amr_header schema f d = Ok dom ->
  exists hvals c0 nlevelmax ncpu nboundary flat col,
    read_schema f 0 schema [] = Ok (hvals, c0)
    /\ get_int hvals "nlevelmax" = Ok nlevelmax
    /\ get_int hvals "ncpu" = Ok ncpu
    /\ get_int hvals "nboundary" = Ok nboundary
    /\ amr_header dom = dict_set hvals "numbl" (PArray2 nlevelmax ncpu flat)
    /\ domain_id dom = d /\ amr_fn dom = f
    /\ after_records f c0 (1 + (if 0 <? nboundary then 3 else 0) + 1 + 1 + 4)
       = Some (amr_offset dom)
    /\ na.column (PArray2 nlevelmax ncpu flat) (d - 1) = Ok col
    /\ local_oct_count dom = na.sum col
    /\ (1 <= d <= ncpu ->
        Forall2 (fun l v => _ng dom (d - 1) l = Ok v) (range nlevelmax) col).
Proof.
  unfold _read_amr_header. intros H.
  bind_inv H as a Es. destruct a as [hvals c0].
  bind_inv H as numbl0 En0. bind_inv H as flat Ea.
  bind_inv H as nlevelmax El. bind_inv H as ncpu Ec.
  bind_inv H as numbl Er.
  bind_inv H as cur1 Ek1.
  bind_inv H as nboundary Eb.
  bind_inv H as cur2 Eif.
  bind_inv H as a Ef. destruct a as [free_mem cur3].
  bind_inv H as a Eo. destruct a as [ordering cur4].
  bind_inv H as cur5 Ek4.
  bind_inv H as col Ecol.
  injection H as <-.
  assert (Hnumbl : numbl = PArray2 nlevelmax ncpu flat).
  { unfold na.reshape in Er. destruct (_ && _); congruence. }
  subst numbl.
  assert (Hnb : get_int hvals "nboundary" = Ok nboundary).
  { unfold get_int, dict_set in Eb. simpl in Eb. exact Eb. }
  exists hvals, c0, nlevelmax, ncpu, nboundary, flat, col. simpl.
  repeat (split; [assumption || reflexivity|]).
  split; [|split; [exact Ecol|split; [reflexivity|]]].
  - apply skip_steps in Ek1. apply read_attrs_steps in Ef.
    apply read_vector_step in Eo. apply skip_steps in Ek4.
    assert (Hb : after_records f cur1 (if 0 <? nboundary then 3 else 0) = Some cur2).
    { destruct (0 <? nboundary).
      - bind_inv Eif as c Ek2. bind_inv Eif as a Ev.
        destruct a as [ngridbound c'].
        injection Eif as <-. apply skip_steps in Ek2.
        apply read_vector_step in Ev.
        exact (after_records_add f 2 1 cur1 c c' Ek2 Ev).
      - injection Eif as <-. reflexivity. }
    simpl length in Ef.
    pose proof (after_records_add f _ _ _ _ _ Ek1 Hb) as S1.
    pose proof (after_records_add f _ _ _ _ _ S1 Ef) as S2.
    pose proof (after_records_add f _ _ _ _ _ S2 Eo) as S3.
    exact (after_records_add f _ _ _ _ _ S3 Ek4).
  - intros Hd.
    apply (column_of_ng _ nlevelmax ncpu flat (d - 1) col); simpl.
    + unfold get_int, dict_set. simpl. exact Ec.
    + reflexivity.
    + lia.
    + exact Ecol.
Qed.

Lemma read_amr_header_offset_witness :
  amr_offset examples.dom2_1 = 183
  /\ amr_offset examples.dom2_1
     = Z.of_nat (length (examples.header_bytes 2 1 0 [1; 1] []))
  /\ local_oct_count examples.dom2_1 = 1
  /\ after_records examples.file2 0 14 = Some 183.
Proof.
  destruct (read_amr_header_offset examples.schema examples.file2 1
              examples.dom2_1 ltac:(vm_compute; reflexivity))
    as (hvals & c0 & nl & nc & nb & flat & col & _).
  vm_compute. repeat split.
Defined.

Lemma count_terminates_witness :
  count 1 examples.sel_a examples.reader0 = None
  /\ exists r, forall k, count (S (S k)) examples.sel_a examples.reader0 = Some r.
Proof.
  destruct (count_terminates examples.sel_a examples.reader0) as (H1 & H2 & _).
  split; [|exact H1].
  apply H2. vm_compute. discriminate.
Defined.

(** * Further properties *)

(** ** A read that succeeds on a file succeeds alike on any extension *)

Lemma f_read_prefix (f x : file) (cur n : Z) :
  Z.of_nat (length (f_read f cur n)) = n ->
  f_read (f ++ x) cur n = f_read f cur n.
Proof.
  unfold f_read. intros H.
  rewrite skipn_app, firstn_app.
  rewrite length_firstn in H.
  replace (Z.to_nat n - length (skipn (Z.to_nat cur) f))%nat with 0%nat by lia.
  simpl. apply app_nil_r.
Qed.

Lemma read_marker_prefix (f x : file) (cur ss : Z) :
  fpu.read_marker f cur = Ok ss -> fpu.read_marker (f ++ x) cur = Ok ss.
Proof.
  unfold fpu.read_marker.
  destruct (Z.eqb_spec (Z.of_nat (length (f_read f cur 4))) 4) as [E|];
    [|discriminate].
  intros H. rewrite (f_read_prefix f x cur 4 E).
  rewrite E. exact H.
Qed.

Lemma read_record_prefix (f x : file) (cur : Z) (r : list byte * Z) :
  fpu.read_record f cur = Ok r -> fpu.read_record (f ++ x) cur = Ok r.
Proof.
  unfold fpu.read_record. intros H.
  bind_inv H as ss Em. rewrite (read_marker_prefix f x cur ss Em). cbn [bind].
  destruct (Z.eqb_spec (Z.of_nat (length (f_read f (cur + 4) ss))) ss) as [E|];
    [|discriminate].
  rewrite (f_read_prefix f x (cur + 4) ss E).
  rewrite E, Z.eqb_refl. cbn [negb] in *.
  bind_inv H as ss2 Em2. rewrite (read_marker_prefix f x _ ss2 Em2). cbn [bind].
  exact H.
Qed.

Lemma skip_prefix (f x : file) (n : nat) :
  forall cur cur', fpu.skip f cur n = Ok cur' -> fpu.skip (f ++ x) cur n = Ok cur'.
Proof.
  induction n as [|n IH]; intros cur cur' H; [exact H|].
  cbn [fpu.skip] in *. bind_inv H as a E.
  rewrite (read_record_prefix f x cur a E). cbn [bind].
  destruct a as [p c1]. apply IH. exact H.
Qed.

Lemma read_vector_prefix {A} (t : dtype A) (f x : file) (cur : Z)
    (r : list A * Z) :
  fpu.read_vector f cur t = Ok r -> fpu.read_vector (f ++ x) cur t = Ok r.
Proof.
  unfold fpu.read_vector. intros H. bind_inv H as a E.
  rewrite (read_record_prefix f x cur a E). cbn [bind]. exact H.
Qed.

Lemma read_columns_prefix (f x : file) (ng : Z) (n : nat) :
  forall cur r, read_columns f cur ng n = Ok r ->
                read_columns (f ++ x) cur ng n = Ok r.
Proof.
  induction n as [|n IH]; intros cur r H; [exact H|].
  cbn [read_columns] in *. bind_inv H as a E.
  rewrite (read_vector_prefix dt_I f x cur a E). cbn [bind].
  destruct a as [v c1]. bind_inv H as col Ec. rewrite Ec. cbn [bind].
  bind_inv H as a E2. rewrite (IH c1 a E2). cbn [bind]. exact H.
Qed.

Ltac prefix_step H x :=
  let a := fresh "a" in
  let E := fresh "E" in
  apply bind_ok in H as (a & E & H);
  first [ rewrite (read_vector_prefix _ _ x _ _ E)
        | rewrite (skip_prefix _ x _ _ _ E)
        | rewrite (read_columns_prefix _ x _ _ _ _ E)
        | rewrite E ];
  cbn [bind];
  match type of a with
  | (_ * _)%type => destruct a
  | _ => idtac
  end.

Lemma read_group_prefix (f x : file) (cur ng : Z) (w : vec3) (r : group * Z) :
  read_group f cur ng w = Ok r -> read_group (f ++ x) cur ng w = Ok r.
Proof.
  unfold read_group. intros H.
  repeat (prefix_step H x).
  exact H.
Qed.

Lemma with_file_same (dom : RAMSESDomainFile) : with_file dom (amr_fn dom) = dom.
Proof. destruct dom. reflexivity. Qed.

Section Extension.

Variable dom : RAMSESDomainFile.
Variable pf : StaticOutput.
Variable x : file.

Let dom_x := with_file dom (amr_fn dom ++ x).

Lemma cpu_loop_extension (level : Z) (cpus : list Z) :
  forall cur oct oct1 cur1,
    cpu_loop dom pf level cpus cur oct = (oct1, Ok cur1) ->
    cpu_loop dom_x pf level cpus cur oct = (oct1, Ok cur1).
Proof.
  induction cpus as [|cpu rest IH]; intros cur oct oct1 cur1 H; [exact H|].
  cbn [cpu_loop] in *.
  change (_ng dom_x cpu level) with (_ng dom cpu level).
  destruct (_ng dom cpu level) as [ng|e]; [|discriminate].
  destruct (ng =? 0); [apply IH; exact H|].
  change (amr_fn dom_x) with (amr_fn dom ++ x).
  change (domain_id dom_x) with (domain_id dom).
  destruct (read_group (amr_fn dom) cur ng (domain_width pf)) as [[g c1]|e] eqn:Eg;
    [|discriminate].
  rewrite (read_group_prefix _ x _ _ _ _ Eg).
  destruct (domain_id dom <=? cpu + 1); [|apply IH; exact H].
  destruct (assert _); [apply IH; exact H|discriminate].
Qed.

Lemma level_loop_extension (levels : list Z) :
  forall cur oct oct1 cur1,
    level_loop dom pf levels cur oct = (oct1, Ok cur1) ->
    level_loop dom_x pf levels cur oct = (oct1, Ok cur1).
Proof.
  induction levels as [|level rest IH]; intros cur oct oct1 cur1 H; [exact H|].
  cbn [level_loop] in *.
  change (amr_header dom_x) with (amr_header dom).
  destruct (bind _ _) as [n|e]; [|discriminate].
  destruct (cpu_loop dom pf level (range n) cur oct) as [oct2 [c2|e]] eqn:Ec;
    [|discriminate].
  rewrite (cpu_loop_extension _ _ _ _ _ _ Ec). apply IH. exact H.
Qed.

End Extension.

(** ** Files that are well formed, too long, too short *)

(** X1.  On a well-formed file without boundary domains [_read_amr] writes
    its debug line, submits to the container, in file order, the decoded
    group of every [(level, owner)] pair with a non-zero grid count and
    [owner + 1 >= domain_id], and returns normally. *)
Theorem read_amr_well_formed (dom : RAMSESDomainFile) (pf : StaticOutput)
    (ncpu nlevelmax : Z) (flat ngridbound : list Z)
    (G : Z -> Z -> layout.raw_group) (w : world) :
  well_formed dom ncpu nlevelmax 0 flat ngridbound G ->
  _read_amr dom pf w =
    (set_oct (emit w (Log Debug "Reading domain AMR % 4i (%0.3e)"
                          [domain_id dom; local_oct_count dom]))
       (oct_add_all (oct_handler w)
          (expected_adds (domain_id dom) (domain_width pf)
             (ngrid ncpu 0 flat ngridbound) G (range nlevelmax) (range ncpu))),
     Ok tt).
Proof.
  intros Hwf.
  destruct (read_amr_exact dom pf ncpu nlevelmax flat ngridbound G Hwf w)
    as (cur & El & Hc & _).
  unfold _read_amr. rewrite (wf_nlevelmax Hwf). cbn [emit oct_handler].
  rewrite El, Hc, Z.eqb_refl. reflexivity.
Qed.

Lemma read_amr_well_formed_witness :
  snd (_read_amr examples.dom2_1 examples.pf2 examples.world0) = Ok tt
  /\ map add_owner
       (oct_added (oct_handler
          (fst (_read_amr examples.dom2_1 examples.pf2 examples.world0)))) = [1; 2].
Proof.
  rewrite (read_amr_well_formed examples.dom2_1 examples.pf2 2 1 [1; 1] []
             examples.groups2 examples.world0
             (file2_well_formed 1 (or_introl eq_refl))).
  split; [reflexivity|vm_compute; reflexivity].
Defined.

(** With no level to read, a well-formed file ends where its header
    ends. *)
Lemma well_formed_no_level (dom : RAMSESDomainFile) (ncpu nboundary : Z)
    (flat ngridbound : list Z) (G : Z -> Z -> layout.raw_group) :
  well_formed dom ncpu 0 nboundary flat ngridbound G ->
  amr_offset dom = file_size (amr_fn dom).
Proof.
  intros Hwf. pose proof (wf_offset Hwf) as Ho. pose proof (wf_body Hwf) as Hb.
  cbn in Hb. apply (f_equal (@length byte)) in Hb.
  rewrite length_skipn in Hb. cbn [length] in Hb.
  unfold file_size in *. lia.
Qed.

(** With boundary domains, a file of another size than the well-formed one
    is rejected as well. *)
Lemma read_amr_boundary_resized (dom : RAMSESDomainFile) (pf : StaticOutput)
    (ncpu nlevelmax nboundary : Z) (flat ngridbound : list Z)
    (G : Z -> Z -> layout.raw_group) (w : world) (f' : file) :
  well_formed dom ncpu nlevelmax nboundary flat ngridbound G ->
  nboundary <> 0 ->
  file_size f' <> file_size (amr_fn dom) ->
  exists e, snd (_read_amr (with_file dom f') pf w) = Raise e.
Proof.
  intros Hwf Hb Hs. pose proof (wf_dims Hwf) as (Hl & Hc & Hb0).
  destruct (Z.eq_dec nlevelmax 0) as [E|E].
  - subst nlevelmax. exists AssertionError.
    unfold _read_amr.
    change (amr_header (with_file dom f')) with (amr_header dom).
    rewrite (wf_nlevelmax Hwf). cbn [emit oct_handler].
    change (range 0) with (@nil Z). cbn [level_loop snd].
    change (amr_offset (with_file dom f')) with (amr_offset dom).
    change (amr_fn (with_file dom f')) with f'.
    rewrite (well_formed_no_level _ _ _ _ _ _ Hwf).
    replace (file_size (amr_fn dom) =? file_size f') with false; [reflexivity|].
    symmetry. apply Z.eqb_neq. congruence.
  - apply (read_amr_boundary_never_returns (with_file dom f') pf w
             ncpu nlevelmax nboundary);
      [exact (wf_ncpu Hwf)|exact (wf_nlevelmax Hwf)|exact (wf_nboundary Hwf)
      |lia|lia|lia].
Qed.

Lemma file_boundary_well_formed :
  well_formed examples.dom_boundary 1 1 1 [1] [1] examples.groups2.
Proof.
  constructor;
    [ vm_compute; reflexivity | vm_compute; reflexivity
    | vm_compute; reflexivity | vm_compute; reflexivity
    | lia
    | split; vm_compute; discriminate
    | vm_compute; reflexivity
    | intros l c Hl Hc _;
      assert (l = 0) by lia; assert (c = 0 \/ c = 1) as [Hc0|Hc1] by lia; subst;
      wf_group_example ].
Qed.

(** X2.  Bytes behind the last group of a well-formed file make
    [_read_amr] raise.  Without boundary domains they are found only at the
    end: every accepted group is submitted to the container as for the
    well-formed file, and then the call fails with [AssertionError]. *)
Theorem read_amr_oversized (dom : RAMSESDomainFile) (pf : StaticOutput)
    (ncpu nlevelmax nboundary : Z) (flat ngridbound : list Z)
    (G : Z -> Z -> layout.raw_group) (w : world) (x : file) :
  well_formed dom ncpu nlevelmax nboundary flat ngridbound G ->
  x <> [] ->
  (exists e,
     snd (_read_amr (with_file dom (amr_fn dom ++ x)) pf w) = Raise e)
  /\ (nboundary = 0 ->
      _read_amr (with_file dom (amr_fn dom ++ x)) pf w =
        (set_oct (emit w (Log Debug "Reading domain AMR % 4i (%0.3e)"
                              [domain_id dom; local_oct_count dom]))
           (oct_add_all (oct_handler w)
              (expected_adds (domain_id dom) (domain_width pf)
                 (ngrid ncpu 0 flat ngridbound) G
                 (range nlevelmax) (range ncpu))),
         Raise AssertionError)).
Proof.
  intros Hwf Hx.
  assert (Hs : file_size (amr_fn dom ++ x) <> file_size (amr_fn dom)).
  { unfold file_size. rewrite length_app. destruct x; [congruence|simpl; lia]. }
  assert (H0 : nboundary = 0 ->
      _read_amr (with_file dom (amr_fn dom ++ x)) pf w =
        (set_oct (emit w (Log Debug "Reading domain AMR % 4i (%0.3e)"
                              [domain_id dom; local_oct_count dom]))
           (oct_add_all (oct_handler w)
              (expected_adds (domain_id dom) (domain_width pf)
                 (ngrid ncpu 0 flat ngridbound) G
                 (range nlevelmax) (range ncpu))),
         Raise AssertionError)).
  { intros Hb. subst nboundary.
    destruct (read_amr_exact dom pf ncpu nlevelmax flat ngridbound G Hwf w)
      as (cur & El & Hc & _).
    apply (level_loop_extension dom pf x) in El.
    unfold _read_amr.
    change (amr_header (with_file dom (amr_fn dom ++ x))) with (amr_header dom).
    rewrite (wf_nlevelmax Hwf). cbn [emit oct_handler].
    change (amr_offset (with_file dom (amr_fn dom ++ x))) with (amr_offset dom).
    rewrite El. cbn [with_file amr_fn domain_id local_oct_count].
    replace (cur =? file_size (amr_fn dom ++ x)) with false; [reflexivity|].
    symmetry. apply Z.eqb_neq. subst cur. congruence. }
  split; [|exact H0].
  destruct (Z.eq_dec nboundary 0) as [Hb|Hb].
  - rewrite (H0 Hb). exists AssertionError. reflexivity.
  - exact (read_amr_boundary_resized dom pf ncpu nlevelmax nboundary flat
             ngridbound G w _ Hwf Hb Hs).
Qed.

Lemma read_amr_oversized_witness :
  _read_amr (with_file examples.dom2_1 (examples.file2 ++ [x00]))
            examples.pf2 examples.world0
  = (set_oct (emit examples.world0
                (Log Debug "Reading domain AMR % 4i (%0.3e)" [1; 1]))
       (oct_add_all examples.empty_oct
          [mk_add 1 0 1 [(1, 2, 4)%float] [1] (repeat [1] 8);
           mk_add 2 0 1 [(0.5, 2, 2)%float] [2] (repeat [2] 8)]),
     Raise AssertionError)
  /\ exists e,
       snd (_read_amr (with_file examples.dom_boundary
                         (examples.file_boundary ++ [x00]))
                      examples.pf_boundary examples.world0) = Raise e.
Proof.
  split.
  - change (examples.file2 ++ [x00]) with (amr_fn examples.dom2_1 ++ [x00]).
    rewrite (proj2 (read_amr_oversized examples.dom2_1 examples.pf2 2 1 0
                      [1; 1] [] examples.groups2 examples.world0 [x00]
                      (file2_well_formed 1 (or_introl eq_refl))
                      ltac:(discriminate)) eq_refl).
    vm_compute. reflexivity.
  - change (examples.file_boundary ++ [x00])
      with (amr_fn examples.dom_boundary ++ [x00]).
    apply (read_amr_oversized examples.dom_boundary examples.pf_boundary 1 1 1
             [1] [1] examples.groups2 examples.world0 [x00]
             file_boundary_well_formed).
    discriminate.
Defined.

(** X3.  Cut short by any number of bytes, a well-formed file is rejected,
    with or without boundary domains: over a proper prefix of it
    [_read_amr] raises an error. *)
Theorem read_amr_truncated (dom : RAMSESDomainFile) (pf : StaticOutput)
    (ncpu nlevelmax nboundary : Z) (flat ngridbound : list Z)
    (G : Z -> Z -> layout.raw_group) (w : world) (f' x : file) :
  well_formed dom ncpu nlevelmax nboundary flat ngridbound G ->
  amr_fn dom = f' ++ x -> x <> [] ->
  exists e, snd (_read_amr (with_file dom f') pf w) = Raise e.
Proof.
  intros Hwf Hf Hx.
  assert (Hs : file_size f' <> file_size (amr_fn dom)).
  { rewrite Hf. unfold file_size. rewrite length_app.
    destruct x; [congruence|simpl; lia]. }
  destruct (Z.eq_dec nboundary 0) as [Hb|Hb];
    [|exact (read_amr_boundary_resized dom pf ncpu nlevelmax nboundary flat
               ngridbound G w f' Hwf Hb Hs)].
  subst nboundary.
  destruct (read_amr_exact dom pf ncpu nlevelmax flat ngridbound G Hwf w)
    as (cur & El & Hc & _).
  unfold _read_amr.
  change (amr_header (with_file dom f')) with (amr_header dom).
  rewrite (wf_nlevelmax Hwf). cbn [emit oct_handler].
  change (amr_offset (with_file dom f')) with (amr_offset dom).
  destruct (level_loop (with_file dom f') pf (range nlevelmax) (amr_offset dom)
              (oct_handler w)) as [oct1 [c1|e]] eqn:E1;
    [|exists e; reflexivity].
  apply (level_loop_extension (with_file dom f') pf x) in E1.
  change (with_file (with_file dom f') (amr_fn (with_file dom f') ++ x))
    with (with_file dom (f' ++ x)) in E1.
  rewrite <- Hf, with_file_same in E1.
  rewrite El in E1. injection E1 as _ <-.
  exists AssertionError. cbn [snd with_file amr_fn].
  replace (cur =? file_size f') with false; [reflexivity|].
  symmetry. apply Z.eqb_neq. subst cur. congruence.
Qed.

Lemma read_amr_truncated_witness :
  (exists e, snd (_read_amr (with_file examples.dom2_1 examples.file2_truncated)
                            examples.pf2 examples.world0) = Raise e)
  /\ (exists e,
        snd (_read_amr (with_file examples.dom_boundary
                          (removelast examples.file_boundary))
                       examples.pf_boundary examples.world0) = Raise e).
Proof.
  split.
  - apply (read_amr_truncated examples.dom2_1 examples.pf2 2 1 0 [1; 1] []
             examples.groups2 examples.world0 examples.file2_truncated [x00]
             (file2_well_formed 1 (or_introl eq_refl))).
    + vm_compute. reflexivity.
    + discriminate.
  - apply (read_amr_truncated examples.dom_boundary examples.pf_boundary
             1 1 1 [1] [1] examples.groups2 examples.world0
             (removelast examples.file_boundary) [x00]
             file_boundary_well_formed).
    + vm_compute. reflexivity.
    + discriminate.
Defined.

(** ** What every group read looks like *)

Lemma read_columns_shape (f : file) (ng : Z) (n : nat) :
  0 <= ng ->
  forall cur cols cur',
    read_columns f cur ng n = Ok (cols, cur') ->
    length cols = n /\ Forall (fun c => Z.of_nat (length c) = ng) cols.
Proof.
  intros Hng. induction n as [|n IH]; intros cur cols cur' H.
  - injection H as <- _. split; [reflexivity|constructor].
  - cbn [read_columns] in H. bind_inv H as a Ev. destruct a as [v c1].
    bind_inv H as col Ec. bind_inv H as a Er. destruct a as [rest c2].
    injection H as <- _. destruct (IH _ _ _ Er) as [Hl Hf].
    split; [simpl; congruence|].
    constructor; [|exact Hf].
    exact (assign_column_length ng v col Hng Ec).
Qed.

Lemma read_group_shape (f : file) (cur ng : Z) (w : vec3) (g : group) (cur' : Z) :
  read_group f cur ng w = Ok (g, cur') ->
  0 <= ng
  /\ Z.of_nat (length (g_pos g)) = ng
  /\ length (g_cpu_map g) = 8%nat
  /\ Forall (fun c => Z.of_nat (length c) = ng) (g_cpu_map g).
Proof.
  intros H.
  pose proof (read_group_positions f cur ng w g cur' 0 0 H)
    as (? & ? & ? & ? & ? & ? & ? & ? & ? & _ & _ & _ & _ & _ & Hlen & _).
  simpl in Hlen.
  pose proof (read_group_inv f cur ng w g cur' H)
    as (? & ? & ? & ? & ? & ? & ? & ? & ? & ? & ? & ? & _ & _ & Hng & _).
  split; [exact Hng|]. split; [exact Hlen|].
  unfold read_group in H.
  repeat (let a := fresh "a" in
          let E := fresh "E" in
          apply bind_ok in H as (a & E & H);
          match type of a with
          | (_ * _)%type => destruct a
          | _ => idtac
          end).
  injection H as <- _. cbn [g_cpu_map].
  match goal with
  | E : read_columns _ _ _ 8 = Ok (?c, _) |- length ?c = _ /\ _ =>
      exact (read_columns_shape f ng 8 Hng _ _ _ E)
  end.
Qed.

Section ScanForall.

Variable dom : RAMSESDomainFile.
Variable pf : StaticOutput.
Variable P : read_rec -> Prop.

Hypothesis HP : forall level cpu ng cur g cur',
  0 <= level -> 0 <= cpu ->
  _ng dom cpu level = Ok ng -> ng <> 0 ->
  read_group (amr_fn dom) cur ng (domain_width pf) = Ok (g, cur') ->
  P (mk_read level cpu ng cur g).

Lemma scan_cpus_Forall (level : Z) (cpus : list Z) :
  0 <= level -> Forall (fun c => 0 <= c) cpus ->
  forall cur, Forall P (fst (scan_cpus dom pf level cpus cur)).
Proof.
  intros Hl. induction cpus as [|cpu rest IH]; intros Hc cur; cbn [scan_cpus].
  - constructor.
  - inversion Hc as [|? ? Hc0 Hcr]; subst.
    destruct (_ng dom cpu level) as [ng|e] eqn:En; [|constructor].
    destruct (Z.eqb_spec ng 0) as [|Hn]; [apply IH; exact Hcr|].
    destruct (read_group (amr_fn dom) cur ng (domain_width pf))
      as [[g cur1]|e] eqn:Eg; [|constructor].
    specialize (IH Hcr cur1).
    destruct (scan_cpus dom pf level rest cur1) as [rs r]. cbn [fst] in *.
    constructor; [|exact IH].
    exact (HP level cpu ng cur g cur1 Hl Hc0 En Hn Eg).
Qed.

Lemma range_nonneg (n : Z) : Forall (fun c => 0 <= c) (range n).
Proof. apply Forall_forall. intros c Hc. apply range_In in Hc. lia. Qed.

Lemma scan_levels_Forall (levels : list Z) :
  Forall (fun l => 0 <= l) levels ->
  forall cur, Forall P (fst (scan_levels dom pf levels cur)).
Proof.
  induction levels as [|level rest IH]; intros Hl cur; cbn [scan_levels].
  - constructor.
  - inversion Hl as [|? ? Hl0 Hlr]; subst.
    destruct (bind _ _) as [n|e]; [|constructor].
    pose proof (scan_cpus_Forall level (range n) Hl0 (range_nonneg n) cur) as Hc.
    destruct (scan_cpus dom pf level (range n) cur) as [rs [cur1|e]];
      cbn [fst] in *; [|exact Hc].
    specialize (IH Hlr cur1).
    destruct (scan_levels dom pf rest cur1) as [rs' r]. cbn [fst] in *.
    apply Forall_app. auto.
Qed.

Lemma groups_read_Forall : Forall P (groups_read dom pf).
Proof.
  unfold groups_read.
  destruct (get_int (amr_header dom) "nlevelmax") as [n|e]; [|constructor].
  apply scan_levels_Forall. apply range_nonneg.
Qed.

End ScanForall.

Lemma ng_inv (dom : RAMSESDomainFile) (c l ng : Z) :
  0 <= l -> 0 <= c -> _ng dom c l = Ok ng ->
  exists ncpu rows cols flat,
    get_int (amr_header dom) "ncpu" = Ok ncpu
    /\ dict_get (amr_header dom) "numbl" = Ok (PArray2 rows cols flat)
    /\ c < ncpu /\ c < cols /\ l < rows
    /\ ng = na.nthZ flat (l * cols + c).
Proof.
  intros Hl Hc. unfold _ng. intros H.
  bind_inv H as ncpu En. destruct (Z.ltb_spec c ncpu) as [Hlt|]; [|discriminate].
  bind_inv H as numbl Eb. unfold na.index2 in H.
  destruct numbl as [| | | | | |rows cols flat]; try discriminate.
  bind_inv H as l' El. bind_inv H as c' Ec. injection H as <-.
  unfold na.norm_index in El, Ec.
  destruct (Z.leb_spec 0 l); [|lia]. destruct (Z.leb_spec 0 c); [|lia].
  simpl in El, Ec.
  destruct (Z.ltb_spec l rows); simpl in El;
    [injection El as <-|destruct (- rows <=? l); simpl in El; try discriminate;
                        destruct (Z.ltb_spec l 0); [lia|discriminate]].
  destruct (Z.ltb_spec c cols); simpl in Ec;
    [injection Ec as <-|destruct (- cols <=? c); simpl in Ec; try discriminate;
                        destruct (Z.ltb_spec c 0); [lia|discriminate]].
  exists ncpu, rows, cols, flat. repeat split; assumption || reflexivity.
Qed.

(** X4.  Whatever the file holds and however the call ends, everything
    [_read_amr] adds to the container is well shaped: a count above zero
    that is the entry of [numbl] for the level and owner, a position matrix
    and eight owner columns of that many rows, a level within the array,
    and an owner that is a real domain of the header, not below the
    reader's domain id. *)
Theorem read_amr_submissions_ok (dom : RAMSESDomainFile) (pf : StaticOutput)
    (w : world) :
  exists news,
    oct_handler (fst (_read_amr dom pf w)) = oct_add_all (oct_handler w) news
    /\ Forall (submission_ok dom) news.
Proof.
  exists (map submission (filter (accepted (domain_id dom)) (groups_read dom pf))).
  split; [apply read_amr_oct|].
  apply Forall_map, Forall_forall. intros r Hr.
  apply filter_In in Hr as [Hr Ha].
  assert (HF : Forall (fun r => accepted (domain_id dom) r = true ->
                               submission_ok dom (submission r))
                      (groups_read dom pf)); 
    [|rewrite Forall_forall in HF; exact (HF r Hr Ha)].
  clear r Hr Ha. apply groups_read_Forall.
  intros level cpu ng cur g cur' Hl Hc En Hn Eg Ha.
  destruct (read_group_shape _ _ _ _ _ _ Eg) as (H0 & Hp & H8 & Hcols).
  destruct (ng_inv dom cpu level ng Hl Hc En)
    as (ncpu & rows & cols & flat & E1 & E2 & B1 & B2 & B3 & E3).
  unfold accepted in Ha. cbn [rr_cpu] in Ha. apply Z.leb_le in Ha.
  unfold submission_ok, submission. cbn.
  repeat split; try assumption; try lia.
  exists ncpu, rows, cols, flat.
  repeat split; try assumption; try lia.
  rewrite E3. f_equal. lia.
Qed.

(** ** The reader's own octs *)

Lemma read_amr_header_facts (schema : header_schema) (f : file) (d : Z)
    (dom : RAMSESDomainFile) :
  _read_amr_header schema f d = Ok dom ->
  exists hvals nlevelmax ncpu nboundary flat col,
    amr_header dom = dict_set hvals "numbl" (PArray2 nlevelmax ncpu flat)
    /\ get_int hvals "nlevelmax" = Ok nlevelmax
    /\ get_int hvals "ncpu" = Ok ncpu
    /\ get_int hvals "nboundary" = Ok nboundary
    /\ 0 <= nlevelmax /\ 0 <= ncpu
    /\ nlevelmax * ncpu = Z.of_nat (length flat)
    /\ domain_id dom = d /\ amr_fn dom = f
    /\ na.column (PArray2 nlevelmax ncpu flat) (d - 1) = Ok col
    /\ local_oct_count dom = na.sum col.
Proof.
  unfold _read_amr_header. intros H.
  bind_inv H as a Es. destruct a as [hvals c0].
  bind_inv H as numbl0 En0. bind_inv H as flat Ea.
  bind_inv H as nlevelmax El. bind_inv H as ncpu Ec.
  bind_inv H as numbl Er.
  bind_inv H as cur1 Ek1.
  bind_inv H as nboundary Eb.
  bind_inv H as cur2 Eif.
  bind_inv H as a Ef. destruct a as [free_mem cur3].
  bind_inv H as a Eo. destruct a as [ordering cur4].
  bind_inv H as cur5 Ek4.
  bind_inv H as col Ecol.
  injection H as <-.
  unfold na.reshape in Er.
  destruct (Z.leb_spec 0 nlevelmax) as [H0|]; [|discriminate].
  destruct (Z.leb_spec 0 ncpu) as [H1|]; [|discriminate].
  destruct (Z.eqb_spec (nlevelmax * ncpu) (Z.of_nat (length flat))) as [H2|];
    [|discriminate].
  simpl in Er. injection Er as <-.
  exists hvals, nlevelmax, ncpu, nboundary, flat, col. simpl.
  repeat split; assumption.
Qed.

Lemma header_int_numbl (hvals : dict) (v : pyval) (k : string) :
  k <> "numbl" ->
  get_int (dict_set hvals "numbl" v) k = get_int hvals k.
Proof.
  intros Hk. unfold get_int, dict_set. cbn [dict_get].
  destruct (String.eqb_spec "numbl" k) as [E|_]; [congruence|reflexivity].
Qed.

Section OwnOcts.

Variable dom : RAMSESDomainFile.
Variable pf : StaticOutput.
Variable k : Z.

Let of_owner (rs : list read_rec) : Z :=
  na.sum (map rr_ng (filter (fun r => rr_cpu r =? k) rs)).

Lemma scan_cpus_sum (level : Z) (cpus : list Z) :
  forall cur cur',
    snd (scan_cpus dom pf level cpus cur) = Ok cur' ->
    of_owner (fst (scan_cpus dom pf level cpus cur)) =
    na.sum (map (fun c => if c =? k then ngz dom c level else 0) cpus).
Proof.
  unfold of_owner.
  induction cpus as [|cpu rest IH]; intros cur cur' H; cbn [scan_cpus] in *;
    [reflexivity|].
  cbn [map na.sum fold_right]. unfold ngz at 1.
  destruct (_ng dom cpu level) as [ng|e]; [|discriminate].
  destruct (Z.eqb_spec ng 0) as [E0|Hn].
  - rewrite (IH _ _ H), E0. destruct (cpu =? k); reflexivity.
  - destruct (read_group (amr_fn dom) cur ng (domain_width pf))
      as [[g cur1]|e]; [|discriminate].
    specialize (IH cur1 cur').
    destruct (scan_cpus dom pf level rest cur1) as [rs r]. cbn [fst snd] in *.
    cbn [filter rr_cpu]. destruct (cpu =? k); cbn [map rr_ng na.sum fold_right].
    + fold (na.sum (map rr_ng (filter (fun r0 => rr_cpu r0 =? k) rs))).
      rewrite (IH H). reflexivity.
    + rewrite (IH H). reflexivity.
Qed.

Lemma sum_app (a b : list Z) : na.sum (a ++ b) = na.sum a + na.sum b.
Proof.
  unfold na.sum. induction a as [|x a IH]; simpl; [reflexivity|].
  rewrite IH. lia.
Qed.

Lemma scan_levels_sum (nboundary ncpu : Z) (levels : list Z) :
  get_int (amr_header dom) "nboundary" = Ok nboundary ->
  get_int (amr_header dom) "ncpu" = Ok ncpu ->
  forall cur cur',
    snd (scan_levels dom pf levels cur) = Ok cur' ->
    of_owner (fst (scan_levels dom pf levels cur)) =
    na.sum (map (fun l =>
              na.sum (map (fun c => if c =? k then ngz dom c l else 0)
                          (range (nboundary + ncpu)))) levels).
Proof.
  intros Hb Hc.
  induction levels as [|level rest IH]; intros cur cur' H;
    cbn [scan_levels] in *; [reflexivity|].
  rewrite Hb, Hc in *. cbn [bind] in *.
  pose proof (scan_cpus_sum level (range (nboundary + ncpu)) cur) as Hs.
  destruct (scan_cpus dom pf level (range (nboundary + ncpu)) cur)
    as [rs [cur1|e]]; cbn [fst snd] in *; [|discriminate].
  specialize (IH cur1 cur').
  destruct (scan_levels dom pf rest cur1) as [rs' r]. cbn [fst snd] in *.
  unfold of_owner in *. rewrite filter_app, map_app, sum_app.
  rewrite (Hs cur1 eq_refl), (IH H). reflexivity.
Qed.

End OwnOcts.

Lemma sum_indicator_seq (v : Z -> Z) (k : Z) (len : nat) :
  forall a : nat,
    na.sum (map (fun c => if c =? k then v c else 0) (map Z.of_nat (seq a len)))
    = if (Z.of_nat a <=? k) && (k <? Z.of_nat a + Z.of_nat len) then v k else 0.
Proof.
  induction len as [|len IH]; intros a.
  - simpl. destruct (Z.leb_spec (Z.of_nat a) k), (Z.ltb_spec k (Z.of_nat a + 0));
      simpl; try reflexivity; lia.
  - cbn [seq map na.sum fold_right].
    fold (na.sum (map (fun c => if c =? k then v c else 0)
                      (map Z.of_nat (seq (S a) len)))).
    rewrite IH.
    destruct (Z.eqb_spec (Z.of_nat a) k) as [E|Hne];
      destruct (Z.leb_spec (Z.of_nat (S a)) k), (Z.leb_spec (Z.of_nat a) k),
        (Z.ltb_spec k (Z.of_nat (S a) + Z.of_nat len)),
        (Z.ltb_spec k (Z.of_nat a + Z.of_nat (S len)));
      simpl; rewrite ?E; lia.
Qed.

Lemma sum_indicator_range (v : Z -> Z) (k n : Z) :
  0 <= k < n ->
  na.sum (map (fun c => if c =? k then v c else 0) (range n)) = v k.
Proof.
  intros Hk. unfold range. rewrite sum_indicator_seq.
  destruct (Z.leb_spec (Z.of_nat 0) k); [|lia].
  destruct (Z.ltb_spec k (Z.of_nat 0 + Z.of_nat (Z.to_nat n))); [reflexivity|lia].
Qed.

Lemma own_submissions_sum (d : Z) (rs : list read_rec) :
  na.sum (map add_ng
            (filter (fun a => add_owner a =? d)
                    (map submission (filter (accepted d) rs))))
  = na.sum (map rr_ng (filter (fun r => rr_cpu r =? d - 1) rs)).
Proof.
  induction rs as [|r rs IH]; [reflexivity|].
  cbn [filter]. unfold accepted at 1.
  destruct (Z.eqb_spec (rr_cpu r) (d - 1)) as [E|E].
  - destruct (Z.leb_spec d (rr_cpu r + 1)); [|lia].
    cbn [map filter]. unfold submission at 1. cbn [add_owner].
    destruct (Z.eqb_spec (rr_cpu r + 1) d); [|lia].
    cbn [map na.sum fold_right add_ng]. unfold submission at 1. cbn [add_ng].
    unfold na.sum in IH. rewrite IH. reflexivity.
  - destruct (d <=? rr_cpu r + 1); [|exact IH].
    cbn [map filter]. unfold submission at 1. cbn [add_owner].
    destruct (Z.eqb_spec (rr_cpu r + 1) d); [lia|exact IH].
Qed.

(** X5.  The octs a reader registers under its own domain id are those its
    header announces.  For a reader built by [_read_amr_header] with a
    domain id of at least 1 over a header without boundary domains, a call
    of [_read_amr] that returns normally has submitted, in the groups whose
    owner is the reader's own domain, exactly [local_oct_count] octs. *)
Theorem read_amr_own_octs (schema : header_schema) (f : file) (d : Z)
    (dom : RAMSESDomainFile) (pf : StaticOutput) (w : world) :
  _read_amr_header schema f d = Ok dom ->
  1 <= d ->
  get_int (amr_header dom) "nboundary" = Ok 0 ->
  snd (_read_amr dom pf w) = Ok tt ->
  exists news,
    oct_handler (fst (_read_amr dom pf w)) = oct_add_all (oct_handler w) news
    /\ na.sum (map add_ng (filter (fun a => add_owner a =? d) news))
       = local_oct_count dom.
Proof.
  intros Hh Hd Hb Hok.
  destruct (read_amr_header_facts schema f d dom Hh)
    as (hvals & nl & nc & nb & flat & col & Eh & El & Ec & _ & H0 & H1 & _
        & Eid & _ & Ecol & Eloc).
  assert (Hnl : get_int (amr_header dom) "nlevelmax" = Ok nl).
  { rewrite Eh, header_int_numbl by discriminate. exact El. }
  assert (Hnc : get_int (amr_header dom) "ncpu" = Ok nc).
  { rewrite Eh, header_int_numbl by discriminate. exact Ec. }
  assert (Hnumbl : dict_get (amr_header dom) "numbl" = Ok (PArray2 nl nc flat)).
  { rewrite Eh. reflexivity. }
  assert (Hcol : 0 <= d - 1 < nc).
  { unfold na.column, na.norm_index in Ecol.
    destruct (Z.leb_spec 0 (d - 1)); [|lia].
    destruct (Z.ltb_spec (d - 1) nc); [lia|].
    simpl in Ecol. destruct (- nc <=? d - 1); simpl in Ecol; [|discriminate].
    destruct (Z.ltb_spec (d - 1) 0); [lia|discriminate]. }
  exists (map submission (filter (accepted (domain_id dom)) (groups_read dom pf))).
  split; [apply read_amr_oct|].
  rewrite Eid, own_submissions_sum.
  (* the loops ran to their end *)
  unfold _read_amr in Hok. unfold groups_read. rewrite Hnl in *.
  cbn [emit oct_handler] in Hok. rewrite level_loop_scan in Hok.
  destruct (scan_levels dom pf (range nl) (amr_offset dom)) as [rs [cur|e]] eqn:Es;
    cbn [fst snd] in Hok; [|discriminate].
  pose proof (scan_levels_sum dom pf (d - 1) 0 nc (range nl) Hb Hnc
                (amr_offset dom) cur) as Hsum.
  rewrite Es in Hsum. cbn [fst snd] in Hsum. cbn [fst]. rewrite (Hsum eq_refl).
  rewrite Eloc.
  pose proof (column_of_ng dom nl nc flat (d - 1) col Hnc Hnumbl Hcol Ecol) as HF.
  clear - HF Hcol. induction HF as [|l v ls vs Hv HF IH]; [reflexivity|].
  cbn [map na.sum fold_right].
  fold (na.sum vs).
  fold (na.sum (map (fun l0 => na.sum
          (map (fun c => if c =? d - 1 then ngz dom c l0 else 0) (range (0 + nc))))
          ls)).
  rewrite IH. rewrite (sum_indicator_range (fun c => ngz dom c l) (d - 1) (0 + nc))
    by lia.
  unfold ngz. rewrite Hv. reflexivity.
Qed.

Lemma read_amr_own_octs_witness :
  exists news,
    oct_handler (fst (_read_amr examples.dom2_2 examples.pf2 examples.world0))
      = oct_add_all (oct_handler examples.world0) news
    /\ na.sum (map add_ng (filter (fun a => add_owner a =? 2) news)) = 1.
Proof.
  apply (read_amr_own_octs examples.schema examples.file2 2 examples.dom2_2
           examples.pf2 examples.world0).
  - vm_compute. reflexivity.
  - lia.
  - vm_compute. reflexivity.
  - vm_compute. reflexivity.
Defined.

(** ** A header that announces no grids *)

Lemma cpu_loop_no_grids (dom : RAMSESDomainFile) (pf : StaticOutput) (level : Z)
    (cpus : list Z) (cur : Z) (oct : RAMSESOctreeContainer) :
  Forall (fun c => _ng dom c level = Ok 0) cpus ->
  cpu_loop dom pf level cpus cur oct = (oct, Ok cur).
Proof.
  induction 1 as [|c cs Hc _ IH]; cbn [cpu_loop]; [reflexivity|].
  rewrite Hc. exact IH.
Qed.

(** X6.  When every grid count the loops look up is zero, [_read_amr] reads
    no byte and submits nothing: it writes its debug line and returns normally
    exactly when the file ends at [amr_offset], failing with [AssertionError]
    otherwise. *)
Theorem read_amr_no_grids (dom : RAMSESDomainFile) (pf : StaticOutput) (w : world)
    (nlevelmax nboundary ncpu : Z) :
  get_int (amr_header dom) "nlevelmax" = Ok nlevelmax ->
  get_int (amr_header dom) "nboundary" = Ok nboundary ->
  get_int (amr_header dom) "ncpu" = Ok ncpu ->
  (forall l c, 0 <= l < nlevelmax -> 0 <= c < nboundary + ncpu ->
               _ng dom c l = Ok 0) ->
  _read_amr dom pf w =
    (emit w (Log Debug "Reading domain AMR % 4i (%0.3e)"
                 [domain_id dom; local_oct_count dom]),
     assert (amr_offset dom =? file_size (amr_fn dom))).
Proof.
  intros Hl Hb Hc Hz. unfold _read_amr. rewrite Hl. cbn [emit oct_handler].
  assert (HL : forall levels cur oct,
             Forall (fun l => 0 <= l < nlevelmax) levels ->
             level_loop dom pf levels cur oct = (oct, Ok cur)).
  { induction levels as [|l ls IH]; intros cur oct Hls; cbn [level_loop];
      [reflexivity|].
    inversion Hls as [|? ? Hl0 Hls']; subst.
    rewrite Hb, Hc. cbn [bind].
    rewrite cpu_loop_no_grids.
    - apply IH. exact Hls'.
    - apply Forall_forall. intros c Hin. apply range_In in Hin.
      apply Hz; assumption. }
  rewrite HL.
  - destruct w. reflexivity.
  - apply Forall_forall. intros l Hin. apply range_In in Hin. exact Hin.
Qed.

Lemma read_amr_no_grids_witness :
  _read_amr dom_no_grids examples.pf2 examples.world0 =
    (emit examples.world0
       (Log Debug "Reading domain AMR % 4i (%0.3e)" [1; 0]), Ok tt).
Proof.
  rewrite (read_amr_no_grids dom_no_grids examples.pf2 examples.world0 1 0 2).
  - vm_compute. reflexivity.
  - vm_compute. reflexivity.
  - vm_compute. reflexivity.
  - vm_compute. reflexivity.
  - intros l c Hl Hc. assert (l = 0) by lia.
    assert (c = 0 \/ c = 1) as [-> | ->] by lia; subst; vm_compute; reflexivity.
Defined.

(** ** Initialization, step by step *)

Lemma build_domains_spec (schema : header_schema) (pf : StaticOutput)
    (ids : list Z) :
  forall doms,
    build_domains schema pf ids = Ok doms ->
    Forall2 (fun i dom =>
               _read_amr_header schema (amr_file_of pf (i + 1)) (i + 1) = Ok dom)
            ids doms.
Proof.
  induction ids as [|i rest IH]; intros doms H; cbn [build_domains] in H.
  - injection H as <-. constructor.
  - bind_inv H as dom Ed. bind_inv H as doms' Er. injection H as <-.
    constructor; [exact Ed|apply IH; exact Er].
Qed.

Lemma read_all_spec (pf : StaticOutput) (doms : list RAMSESDomainFile) :
  forall w w',
    read_all pf doms w = (w', Ok tt) ->
    oct_handler w' =
      oct_add_all (oct_handler w) (concat (map (submissions_of pf) doms))
    /\ output w' = output w ++ map reading_line doms.
Proof.
  induction doms as [|dom rest IH]; intros w w' H; cbn [read_all] in H.
  - injection H as <-. simpl. rewrite oct_add_all_nil, app_nil_r. auto.
  - pose proof (read_amr_oct dom pf w) as Ho.
    pose proof (read_amr_output dom pf w) as Hl.
    destruct (_read_amr dom pf w) as [w1 [u|e]]; [|discriminate].
    cbn [fst] in Ho, Hl.
    destruct (IH w1 w' H) as [Ho' Hl'].
    split.
    + rewrite Ho', Ho, oct_add_all_app. reflexivity.
    + rewrite Hl', Hl, <- app_assoc. reflexivity.
Qed.

Lemma read_all_failure (pf : StaticOutput) (doms : list RAMSESDomainFile) :
  forall w w' e,
    read_all pf doms w = (w', Raise e) ->
    existsb is_print (output w') = existsb is_print (output w).
Proof.
  induction doms as [|dom rest IH]; intros w w' e H; cbn [read_all] in H;
    [discriminate|].
  pose proof (read_amr_output dom pf w) as Hl.
  destruct (_read_amr dom pf w) as [w1 [u|e1]]; cbn [fst] in Hl.
  - rewrite (IH w1 w' e H), Hl, existsb_app. simpl. apply orb_false_r.
  - injection H as <- _. rewrite Hl, existsb_app. simpl. apply orb_false_r.
Qed.

(** X7.  When [_initialize_oct_handler] completes there is at least one
    domain; the readers are those of the domain ids 1, 2, ..., [pf['ncpu']]
    in this order, each built by [_read_amr_header] from the file of its id;
    the container was allocated with their local oct counts in the same
    order, [num_grids] is the sum of these counts, and the container was
    created with the [nx] of the first reader's header and the edges of the
    snapshot. *)
Theorem init_domains_in_order (schema : header_schema)
    (nocts : RAMSESOctreeContainer -> Z) (pf : StaticOutput)
    (evs : list event) (h : RAMSESGeometryHandler) :
  _initialize_oct_handler schema nocts pf = (evs, Ok h) ->
  1 <= pf_ncpu pf
  /\ Forall2 (fun i dom =>
                _read_amr_header schema (amr_file_of pf (i + 1)) (i + 1) = Ok dom
                /\ domain_id dom = i + 1)
             (range (pf_ncpu pf)) (domains h)
  /\ oct_allocated (h_oct_handler h) = map local_oct_count (domains h)
  /\ num_grids h = na.sum (oct_allocated (h_oct_handler h))
  /\ oct_edges (h_oct_handler h) = (domain_left_edge pf, domain_right_edge pf)
  /\ (exists d0, hd_error (domains h) = Some d0
                 /\ dict_get (amr_header d0) "nx" = Ok (oct_nx (h_oct_handler h))).
Proof.
  unfold _initialize_oct_handler. intros H.
  destruct (build_domains schema pf (range (pf_ncpu pf))) as [doms|e] eqn:Eb;
    [|discriminate].
  destruct doms as [|d0 doms]; [discriminate|].
  destruct (dict_get (amr_header d0) "nx") as [nx|e] eqn:Enx; [|discriminate].
  match type of H with
  | context [read_all pf ?ds ?w0] =>
      destruct (read_all pf ds w0) as [w1 [u|e]] eqn:Er; [|discriminate]
  end.
  destruct u. apply read_all_spec in Er as [Ho _].
  injection H as _ <-. cbn.
  rewrite Ho. cbn.
  split.
  { destruct (Z.leb_spec 1 (pf_ncpu pf)) as [|Hlt]; [assumption|].
    unfold range in Eb. replace (Z.to_nat (pf_ncpu pf)) with 0%nat in Eb by lia.
    discriminate. }
  split.
  { apply build_domains_spec in Eb.
    revert Eb. apply Forall2_impl. intros i dom Hd. split; [exact Hd|].
    destruct (read_amr_header_facts _ _ _ _ Hd)
      as (? & ? & ? & ? & ? & ? & _ & _ & _ & _ & _ & _ & _ & Hid & _).
    exact Hid. }
  repeat split.
  exists d0. split; [reflexivity|exact Enx].
Qed.

Lemma init_domains_in_order_witness :
  map domain_id (domains examples.handler2) = [1; 2]
  /\ oct_allocated (h_oct_handler examples.handler2) = [1; 1]
  /\ num_grids examples.handler2 = 2.
Proof.
  destruct (init_domains_in_order examples.schema examples.count_added
              examples.pf2 (fst examples.run2) examples.handler2
              ltac:(vm_compute; reflexivity)) as (_ & _ & H1 & H2 & _).
  repeat split; vm_compute; reflexivity.
Defined.

(** X8.  When [_initialize_oct_handler] completes, the container holds the
    submissions of the readers in domain order, those of one reader being
    its accepted groups in reading order, and the lines written are the
    allocation line, one reading line per domain in domain order, and the
    two TOTAL lines. *)
Theorem init_populates_in_order (schema : header_schema)
    (nocts : RAMSESOctreeContainer -> Z) (pf : StaticOutput)
    (evs : list event) (h : RAMSESGeometryHandler) :
  _initialize_oct_handler schema nocts pf = (evs, Ok h) ->
  oct_added (h_oct_handler h) = concat (map (submissions_of pf) (domains h))
  /\ evs = Log Debug "Allocating %s octs" [num_grids h]
           :: map reading_line (domains h)
           ++ [Print "TOTAL" [num_grids h; nocts (h_oct_handler h)];
               PrintRatio "TOTAL" (num_grids h) (nocts (h_oct_handler h))].
Proof.
  unfold _initialize_oct_handler. intros H.
  destruct (build_domains schema pf (range (pf_ncpu pf))) as [doms|e] eqn:Eb;
    [|discriminate].
  destruct (match doms with [] => _ | _ => _ end) as [nx|e]; [|discriminate].
  match type of H with
  | context [read_all pf ?ds ?w0] =>
      destruct (read_all pf ds w0) as [w1 [u|e]] eqn:Er; [|discriminate]
  end.
  destruct u. apply read_all_spec in Er as [Ho Hl].
  injection H as <- <-. cbn.
  rewrite Ho, Hl. cbn. rewrite <- app_assoc. split; reflexivity.
Qed.

Lemma init_populates_in_order_witness :
  map add_owner (oct_added (h_oct_handler examples.handler2)) = [1; 2; 2]
  /\ length (fst examples.run2) = 5%nat.
Proof.
  destruct (init_populates_in_order examples.schema examples.count_added
              examples.pf2 (fst examples.run2) examples.handler2
              ltac:(vm_compute; reflexivity)) as [H1 H2].
  split; [rewrite H1|rewrite H2]; vm_compute; reflexivity.
Defined.

(** X9.  The TOTAL lines are written exactly when
    [_initialize_oct_handler] completes: a run that raises has written no
    line with [print], whichever step failed. *)
Theorem init_total_iff_completes (schema : header_schema)
    (nocts : RAMSESOctreeContainer -> Z) (pf : StaticOutput) :
  existsb is_print (fst (_initialize_oct_handler schema nocts pf))
  = is_ok (snd (_initialize_oct_handler schema nocts pf)).
Proof.
  unfold _initialize_oct_handler.
  destruct (build_domains schema pf (range (pf_ncpu pf))) as [doms|e];
    [|reflexivity].
  destruct (match doms with [] => _ | _ => _ end) as [nx|e]; [|reflexivity].
  match goal with
  | |- context [read_all pf ?ds ?w0] =>
      destruct (read_all pf ds w0) as [w1 [u|e]] eqn:Er
  end.
  - cbn. rewrite !existsb_app. cbn. rewrite !orb_true_r. reflexivity.
  - cbn. rewrite (read_all_failure _ _ _ _ _ Er). reflexivity.
Qed.

(** ** Splitting a selection by domain *)

(** X10.  For readers whose domain ids lie in [1, n], [n] the number of
    index arrays, the domain subsets are those of the readers with a
    non-empty index array, in the order of the readers, each carrying the
    array of index [domain_id - 1]; a reader whose id is above [n] makes
    the split fail with [IndexError]. *)
Theorem domain_subsets_spec (indices : list (list Z))
    (doms : list RAMSESDomainFile) :
  (Forall (fun dom => 1 <= domain_id dom <= Z.of_nat (length indices)) doms ->
   domain_subsets doms indices
     = Ok (map (subset_of indices) (filter (selected_in indices) doms)))
  /\ (Exists (fun dom => Z.of_nat (length indices) < domain_id dom) doms ->
      domain_subsets doms indices = Raise IndexError).
Proof.
  split.
  - induction 1 as [|dom rest Hd _ IH]; cbn [domain_subsets]; [reflexivity|].
    unfold na.norm_index.
    destruct (Z.leb_spec 0 (domain_id dom - 1)); [|lia].
    destruct (Z.ltb_spec (domain_id dom - 1) (Z.of_nat (length indices))); [|lia].
    cbn [andb bind]. rewrite IH. cbn [bind filter].
    change (selected_in indices dom)
      with (0 <? Z.of_nat (length (nth (Z.to_nat (domain_id dom - 1)) indices []))).
    destruct (0 <? _); reflexivity.
  - induction 1 as [dom rest Hd|dom rest _ IH]; cbn [domain_subsets].
    + unfold na.norm_index.
      destruct (Z.leb_spec 0 (domain_id dom - 1)); [|lia].
      destruct (Z.ltb_spec (domain_id dom - 1) (Z.of_nat (length indices))); [lia|].
      destruct (Z.leb_spec (- Z.of_nat (length indices)) (domain_id dom - 1));
        destruct (Z.ltb_spec (domain_id dom - 1) 0); try lia; reflexivity.
    + destruct (na.norm_index _ _) as [i|e] eqn:Ei.
      * cbn [bind]. rewrite IH. reflexivity.
      * unfold na.norm_index in Ei.
        destruct (_ && _); [discriminate|].
        destruct (_ && _); [discriminate|].
        injection Ei as <-. reflexivity.
Qed.

Lemma domain_subsets_spec_witness :
  domain_subsets [examples.dom2_1; examples.dom2_2] [[]; [5; 7]]
  = Ok [ {| sub_indices := [5; 7]; sub_domain := examples.dom2_2 |} ].
Proof.
  rewrite (proj1 (domain_subsets_spec [[]; [5; 7]]
                    [examples.dom2_1; examples.dom2_2])).
  - vm_compute. reflexivity.
  - constructor; [|constructor; [|constructor]];
      split; apply Z.leb_le; vm_compute; reflexivity.
Defined.

Lemma concat_lengths_seq (indices : list (list Z)) :
  forall (a : nat) (rest : list (list Z)),
    na.sum (map (fun i => Z.of_nat (length (nth i (rest ++ indices) [])))
                (seq (length rest) (length indices)))
    = na.sum (map (fun l => Z.of_nat (length l)) indices).
Proof.
  induction indices as [|x xs IH]; intros a rest; [reflexivity|].
  cbn [length seq map na.sum fold_right].
  rewrite app_nth2, Nat.sub_diag by lia. cbn [nth].
  fold (na.sum (map (fun l => Z.of_nat (length l)) xs)).
  rewrite <- (IH a (rest ++ [x])).
  rewrite length_app, Nat.add_1_r, <- app_assoc. reflexivity.
Qed.

(** X11.  No selected oct is lost in the split: when the readers are those
    of the domain ids 1, ..., [n] in order and there are [n] index arrays,
    the sizes of the domain subsets add up to the sizes of the index
    arrays. *)
Theorem domain_subsets_total (indices : list (list Z))
    (doms : list RAMSESDomainFile) (subs : list RAMSESDomainSubset) :
  map domain_id doms = map (fun i => i + 1) (range (Z.of_nat (length indices))) ->
  domain_subsets doms indices = Ok subs ->
  na.sum (map (fun s => Z.of_nat (length (sub_indices s))) subs)
  = na.sum (map (fun l => Z.of_nat (length l)) indices).
Proof.
  intros Hids Hs.
  assert (Hr : Forall (fun dom => 1 <= domain_id dom <= Z.of_nat (length indices))
                      doms).
  { apply Forall_forall. intros dom Hin.
    apply (in_map domain_id) in Hin. rewrite Hids in Hin.
    apply in_map_iff in Hin as (i & <- & Hi). apply range_In in Hi. lia. }
  rewrite (proj1 (domain_subsets_spec indices doms) Hr) in Hs.
  injection Hs as <-.
  (* empty arrays add nothing *)
  assert (Hf : forall ds,
             na.sum (map (fun s => Z.of_nat (length (sub_indices s)))
                         (map (subset_of indices) (filter (selected_in indices) ds)))
             = na.sum (map (fun d => Z.of_nat
                  (length (nth (Z.to_nat (d - 1)) indices []))) (map domain_id ds))).
  { unfold na.sum. induction ds as [|dom ds IH]; [reflexivity|].
    cbn [filter map].
    change (selected_in indices dom)
      with (0 <? Z.of_nat (length (nth (Z.to_nat (domain_id dom - 1)) indices []))).
    destruct (Z.ltb_spec 0 (Z.of_nat (length
               (nth (Z.to_nat (domain_id dom - 1)) indices [])))) as [Hp|Hz].
    - cbn [map fold_right subset_of sub_indices]. rewrite IH. reflexivity.
    - cbn [fold_right]. rewrite IH. lia. }
  rewrite Hf, Hids. unfold range. rewrite !map_map, Nat2Z.id.
  rewrite <- (concat_lengths_seq indices 0%nat []). cbn [length app].
  f_equal. apply map_ext. intros i. do 3 f_equal. lia.
Qed.

Lemma domain_subsets_total_witness :
  na.sum (map (fun s => Z.of_nat (length (sub_indices s)))
              [ {| sub_indices := [5; 7]; sub_domain := examples.dom2_2 |} ]) = 2.
Proof.
  rewrite (domain_subsets_total [[]; [5; 7]]
             [examples.dom2_1; examples.dom2_2]
             [ {| sub_indices := [5; 7]; sub_domain := examples.dom2_2 |} ]).
  - reflexivity.
  - vm_compute. reflexivity.
  - vm_compute. reflexivity.
Defined.

(** ** The base chunk of a data object *)

(** X12.  [_identify_base_chunk] resolves a selection once.  Run again on
    the data object it returned, with whatever handler and container
    queries, it asks the container nothing and returns the same data
    object: [_chunk_info], [size] and the current chunk stay as they are. *)
Theorem identify_base_chunk_once (q q' : oct_queries)
    (h h' : RAMSESGeometryHandler) (dobj dobj1 : data_object) :
  _identify_base_chunk q h dobj = Ok dobj1 ->
  _identify_base_chunk q' h' dobj1 = Ok dobj1
  /\ _chunk_info dobj1 <> None
  /\ (exists c, _current_chunk dobj1 = Some c
                /\ chunk_type c = "all" /\ data_size c = size dobj1).
Proof.
  unfold _identify_base_chunk. intros H.
  bind_inv H as d1 E1. cbn [_chunk_all] in H. injection H as <-.
  assert (Hci : _chunk_info d1 <> None).
  { destruct (_chunk_info dobj) as [ci|] eqn:Eci.
    - injection E1 as <-. rewrite Eci. discriminate.
    - bind_inv E1 as doms Ed. bind_inv E1 as sz Es. injection E1 as <-.
      discriminate. }
  cbn. split; [|split; [exact Hci|eexists; repeat split]].
  destruct (_chunk_info d1) as [ci|]; [|contradiction].
  reflexivity.
Qed.

Lemma identify_base_chunk_once_witness :
  exists dobj1,
    _identify_base_chunk examples.queries0 examples.handler2 examples.dobj0
      = Ok dobj1
    /\ _identify_base_chunk examples.queries0 examples.handler2 dobj1 = Ok dobj1.
Proof.
  destruct (_identify_base_chunk examples.queries0 examples.handler2
              examples.dobj0) as [dobj1|e] eqn:E.
  - exists dobj1. split; [reflexivity|].
    apply (identify_base_chunk_once examples.queries0 examples.queries0
             examples.handler2 examples.handler2 examples.dobj0 dobj1 E).
  - vm_compute in E. discriminate.
Defined.

(** ** Sequences of queries *)

Lemma set_cache_same (dom : RAMSESDomainFile) :
  set_cache dom (_last_mask dom) (_last_selector_id dom) = dom.
Proof. destruct dom. reflexivity. Qed.

Lemma select_state (s : selector) (st : reader) :
  r_dom (snd (select s st))
    = set_cache (r_dom st) (fst (select s st)) (Some (sel_id s))
  /\ r_filled (snd (select s st))
     = r_filled st ++ changes (_last_selector_id (r_dom st)) [sel_id s].
Proof.
  unfold select. cbn [changes].
  destruct (_last_selector_id (r_dom st)) as [j|] eqn:Ej; cbn [same_id].
  - destruct (Z.eqb_spec (sel_id s) j) as [E|E]; cbn [fst snd r_dom r_filled].
    + split; [|now rewrite app_nil_r].
      rewrite E, <- Ej. symmetry. apply set_cache_same.
    + split; reflexivity.
  - cbn [fst snd r_dom r_filled]. split; reflexivity.
Qed.

Lemma last_cons {A} (l : list A) : forall x d, last (x :: l) d = last l x.
Proof.
  induction l as [|y l IH]; intros x d; [reflexivity|].
  change (last (x :: y :: l) d) with (last (y :: l) d).
  rewrite (IH y d), (IH y x). reflexivity.
Qed.

Lemma changes_app (ids1 ids2 : list Z) :
  forall slot,
    changes slot (ids1 ++ ids2)
    = changes slot ids1 ++ changes (last (map Some ids1) slot) ids2.
Proof.
  induction ids1 as [|i rest IH]; intros slot; [reflexivity|].
  cbn [app changes map].
  rewrite last_cons.
  destruct slot as [j|]; [destruct (i =? j)|]; rewrite IH; reflexivity.
Qed.

(** X13.  Over any sequence of [select] calls on a reader, [fill_mask] runs
    exactly for the requests whose selector identity differs from that of
    the request before (for the first request: from the identity in the
    slot), in order; afterwards the slot holds the identity of the last
    request, and the reader differs from the initial one in its two cache
    fields only. *)
Theorem selects_fill_on_change (ss : list selector) (st : reader) :
  let st' := snd (run_selects ss st) in
  r_filled st'
    = r_filled st ++ changes (_last_selector_id (r_dom st)) (map sel_id ss)
  /\ _last_selector_id (r_dom st')
     = last (map (fun s => Some (sel_id s)) ss) (_last_selector_id (r_dom st))
  /\ r_dom st' = set_cache (r_dom st) (_last_mask (r_dom st'))
                           (_last_selector_id (r_dom st'))
  /\ length (fst (run_selects ss st)) = length ss.
Proof.
  revert st. induction ss as [|s rest IH]; intros st; cbn [run_selects].
  - cbn. rewrite app_nil_r, set_cache_same. auto.
  - destruct (select_state s st) as [Hd Hf].
    destruct (select_slot s st) as [Hid Hm].
    destruct (select s st) as [m st1]. cbn [fst snd] in *.
    specialize (IH st1). cbn zeta in IH. destruct IH as (I1 & I2 & I3 & I4).
    destruct (run_selects rest st1) as [ms st2]. cbn [fst snd] in *.
    cbn zeta. cbn [map length].
    split; [|split; [|split]].
    + rewrite I1, Hf, <- app_assoc. f_equal.
      change (sel_id s :: map sel_id rest) with ([sel_id s] ++ map sel_id rest).
      rewrite changes_app. cbn [map last]. rewrite Hid. reflexivity.
    + rewrite I2, Hid. symmetry. apply last_cons.
    + rewrite I3, Hd. reflexivity.
    + now rewrite I4.
Qed.

Lemma popcount_bounds (m : list bool) : 0 <= popcount m <= Z.of_nat (length m).
Proof.
  induction m as [|b m IH]; cbn [popcount fold_right length]; [lia|].
  fold (popcount m). destruct b; lia.
Qed.

(** X14.  What [count] returns is never negative and never more than the
    number of entries of the mask it leaves in the slot (0 when that mask is
    [None]), and that mask is the one [select] returns. *)
Theorem count_bounds (s : selector) (st : reader) (k : nat) :
  exists n st',
    count (S (S k)) s st = Some (n, st')
    /\ _last_mask (r_dom st') = fst (select s st)
    /\ 0 <= n
    /\ match _last_mask (r_dom st') with
       | Some m => n <= Z.of_nat (length m)
       | None => n = 0
       end.
Proof.
  exists (mask_count (fst (select s st))), (snd (select s st)).
  destruct (select_slot s st) as [_ Hm].
  split; [apply count_select|]. split; [exact Hm|].
  rewrite Hm. destruct (fst (select s st)) as [m|]; cbn [mask_count].
  - pose proof (popcount_bounds m). lia.
  - lia.
Qed.

(** ** Boundary domains, in general *)

Lemma scan_cpus_level (dom : RAMSESDomainFile) (pf : StaticOutput) (level : Z)
    (cpus : list Z) :
  forall cur,
    Forall (fun r => rr_level r = level) (fst (scan_cpus dom pf level cpus cur)).
Proof.
  induction cpus as [|cpu rest IH]; intros cur; cbn [scan_cpus].
  - constructor.
  - destruct (_ng dom cpu level) as [ng|e]; [|constructor].
    destruct (ng =? 0); [apply IH|].
    destruct (read_group _ _ _ _) as [[g cur1]|e]; [|constructor].
    specialize (IH cur1).
    destruct (scan_cpus dom pf level rest cur1) as [rs r]. cbn [fst] in *.
    constructor; [reflexivity|exact IH].
Qed.

(** X15.  With a boundary domain in the header and at least one level,
    [_read_amr] raises on every file, and it does so within the first level:
    whatever it has added to the container by then are groups of level 0. *)
Theorem read_amr_boundary_raises (dom : RAMSESDomainFile) (pf : StaticOutput)
    (w : world) (ncpu nlevelmax nboundary : Z) :
  get_int (amr_header dom) "ncpu" = Ok ncpu ->
  get_int (amr_header dom) "nlevelmax" = Ok nlevelmax ->
  get_int (amr_header dom) "nboundary" = Ok nboundary ->
  0 <= ncpu -> 0 < nlevelmax -> 0 < nboundary ->
  exists e news,
    snd (_read_amr dom pf w) = Raise e
    /\ oct_handler (fst (_read_amr dom pf w)) = oct_add_all (oct_handler w) news
    /\ Forall (fun a => add_level a = 0) news.
Proof.
  intros Hc Hl Hb H0 H1 H2. unfold _read_amr. rewrite Hl.
  cbn [emit oct_handler].
  assert (Hr : range nlevelmax = 0 :: map Z.of_nat (seq 1 (Z.to_nat nlevelmax - 1))).
  { unfold range. destruct (Z.to_nat nlevelmax) as [|k] eqn:E; [lia|].
    simpl. now rewrite Nat.sub_0_r. }
  rewrite Hr. cbn [level_loop]. rewrite Hb, Hc. cbn [bind].
  assert (Hin : In ncpu (range (nboundary + ncpu))) by (apply range_In; lia).
  destruct (cpu_loop_raises dom pf 0 ncpu NameError (range (nboundary + ncpu)) Hin
              (ng_boundary dom ncpu Hc ncpu 0 ltac:(lia))
              (amr_offset dom) (oct_handler w)) as [e He].
  rewrite cpu_loop_scan in He |- *.
  pose proof (scan_cpus_level dom pf 0 (range (nboundary + ncpu)) (amr_offset dom))
    as Hlev.
  destruct (scan_cpus dom pf 0 (range (nboundary + ncpu)) (amr_offset dom))
    as [rs r]. cbn [fst snd] in *. subst r.
  exists e, (map submission (filter (accepted (domain_id dom)) rs)).
  split; [reflexivity|]. split; [reflexivity|].
  apply Forall_map, Forall_forall. intros r Hr'.
  apply filter_In in Hr' as [Hr' _]. rewrite Forall_forall in Hlev.
  exact (Hlev r Hr').
Qed.

Lemma read_amr_boundary_raises_witness :
  exists e news,
    snd (_read_amr examples.dom_boundary examples.pf_boundary examples.world0)
      = Raise e
    /\ oct_handler (fst (_read_amr examples.dom_boundary examples.pf_boundary
                                   examples.world0))
       = oct_add_all (oct_handler examples.world0) news
    /\ Forall (fun a => add_level a = 0) news.
Proof.
  apply (read_amr_boundary_raises examples.dom_boundary examples.pf_boundary
           examples.world0 1 1 1).
  - vm_compute. reflexivity.
  - vm_compute. reflexivity.
  - vm_compute. reflexivity.
  - lia.
  - lia.
  - lia.
Defined.

(** ** A header laid out as the reader expects it *)

Lemma frames_size_4 (a b c d : list byte) :
  frames_size [a; b; c; d]
  = frame_size a + frame_size b + frame_size c + frame_size d.
Proof. unfold frames_size. simpl. lia. Qed.

Lemma frames_split3 (a b c x : list byte) :
  layout.frames [a; b; c] ++ x
  = layout.frames [a; b] ++ layout.frame c ++ x.
Proof.
  unfold layout.frames. cbn [map concat].
  rewrite !app_nil_r, <- !app_assoc. reflexivity.
Qed.

Lemma read_attrs_free_mem (f : file) (cur : Z) (p b : list byte) :
  tail_at f cur (layout.frame p ++ b) -> layout.fits p ->
  length p = 20%nat ->
  exists vv,
    fpu.read_attrs f cur [("free_mem", 5, Fi)] = Ok (vv, cur + frame_size p)
    /\ tail_at f (cur + frame_size p) b.
Proof.
  intros Ht Hp Hl.
  destruct (read_record_frame _ _ _ _ Ht Hp) as [Hr Ht1].
  cbn [fpu.read_attrs]. rewrite Hr. cbn [bind]. rewrite Hl.
  cbn. eexists. split; [reflexivity|exact Ht1].
Qed.

(** X16.  A header laid out as the reader expects it parses: when the
    schema groups were read up to offset [c0] with consistent counts, and
    behind [c0] lie the records of the header tail followed by [rest],
    [_read_amr_header] succeeds for every domain id in [1, ncpu]; its
    [amr_offset] is the very offset at which [rest] begins, the header it
    keeps is the one read with [numbl] reshaped, and [local_oct_count] is
    the sum over the levels of the entries of [numbl] for that domain. *)
Theorem read_amr_header_layout (schema : header_schema) (f : file) (d : Z)
    (hvals : dict) (c0 : Z) (v : pyval) (flat : list Z) (nl nc nb : Z)
    (skip1 b1 b2 gb free_mem ordering : list byte) (skip4 : list (list byte))
    (rest : list byte) :
  read_schema f 0 schema [] = Ok (hvals, c0) ->
  dict_get hvals "numbl" = Ok v -> na.array v = Ok flat ->
  get_int hvals "nlevelmax" = Ok nl ->
  get_int hvals "ncpu" = Ok nc ->
  get_int hvals "nboundary" = Ok nb ->
  0 <= nl -> nl * nc = Z.of_nat (length flat) -> 1 <= d <= nc ->
  tail_at f c0
    (header_tail nb skip1 b1 b2 gb free_mem ordering skip4 ++ rest) ->
  Forall layout.fits (skip1 :: b1 :: b2 :: gb :: free_mem :: ordering :: skip4) ->
  Z.of_nat (length gb) mod 4 = 0 ->
  length free_mem = 20%nat -> length skip4 = 4%nat ->
  exists dom,
    _read_amr_header schema f d = Ok dom
    /\ tail_at f (amr_offset dom) rest
    /\ domain_id dom = d
    /\ amr_header dom = dict_set hvals "numbl" (PArray2 nl nc flat)
    /\ local_oct_count dom
       = na.sum (map (fun l => na.nthZ flat (l * nc + (d - 1))) (range nl)).
Proof.
  intros Es Ev Ea El Ec Eb H0 Hsz Hd Ht Hfits Hgb Hfm Hs4.
  inversion Hfits as [|? ? F1 Hf1]; subst.
  inversion Hf1 as [|? ? F2 Hf2]; subst.
  inversion Hf2 as [|? ? F3 Hf3]; subst.
  inversion Hf3 as [|? ? F4 Hf4]; subst.
  inversion Hf4 as [|? ? F5 Hf5]; subst.
  inversion Hf5 as [|? ? F6 F7]; subst.
  unfold header_tail in Ht. rewrite <- !app_assoc in Ht.
  (* one record to skip *)
  destruct (read_record_frame _ _ _ _ Ht F1) as [R1 T1].
  (* the boundary records *)
  assert (HB : exists c2,
             (if 0 <? nb then
                cur <- fpu.skip f (c0 + frame_size skip1) 2 ;;
                '(ngridbound, cur) <- fpu.read_vector f cur dt_i ;;
                Ok cur
              else Ok (c0 + frame_size skip1)) = Ok c2
             /\ tail_at f c2
                  (layout.frame free_mem ++ layout.frame ordering
                   ++ layout.frames skip4 ++ rest)).
  { destruct (0 <? nb).
    - rewrite frames_split3 in T1.
      destruct (skip_frames f [b1; b2] _ _ T1 ltac:(repeat constructor; assumption))
        as [S2 T2].
      destruct (read_vector_frame dt_i _ _ _ _ T2 F4 Hgb) as [V T3].
      cbn [length] in S2. rewrite S2. cbn [bind]. rewrite V. cbn [bind].
      eexists. split; [reflexivity|exact T3].
    - cbn [app] in T1. eexists. split; [reflexivity|exact T1]. }
  destruct HB as (c2 & EB & T2).
  destruct (read_attrs_free_mem _ _ _ _ T2 F5 Hfm) as (vv & RA & T3).
  assert (Hord : Z.of_nat (length ordering) mod itemsize dt_c = 0)
    by (simpl itemsize; apply Z.mod_1_r).
  destruct (read_vector_frame dt_c _ _ _ _ T3 F6 Hord) as [RV T4].
  destruct (skip_frames f skip4 _ _ T4 F7) as [S4 T5]. rewrite Hs4 in S4.
  (* the column of the domain *)
  assert (Hcol : na.column (PArray2 nl nc flat) (d - 1)
                 = Ok (map (fun r => na.nthZ flat (Z.of_nat r * nc + (d - 1)))
                           (seq 0 (Z.to_nat nl)))).
  { unfold na.column, na.norm_index.
    destruct (Z.leb_spec 0 (d - 1)); [|lia].
    destruct (Z.ltb_spec (d - 1) nc); [|lia]. reflexivity. }
  eexists. split.
  - unfold _read_amr_header. rewrite Es. cbn [bind].
    rewrite Ev. cbn [bind]. rewrite Ea. cbn [bind].
    rewrite El. cbn [bind]. rewrite Ec. cbn [bind].
    unfold na.reshape.
    destruct (Z.leb_spec 0 nl); [|lia]. destruct (Z.leb_spec 0 nc); [|lia].
    rewrite Hsz, Z.eqb_refl. cbn [andb bind].
    assert (S1 : fpu.skip f c0 1 = Ok (c0 + frame_size skip1))
      by (cbn [fpu.skip]; rewrite R1; reflexivity).
    rewrite S1. cbn [bind].
    rewrite header_int_numbl by discriminate. rewrite Eb. cbn [bind].
    rewrite EB. cbn [bind]. rewrite RA. cbn [bind].
    rewrite RV. cbn [bind]. rewrite S4. cbn [bind].
    rewrite Hcol. cbn [bind]. reflexivity.
  - cbn [amr_offset domain_id amr_header local_oct_count].
    split; [exact T5|]. split; [reflexivity|]. split; [reflexivity|].
    unfold range. rewrite map_map. reflexivity.
Qed.

Lemma read_amr_header_layout_witness :
  exists dom,
    _read_amr_header examples.schema examples.file2 2 = Ok dom
    /\ tail_at examples.file2 (amr_offset dom)
         (layout.body (fun _ _ => 1) examples.groups2 [0] [0; 1])
    /\ domain_id dom = 2
    /\ amr_header dom = dict_set hvals2 "numbl" (PArray2 1 2 [1; 1])
    /\ local_oct_count dom
       = na.sum (map (fun l => na.nthZ [1; 1] (l * 2 + (2 - 1))) (range 1)).
Proof.
  apply (read_amr_header_layout examples.schema examples.file2 2 hvals2 100
           (PInts [1; 1]) [1; 1] 1 2 0
           [] [] [] [] (layout.ints [0; 0; 0; 0; 0])
           [x68; x69; x6c; x62; x65; x72; x74] [[]; []; []; []]).
  - vm_compute. reflexivity.
  - vm_compute. reflexivity.
  - reflexivity.
  - vm_compute. reflexivity.
  - vm_compute. reflexivity.
  - vm_compute. reflexivity.
  - lia.
  - reflexivity.
  - lia.
  - split; [split; vm_compute; discriminate|vm_compute; reflexivity].
  - repeat constructor; vm_compute; reflexivity.
  - reflexivity.
  - reflexivity.
  - reflexivity.
Defined.

(** ** The parameter file *)

Section ParameterFile.

Import RAMSESStaticOutput.

Lemma and_then_done {A B} (r : outcome A) (k : A -> outcome B) (b : B) :
  and_then r k = Done b -> exists a, r = Done a /\ k a = Done b.
Proof. destruct r; cbn; [eauto | discriminate]. Qed.

Lemma last_char_cons (c : Ascii.ascii) (s : string) :
  exists d, text.last_char (String.String c s) = Some d.
Proof. cbn. destruct (text.last_char s); eauto. Qed.

Lemma last_char_app (a : string) (c : Ascii.ascii) (b : string) :
  text.last_char (String.append a (String.String c b))
  = text.last_char (String.String c b).
Proof.
  induction a as [|x a IH]; [reflexivity|].
  cbn [String.append]. cbn [text.last_char] in *. rewrite IH.
  destruct (text.last_char b); reflexivity.
Qed.

(** A line that leaves something of the file ends with a newline. *)
Lemma readline_rest (s l r : string) :
  text.readline s = (l, r) -> r <> String.EmptyString ->
  text.last_char l = Some text.newline.
Proof.
  revert l r. induction s as [|c s IH]; intros l r H Hr.
  - cbn in H. inversion H; subst. congruence.
  - cbn [text.readline] in H.
    destruct (Ascii.eqb c text.newline) eqn:Ec.
    + inversion H; subst. apply Ascii.eqb_eq in Ec. subst c. reflexivity.
    + destruct (text.readline s) as [l' r'] eqn:E. inversion H; subst.
      cbn [text.last_char]. rewrite (IH l' r eq_refl Hr). reflexivity.
Qed.

Lemma split_on_nonnil (sep : Ascii.ascii) (s : string) :
  text.split_on sep s <> [].
Proof.
  destruct s as [|c s]; cbn; [discriminate|].
  destruct (Ascii.eqb c sep); [discriminate|].
  destruct (text.split_on sep s); discriminate.
Qed.

Lemma split_on_one (sep : Ascii.ascii) (s v : string) :
  text.split_on sep s = [v] -> s = v.
Proof.
  revert v. induction s as [|c s IH]; intros v H; cbn in H.
  - inversion H. reflexivity.
  - destruct (Ascii.eqb c sep).
    + inversion H. exfalso. eapply split_on_nonnil; eauto.
    + destruct (text.split_on sep s) as [|h t] eqn:E.
      * exfalso. eapply split_on_nonnil; eauto.
      * inversion H; subst. f_equal. apply IH. reflexivity.
Qed.

(** Two pieces are the text before and after its only separator. *)
Lemma split_on_two (sep : Ascii.ascii) (s p v : string) :
  text.split_on sep s = [p; v] ->
  s = String.append p (String.String sep v).
Proof.
  revert p. induction s as [|c s IH]; intros p H; cbn in H.
  - discriminate.
  - destruct (Ascii.eqb c sep) eqn:Ec.
    + inversion H; subst. apply Ascii.eqb_eq in Ec. subst c.
      cbn. f_equal. apply split_on_one with (sep := sep). assumption.
    + destruct (text.split_on sep s) as [|h t] eqn:E.
      * discriminate.
      * inversion H; subst. cbn. f_equal. apply IH. reflexivity.
Qed.

Variable py : python.

Lemma read_rhs_inv (c : cast) (t : string) (rh : rdict) (t' : string)
    (rh' : rdict) :
  read_rhs py c (t, rh) = Done (t', rh') ->
  exists p v x,
    text.readline t = (String.append p (String.String text.equals_sign v), t')
    /\ apply_cast py c v = Done x
    /\ rh' = rd_set rh (text.strip p) x.
Proof.
  unfold read_rhs. destruct (text.readline t) as [line rest] eqn:R.
  destruct (text.split_on text.equals_sign line) as [|p [|v [|w ws]]] eqn:S;
    try discriminate.
  intros H. apply and_then_done in H. destruct H as [x [Ex H]].
  inversion H; subst. exists p, v, x.
  apply split_on_two in S. subst line. auto.
Qed.

Lemma read_rhs_rest (c : cast) (t : string) (rh : rdict) (t' : string)
    (rh' : rdict) :
  read_rhs py c (t, rh) = Done (t', rh') -> t' = text.drop_lines 1 t.
Proof.
  intros H. apply read_rhs_inv in H. destruct H as (p & v & x & R & _ & _).
  cbn. rewrite R. reflexivity.
Qed.

Lemma drop_lines_add (a b : nat) (s : string) :
  text.drop_lines (a + b) s = text.drop_lines b (text.drop_lines a s).
Proof. revert s. induction a as [|a IH]; intros s; cbn; auto. Qed.

Lemma read_rhs_n_rest (c : cast) (n : nat) (st st' : string * rdict) :
  read_rhs_n py c n st = Done st' -> fst st' = text.drop_lines n (fst st).
Proof.
  revert st. induction n as [|n IH]; intros st H.
  - cbn in H. inversion H. reflexivity.
  - cbn [read_rhs_n] in H. apply and_then_done in H.
    destruct H as [[t1 rh1] [E H]]. destruct st as [t rh].
    apply read_rhs_rest in E. apply IH in H. cbn [fst] in *.
    rewrite H, E. change (S n) with (1 + n)%nat.
    rewrite drop_lines_add. reflexivity.
Qed.

(** The integer and float casts leave no string in [rheader]. *)
Lemma read_rhs_n_no_str (c : cast) (n : nat) (st st' : string * rdict) :
  c <> CStr ->
  read_rhs_n py c n st = Done st' ->
  (forall k s, rd_get (snd st) k <> Done (RStr s)) ->
  forall k s, rd_get (snd st') k <> Done (RStr s).
Proof.
  intros Hc. revert st. induction n as [|n IH]; intros st H Hs.
  - cbn in H. inversion H; subst. assumption.
  - cbn [read_rhs_n] in H. apply and_then_done in H.
    destruct H as [[t1 rh1] [E H]]. destruct st as [t rh].
    apply (IH _ H). cbn [snd] in *.
    apply read_rhs_inv in E. destruct E as (p & v & x & _ & Ex & ->).
    intros k s. cbn [rd_get rd_set].
    destruct (String.eqb (text.strip p) k); [|apply Hs].
    destruct c; cbn in Ex; [| |congruence].
    + apply and_then_done in Ex. destruct Ex as [z [_ Ex]]. congruence.
    + apply and_then_done in Ex. destruct Ex as [z [_ Ex]]. congruence.
Qed.

(** When the string read last compares equal to "hilbert", its line was the
    end of the file. *)
Lemma read_rhs_str_hilbert (t : string) (rh : rdict) (t' : string)
    (rh' : rdict) (ot : param) :
  read_rhs py CStr (t, rh) = Done (t', rh') ->
  (forall k s, rd_get rh k <> Done (RStr s)) ->
  rd_get rh' "ordering type" = Done ot ->
  is_hilbert ot = true ->
  t' = String.EmptyString.
Proof.
  intros H Hs Hg Hh.
  apply read_rhs_inv in H. destruct H as (p & v & x & R & Ex & ->).
  cbn in Ex. inversion Ex; subst x. clear Ex.
  destruct ot as [z|z|s]; try discriminate.
  cbn in Hh. apply String.eqb_eq in Hh. subst s.
  cbn [rd_get rd_set] in Hg.
  destruct (String.eqb (text.strip p) "ordering type").
  - inversion Hg; subst v.
    destruct t' as [|c t']; [reflexivity|exfalso].
    assert (L := readline_rest _ _ _ R ltac:(discriminate)).
    rewrite last_char_app in L. vm_compute in L. discriminate.
  - exfalso. eapply Hs; eauto.
Qed.

Lemma read_hilbert_eof (ns : list Z) (r : string * hdict) :
  read_hilbert py ns String.EmptyString [] = Done r -> snd r = [].
Proof.
  destruct ns; cbn; intros H; [inversion H; reflexivity | discriminate].
Qed.

(** What a successful [read_info] has read. *)
Lemma read_info_inv (txt : string) (rh : rdict) (hi : hdict) :
  read_info py txt = Done (rh, hi) ->
  exists rh2 t3 ot,
    (forall k s, rd_get rh2 k <> Done (RStr s))
    /\ read_rhs py CStr (text.drop_lines 19 txt, rh2) = Done (t3, rh)
    /\ rd_get rh "ordering type" = Done ot
    /\ (if is_hilbert ot then
          exists n r, read_hilbert py (range n) (text.drop_lines 1 t3) [] = Done r
                      /\ hi = snd r
        else hi = []).
Proof.
  unfold read_info. intros H.
  apply and_then_done in H. destruct H as [st1 [E1 H]].
  destruct (text.readline (fst st1)) as [l1 t1] eqn:R1.
  apply and_then_done in H. destruct H as [st2 [E2 H]].
  destruct (text.readline (fst st2)) as [l2 t2] eqn:R2.
  apply and_then_done in H. destruct H as [[t3 rh3] [E3 H]].
  apply and_then_done in H. destruct H as [ot [E4 H]].
  apply and_then_done in H. destruct H as [hi' [E5 H]].
  inversion H; subst rh3 hi'. clear H.
  assert (N1 := read_rhs_n_no_str CInt 6 _ _ ltac:(discriminate) E1
                  ltac:(cbn; discriminate)).
  assert (N2 := read_rhs_n_no_str CFloat 11 _ _ ltac:(discriminate) E2 N1).
  apply read_rhs_n_rest in E1. apply read_rhs_n_rest in E2.
  cbn [fst snd] in *.
  assert (T : t2 = text.drop_lines 19 txt).
  { change 19%nat with (6 + (1 + (11 + 1)))%nat.
    rewrite !drop_lines_add. rewrite <- E1.
    change (text.drop_lines 1 (fst st1)) with (snd (text.readline (fst st1))).
    rewrite R1. cbn [snd]. rewrite <- E2.
    change (text.drop_lines 1 (fst st2)) with (snd (text.readline (fst st2))).
    rewrite R2. reflexivity. }
  subst t2. exists (snd st2), t3, ot. repeat split; auto.
  destruct (is_hilbert ot); [|inversion E5; reflexivity].
  destruct (text.readline t3) as [l3 t4] eqn:R3.
  apply and_then_done in E5. destruct E5 as [nc [E6 E5]].
  destruct nc as [n|x|s]; try discriminate.
  apply and_then_done in E5. destruct E5 as [r [E7 E5]].
  inversion E5. exists n, r. split; [|reflexivity].
  change (text.drop_lines 1 t3) with (snd (text.readline t3)).
  rewrite R3. exact E7.
Qed.

Lemma read_info_no_hilbert (txt : string) (rh : rdict) (hi : hdict) :
  read_info py txt = Done (rh, hi) -> hi = [].
Proof.
  intros H. apply read_info_inv in H.
  destruct H as (rh2 & t3 & ot & N & E & G & Hh).
  destruct (is_hilbert ot) eqn:Eh; [|assumption].
  destruct Hh as (n & r & Er & ->).
  rewrite (read_rhs_str_hilbert _ _ _ _ _ E N G Eh) in Er.
  cbn in Er. eapply read_hilbert_eof; eauto.
Qed.

Lemma read_info_short (txt : string) :
  text.drop_lines 19 txt = String.EmptyString ->
  exists e, read_info py txt = Fail e.
Proof.
  intros Hd. destruct (read_info py txt) as [[rh hi]|e] eqn:E; [|eauto].
  apply read_info_inv in E. destruct E as (rh2 & t3 & ot & _ & E & _).
  rewrite Hd in E. cbn in E. discriminate.
Qed.

(** X17 ([_parse_parameter_file]): a parse that completes leaves
    [hilbert_indices] empty, whatever the file says.  [str(v)] keeps the
    newline of its line, so the ordering compares equal to "hilbert" only
    on the last line of the file, and then no line of the table is left to
    read. *)
Theorem parse_parameter_file_no_hilbert (params0 : rdict) (ctime : Z)
    (txt : string) (evs : list event) (pf : attrs) :
  _parse_parameter_file py params0 ctime txt = (evs, Done pf) ->
  hilbert_indices pf = [].
Proof.
  unfold _parse_parameter_file. intros H.
  destruct (read_info py txt) as [[rh hi]|e] eqn:E;
    cbn [and_then] in H; [|discriminate].
  apply read_info_no_hilbert in E. subst hi.
  repeat match type of H with
  | context [and_then ?c _] =>
      destruct c; cbn [and_then] in H; [|discriminate]
  end.
  inversion H as [[He Hp]].
  repeat match type of Hp with
  | context [and_then ?c _] =>
      destruct c; cbn [and_then] in Hp; [|discriminate]
  end.
  inversion Hp. reflexivity.
Qed.

(** X18 ([_parse_parameter_file]): on a file that nineteen calls of
    [readline] exhaust, the parse raises, and it does so before the warning
    is logged. *)
Theorem parse_parameter_file_short (params0 : rdict) (ctime : Z)
    (txt : string) :
  text.drop_lines 19 txt = String.EmptyString ->
  exists e, _parse_parameter_file py params0 ctime txt = ([], Fail e).
Proof.
  intros Hd. destruct (read_info_short txt Hd) as [e E].
  exists e. unfold _parse_parameter_file. rewrite E. reflexivity.
Qed.

End ParameterFile.

Lemma parse_parameter_file_no_hilbert_witness :
  exists evs pf,
    RAMSESStaticOutput._parse_parameter_file info_example.py [] 7
      info_example.info_text = (evs, RAMSESStaticOutput.Done pf)
    /\ RAMSESStaticOutput.hilbert_indices pf = [].
Proof.
  eexists. eexists. split; [vm_compute; reflexivity|].
  eapply (parse_parameter_file_no_hilbert info_example.py [] 7
            info_example.info_text).
  vm_compute. reflexivity.
Defined.

Lemma parse_parameter_file_short_witness :
  text.drop_lines 19 info_example.info_text_short = String.EmptyString
  /\ exists e,
       RAMSESStaticOutput._parse_parameter_file info_example.py [] 7
         info_example.info_text_short = ([], RAMSESStaticOutput.Fail e).
Proof.
  split; [reflexivity|].
  apply (parse_parameter_file_short info_example.py [] 7
           info_example.info_text_short).
  reflexivity.
Defined.

Section InfoFile.

Import RAMSESStaticOutput.

Lemma readline_skip (a s : string) :
  text.mem_char text.newline a = false ->
  text.readline (String.append a s)
  = (String.append a (fst (text.readline s)), snd (text.readline s)).
Proof.
  induction a as [|c a IH]; intros H.
  - cbn. destruct (text.readline s); reflexivity.
  - cbn [text.mem_char] in H. apply orb_false_iff in H. destruct H as [Hc Ha].
    cbn [String.append text.readline]. rewrite Hc, (IH Ha). reflexivity.
Qed.

Lemma readline_newline (a rest : string) :
  text.mem_char text.newline a = false ->
  text.readline (String.append a (String.String text.newline rest))
  = (String.append a (String.String text.newline String.EmptyString), rest).
Proof. intros H. rewrite (readline_skip _ _ H). reflexivity. Qed.

Lemma split_on_plain (sep : Ascii.ascii) (s : string) :
  text.mem_char sep s = false -> text.split_on sep s = [s].
Proof.
  induction s as [|c s IH]; intros H; [reflexivity|].
  cbn [text.mem_char] in H. apply orb_false_iff in H. destruct H as [Hc Hs].
  cbn [text.split_on]. rewrite Hc, (IH Hs). reflexivity.
Qed.

Lemma split_on_sep (sep : Ascii.ascii) (a w : string) :
  text.mem_char sep a = false ->
  text.split_on sep (String.append a (String.String sep w))
  = a :: text.split_on sep w.
Proof.
  induction a as [|c a IH]; intros H.
  - cbn. rewrite Ascii.eqb_refl. reflexivity.
  - cbn [text.mem_char] in H. apply orb_false_iff in H. destruct H as [Hc Ha].
    cbn [String.append text.split_on]. rewrite Hc, (IH Ha). reflexivity.
Qed.

Lemma mem_char_app (c : Ascii.ascii) (a b : string) :
  text.mem_char c (String.append a b)
  = (text.mem_char c a || text.mem_char c b)%bool.
Proof.
  induction a as [|x a IH]; [reflexivity|].
  cbn. rewrite IH, orb_assoc. reflexivity.
Qed.

Lemma plain_inv (s : string) :
  info_file.plain s = true ->
  text.mem_char text.equals_sign s = false
  /\ text.mem_char text.newline s = false.
Proof.
  unfold info_file.plain. intros H. apply andb_true_iff in H.
  destruct H as [H1 H2]. apply negb_true_iff in H1, H2. auto.
Qed.

Variable py : python.

(** One line [k=v]: the cast is given the value with its newline. *)
Lemma read_rhs_line (c : cast) (k v rest : string) (rh : rdict) :
  info_file.plain k = true -> info_file.plain v = true ->
  read_rhs py c (info_file.lines [(k, v)] rest, rh)
  = (x <~ apply_cast py c (info_file.rhs v) ;;
     Done (rest, rd_set rh (text.strip k) x)).
Proof.
  intros Hk Hv. apply plain_inv in Hk, Hv.
  destruct Hk as [Hk1 Hk2]. destruct Hv as [Hv1 Hv2].
  unfold read_rhs. cbn [info_file.lines].
  rewrite (readline_skip k _ Hk2). cbn [text.readline].
  change (Ascii.eqb text.equals_sign text.newline) with false. cbv iota.
  rewrite (readline_newline v rest Hv2). cbn [fst snd].
  rewrite (split_on_sep _ k _ Hk1).
  rewrite split_on_plain
    by (rewrite mem_char_app, Hv1; reflexivity).
  reflexivity.
Qed.

Lemma read_rhs_n_cast_lines (c : cast) (kvs : list (string * string))
    (rest : string) (rh : rdict) :
  forallb info_file.plain_line kvs = true ->
  read_rhs_n py c (length kvs) (info_file.lines kvs rest, rh)
  = (rh' <~ info_file.cast_lines py c kvs rh ;; Done (rest, rh')).
Proof.
  revert rh. induction kvs as [|[k v] kvs IH]; intros rh H; [reflexivity|].
  cbn [forallb] in H. apply andb_true_iff in H. destruct H as [Hl H].
  unfold info_file.plain_line in Hl. cbn [fst snd] in Hl.
  apply andb_true_iff in Hl. destruct Hl as [Hk Hv].
  cbn [length read_rhs_n info_file.cast_lines].
  assert (E := read_rhs_line c k v (info_file.lines kvs rest) rh Hk Hv).
  cbn [info_file.lines] in E |- *. rewrite E.
  destruct (apply_cast py c (info_file.rhs v)) as [x|e]; cbn [and_then];
    [|reflexivity].
  apply IH. assumption.
Qed.

Lemma cast_lines_no_str (c : cast) (kvs : list (string * string))
    (rh rh' : rdict) :
  c <> CStr ->
  info_file.cast_lines py c kvs rh = Done rh' ->
  (forall k s, rd_get rh k <> Done (RStr s)) ->
  forall k s, rd_get rh' k <> Done (RStr s).
Proof.
  intros Hc. revert rh. induction kvs as [|[k v] kvs IH]; intros rh H Hs.
  - cbn in H. inversion H; subst. assumption.
  - cbn [info_file.cast_lines] in H. apply and_then_done in H.
    destruct H as [x [Ex H]]. apply (IH _ H).
    intros k' s. cbn [rd_get rd_set].
    destruct (String.eqb (text.strip k) k'); [|apply Hs].
    destruct c; cbn in Ex; [| |congruence].
    + apply and_then_done in Ex. destruct Ex as [z [_ Ex]]. congruence.
    + apply and_then_done in Ex. destruct Ex as [z [_ Ex]]. congruence.
Qed.

Lemma rhs_not_hilbert (v : string) :
  is_hilbert (RStr (info_file.rhs v)) = false.
Proof.
  cbn. apply String.eqb_neq. intros E.
  apply (f_equal text.last_char) in E. unfold info_file.rhs in E.
  rewrite last_char_app in E. vm_compute in E. discriminate.
Qed.

(** X19 ([_parse_parameter_file], the loops of [read_rhs]): on lines
    [key=value] whose keys and values hold no equals sign and no newline,
    the loop stores under each stripped key the cast of the text after the
    equals sign, the newline of the line included, and leaves the file
    after these lines. *)
Theorem read_rhs_n_lines (c : cast) (kvs : list (string * string))
    (rest : string) (rh : rdict) :
  forallb info_file.plain_line kvs = true ->
  read_rhs_n py c (length kvs) (info_file.lines kvs rest, rh)
  = (rh' <~ info_file.cast_lines py c kvs rh ;; Done (rest, rh')).
Proof. apply read_rhs_n_cast_lines. Qed.

(** X20 ([_parse_parameter_file]): on a file of six integer lines, a line,
    eleven float lines, a line and the line of the ordering, the reads
    give the dictionary of the cast values and no hilbert index, whatever
    the ordering is and whatever follows it in the file. *)
Theorem read_info_render (ints floats : list (string * string))
    (sep1 sep2 : string) (ok ov rest : string) :
  length ints = 6%nat -> length floats = 11%nat ->
  forallb info_file.plain_line ints = true ->
  forallb info_file.plain_line floats = true ->
  text.mem_char text.newline sep1 = false ->
  text.mem_char text.newline sep2 = false ->
  info_file.plain ok = true -> info_file.plain ov = true ->
  read_info py (info_file.render ints sep1 floats sep2 (ok, ov) rest)
  = (rh1 <~ info_file.cast_lines py CInt ints [] ;;
     rh2 <~ info_file.cast_lines py CFloat floats rh1 ;;
     let rheader := rd_set rh2 (text.strip ok) (RStr (info_file.rhs ov)) in
     _ <~ rd_get rheader "ordering type" ;;
     Done (rheader, [])).
Proof.
  intros L1 L2 P1 P2 S1 S2 Pk Pv.
  unfold read_info, info_file.render.
  replace (read_rhs_n py CInt 6) with (read_rhs_n py CInt (length ints))
    by (rewrite L1; reflexivity).
  rewrite (read_rhs_n_cast_lines CInt ints _ [] P1).
  destruct (info_file.cast_lines py CInt ints []) as [rh1|e] eqn:E1;
    cbn [and_then fst snd]; [|reflexivity].
  rewrite (readline_newline sep1 _ S1).
  replace (read_rhs_n py CFloat 11) with (read_rhs_n py CFloat (length floats))
    by (rewrite L2; reflexivity).
  rewrite (read_rhs_n_cast_lines CFloat floats _ rh1 P2).
  destruct (info_file.cast_lines py CFloat floats rh1) as [rh2|e] eqn:E2;
    cbn [and_then fst snd]; [|reflexivity].
  rewrite (readline_newline sep2 _ S2).
  rewrite (read_rhs_line CStr ok ov rest rh2 Pk Pv).
  cbn [apply_cast and_then].
  destruct (rd_get (rd_set rh2 (text.strip ok) (RStr (info_file.rhs ov)))
              "ordering type") as [ot|e] eqn:G; cbn [and_then];
    [|reflexivity].
  assert (N1 := cast_lines_no_str CInt ints _ _ ltac:(discriminate) E1
                  ltac:(cbn; discriminate)).
  assert (N2 := cast_lines_no_str CFloat floats _ _ ltac:(discriminate) E2 N1).
  assert (Hh : is_hilbert ot = false).
  { cbn [rd_get rd_set] in G.
    destruct (String.eqb (text.strip ok) "ordering type").
    - inversion G. apply rhs_not_hilbert.
    - destruct ot as [z|x|s]; try reflexivity.
      exfalso. eapply N2; eauto. }
  rewrite Hh. reflexivity.
Qed.

End InfoFile.

Lemma read_rhs_n_lines_witness :
  RAMSESStaticOutput.read_rhs_n info_example.py RAMSESStaticOutput.CInt 6
    (info_file.lines info_example2.ints " ", [])
  = RAMSESStaticOutput.and_then
      (info_file.cast_lines info_example.py RAMSESStaticOutput.CInt
         info_example2.ints [])
      (fun rh' => RAMSESStaticOutput.Done (" ", rh')).
Proof.
  apply (read_rhs_n_lines info_example.py RAMSESStaticOutput.CInt
           info_example2.ints " " []).
  reflexivity.
Defined.

Lemma read_info_render_witness :
  RAMSESStaticOutput.read_info info_example.py
    (info_file.render info_example2.ints " " info_example2.floats " "
       ("ordering type", "hilbert") info_example2.table)
  = RAMSESStaticOutput.and_then
      (info_file.cast_lines info_example.py RAMSESStaticOutput.CInt
         info_example2.ints [])
      (fun rh1 =>
         RAMSESStaticOutput.and_then
           (info_file.cast_lines info_example.py RAMSESStaticOutput.CFloat
              info_example2.floats rh1)
           (fun rh2 =>
              let rheader :=
                RAMSESStaticOutput.rd_set rh2 (text.strip "ordering type")
                  (RAMSESStaticOutput.RStr (info_file.rhs "hilbert")) in
              RAMSESStaticOutput.and_then
                (RAMSESStaticOutput.rd_get rheader "ordering type")
                (fun _ => RAMSESStaticOutput.Done (rheader, [])))).
Proof.
  apply (read_info_render info_example.py info_example2.ints
           info_example2.floats " " " " "ordering type" "hilbert"
           info_example2.table); reflexivity.
Defined.
